(** * Step Counter API: a shallow embedding of [backend/main.py]

    The development follows the layout of the source:
    - [PyFloat]: Python's [float], that is IEEE 754 binary64, built on the
      executable specification [SpecFloat] of the Standard Library, together
      with the few pieces of Python semantics the handlers rely on
      (int-to-float conversion, true division, truthiness, [min]/[max]);
    - the exceptions the handlers can raise and a small error monad;
    - [calculate_distance_and_calories];
    - the two tables of the relational store and the queries issued on them,
      with the limits of the store: 64-bit integers and its [sum] aggregate;
    - the four request handlers, as state-passing functions on the store;
    - the properties of the handlers. *)

From Stdlib Require Import ZArith List Bool Lia String.
From Stdlib Require Import Sorting.Sorted Sorting.Permutation.
From Stdlib Require Import Floats.SpecFloat.
Import ListNotations.
Local Open Scope Z_scope.

(** ** Exceptions and the error monad *)

Inductive exn : Type :=
  | OverflowError
  | ZeroDivisionError
  | OperationalError (msg : string)
  | HTTPException (status_code : Z) (detail : string).

Inductive result (A : Type) : Type :=
  | Ok (a : A)
  | Raise (e : exn).

Arguments Ok {A} a.
Arguments Raise {A} e.

Definition bind {A B : Type} (c : result A) (k : A -> result B) : result B :=
  match c with
  | Ok a => k a
  | Raise e => Raise e
  end.

Notation "x <- c ;; k" := (bind c (fun x => k))
  (at level 61, c at next level, right associativity).

(** ** Python floats *)

Module PyFloat.

(** A Python [float] is a binary64 number: 53 bits of precision, and the
    infinities have exponent 1024. *)
Definition prec : Z := 53.
Definition emax : Z := 1024.

Definition float : Type := spec_float.

Definition zero : float := S754_zero false.
Definition neg_zero : float := S754_zero true.
Definition nan : float := S754_nan.

Definition add : float -> float -> float := SFadd prec emax.
Definition sub : float -> float -> float := SFsub prec emax.
Definition mul : float -> float -> float := SFmul prec emax.
Definition div : float -> float -> float := SFdiv prec emax.

(** [x == y], [x < y] and [x <= y]; all three are false on a NaN. *)
Definition eqb : float -> float -> bool := SFeqb.
Definition ltb : float -> float -> bool := SFltb.
Definition leb : float -> float -> bool := SFleb.

Definition is_nan (x : float) : bool :=
  match x with S754_nan => true | _ => false end.

Definition is_finite (x : float) : bool :=
  match x with S754_zero _ | S754_finite _ _ _ => true | _ => false end.

(** [fabs(x)]. *)
Definition abs : float -> float := SFabs.

(** The sign bit; a NaN carries none in this representation. *)
Definition signbit (x : float) : bool :=
  match x with
  | S754_zero s | S754_infinity s | S754_finite s _ _ => s
  | S754_nan => false
  end.

(** The integer [z] rounded to the nearest float, ties to even. *)
Definition round_int (z : Z) : float := binary_normalize prec emax z 0 false.

(** [float(z)], also the implicit conversion of the [int] operand of a
    mixed operation: Python raises [OverflowError] when the rounded value
    is out of range instead of producing an infinity. *)
Definition of_int (z : Z) : result float :=
  match round_int z with
  | S754_infinity _ => Raise OverflowError
  | f => Ok f
  end.

(** [a / b] on floats raises on a zero divisor of either sign. *)
Definition truediv (a b : float) : result float :=
  if eqb b zero then Raise ZeroDivisionError else Ok (div a b).

(** [bool(x)]: the two zeros are falsy, everything else (a NaN too) is
    truthy. *)
Definition truthy (x : float) : bool := negb (eqb x zero).

(** [min(x, y)] keeps its first argument unless the second is strictly
    smaller; [max(x, y)] keeps it unless the second is strictly larger. *)
Definition min (x y : float) : float := if ltb y x then y else x.
Definition max (x y : float) : float := if ltb x y then y else x.

(** The literal [0.762] of the source denotes the float nearest to
    762/1000. *)
Definition lit_0_762 : float := S754_finite false 6863485832112636 (-53).

(** An [int] literal used as the operand of a float operation ([1000],
    [700], [100], [0]) or written with a trailing [.0] ([5.0]); all the
    literals of the source are small enough to be converted exactly. *)
Definition lit (z : Z) : float := round_int z.

End PyFloat.

Import PyFloat.

(** ** The conversion function *)

(** [calculate_distance_and_calories(steps)].  The only operation that can
    raise is the conversion of [steps] in [steps * step_length_m]. *)
Definition calculate_distance_and_calories (steps : Z) : result (float * float) :=
  (* Distance calculation *)
  let step_length_m := lit_0_762 in
  steps_f <- of_int steps ;;
  let distance_m := mul steps_f step_length_m in
  distance_km <- truediv distance_m (lit 1000) ;;
  (* Time calculation (hours) *)
  let walking_speed_kmh := lit 5 in
  time_hours <- truediv distance_km walking_speed_kmh ;;
  (* Calories calculation *)
  let calories_per_hour := lit 700 in
  let calories_burned := mul time_hours calories_per_hour in
  Ok (distance_km, calories_burned).

(** ** Data model *)

(** Timestamps are points of a discrete clock. *)
Definition datetime : Type := Z.

Record StepRecordCreate : Type := mkStepRecordCreate { create_steps : Z }.

Module StepRecord.
Record t : Type := mk {
  id : Z;
  steps : Z;
  distance_km : float;
  calories_burned : float;
  created_at : datetime
}.
End StepRecord.

Module WeightGoal.
Record t : Type := mk {
  id : Z;
  target_weight_loss_kg : float;
  total_calories_needed : float;
  calories_burned_so_far : float;
  created_at : datetime
}.

Definition set_calories_burned_so_far (g : t) (c : float) : t :=
  mk (id g) (target_weight_loss_kg g) (total_calories_needed g) c (created_at g).
End WeightGoal.

Record WeightGoalResponse : Type := mkWeightGoalResponse {
  wg_id : Z;
  wg_target_weight_loss_kg : float;
  wg_total_calories_needed : float;
  wg_calories_burned_so_far : float;
  progress_percentage : float;
  remaining_calories : float;
  wg_created_at : datetime
}.

Record DashboardResponse : Type := mkDashboardResponse {
  total_steps : Z;
  total_distance_km : float;
  total_calories_burned : float;
  weight_goal : WeightGoalResponse;
  recent_records : list StepRecord.t
}.

(** The column defaults of the [WeightGoal] table. *)
Record WeightGoalDefaults : Type := mkWeightGoalDefaults {
  default_target_weight_loss_kg : float;
  default_total_calories_needed : float;
  default_calories_burned_so_far : float
}.

(** ** The store *)

(** The two tables, each with its rows in insertion order. *)
Record Store : Type := mkStore {
  step_records : list StepRecord.t;
  weight_goals : list WeightGoal.t
}.

Definition empty_store : Store := mkStore [] [].

(** Modelled from the spec: the key the store assigns on insert (the table
    declarations of [database.py] are not part of the sources).  It is
    "unique": one more than the greatest key in the table, 1 in an empty
    table. *)
Definition fresh_id (ids : list Z) : Z := 1 + fold_right Z.max 0 ids.

(** The store is an SQLite database reached through SQLAlchemy.  An
    [INTEGER] is a signed 64-bit number. *)
Definition int64_min : Z := - 2 ^ 63.
Definition int64_max : Z := 2 ^ 63 - 1.

Definition in_int64 (z : Z) : bool := (int64_min <=? z) && (z <=? int64_max).

(** A Python [int] handed to the store as the parameter of a statement:
    the driver raises [OverflowError] when it does not fit. *)
Definition bind_int (z : Z) : result Z :=
  if in_int64 z then Ok z else Raise OverflowError.

(** [query.first()]. *)
Definition first {A : Type} (rows : list A) : option A := hd_error rows.

(** [func.sum] over an [INTEGER] column: NULL ([None]) on an empty table,
    otherwise the values added up in row order in a 64-bit accumulator; the
    statement fails once a partial sum leaves the 64 bits. *)
Fixpoint sum_int_from (iSum : Z) (col : list Z) : result Z :=
  match col with
  | [] => Ok iSum
  | x :: rest =>
      if in_int64 (iSum + x) then sum_int_from (iSum + x) rest
      else Raise (OperationalError "integer overflow")
  end.

Definition func_sum_int (col : list Z) : result (option Z) :=
  match col with
  | [] => Ok None
  | _ :: _ => total <- sum_int_from 0 col ;; Ok (Some total)
  end.

(** [func.sum] over a [REAL] column, as SQLite computes it from version
    3.44 on: a Kahan-Babuska-Neumaier summation in row order, with a running
    sum and a running compensation. *)
Record SumCtx : Type := mkSumCtx {
  rSum : float;  (* running sum *)
  rErr : float   (* error term *)
}.

Definition kahanBabuskaNeumaierStep (p : SumCtx) (r : float) : SumCtx :=
  let s := rSum p in
  let t := add s r in
  mkSumCtx t
    (if ltb (abs r) (abs s)
     then add (rErr p) (add (sub s t) r)
     else add (rErr p) (add (sub r t) s)).

(** The compensation is left out when it is an infinity or a NaN. *)
Definition sumFinalize (p : SumCtx) : float :=
  match rErr p with
  | S754_infinity _ | S754_nan => rSum p
  | _ => add (rSum p) (rErr p)
  end.

(** NULL ([None]) on an empty table; a NaN result is a NULL as well. *)
Definition func_sum_float (col : list float) : option float :=
  match col with
  | [] => None
  | _ :: _ =>
      let total := sumFinalize (fold_left kahanBabuskaNeumaierStep col (mkSumCtx zero zero)) in
      if is_nan total then None else Some total
  end.

(** [value or default]: the default replaces [None] and every falsy value. *)
Definition or_int (value : option Z) (default : Z) : Z :=
  match value with
  | Some v => if Z.eqb v 0 then default else v
  | None => default
  end.

Definition or_float (value : option float) (default : float) : float :=
  match value with
  | Some v => if truthy v then v else default
  | None => default
  end.

(** [order_by(StepRecord.created_at.desc())]: the sort is stable, rows with
    equal timestamps stay in table order.  [insert_desc r sorted] places a
    row [r] that precedes the rows of [sorted] in the table. *)
Fixpoint insert_desc (r : StepRecord.t) (sorted : list StepRecord.t) : list StepRecord.t :=
  match sorted with
  | [] => [r]
  | x :: rest =>
      if StepRecord.created_at x <=? StepRecord.created_at r
      then r :: sorted
      else x :: insert_desc r rest
  end.

Definition order_by_created_at_desc (rows : list StepRecord.t) : list StepRecord.t :=
  fold_right insert_desc [] rows.

(** [limit(n)]: the first [n] rows; a negative [n] gives no bound. *)
Definition limit {A : Type} (n : Z) (rows : list A) : list A :=
  if n <? 0 then rows else firstn (Z.to_nat n) rows.

(** [filter(StepRecord.id == step_id).first()]. *)
Definition find_step (step_id : Z) (rows : list StepRecord.t) : option StepRecord.t :=
  find (fun r => StepRecord.id r =? step_id) rows.

(** [db.delete(row)]: the row with that key leaves the table. *)
Fixpoint delete_row (step_id : Z) (rows : list StepRecord.t) : list StepRecord.t :=
  match rows with
  | [] => []
  | r :: rest =>
      if StepRecord.id r =? step_id then rest else r :: delete_row step_id rest
  end.

(** ** The request handlers *)

Section Handlers.

(** The column defaults of a [WeightGoal] row are declared in
    [database.py], which is not part of the sources; the handlers are
    parametric in them. *)
Variable defaults : WeightGoalDefaults.

(** Modelled from the spec: [WeightGoal(...)] followed by [db.add], "create
    with default values if none exists"; the key and the timestamp are
    assigned by the store. *)
Definition new_weight_goal (calories_burned_so_far : float) (now : datetime)
    (rows : list WeightGoal.t) : WeightGoal.t :=
  WeightGoal.mk (fresh_id (map WeightGoal.id rows))
    (default_target_weight_loss_kg defaults)
    (default_total_calories_needed defaults)
    calories_burned_so_far now.

(** [POST /steps].  The new row reaches the store when the session is
    flushed, where a step count that is no 64-bit integer raises
    [OverflowError].  An exception leaves the transaction uncommitted. *)
Definition add_steps (step_data : StepRecordCreate) (now : datetime) (db : Store)
    : Store * result StepRecord.t :=
  match calculate_distance_and_calories (create_steps step_data) with
  | Raise e => (db, Raise e)
  | Ok (distance_km, calories_burned) =>
      match bind_int (create_steps step_data) with
      | Raise e => (db, Raise e)
      | Ok steps =>
          (* Create step record *)
          let db_step :=
            StepRecord.mk (fresh_id (map StepRecord.id (step_records db)))
              steps distance_km calories_burned now in
          (* Update weight goal progress *)
          let goals :=
            match weight_goals db with
            | [] =>
                let weight_goal :=
                  new_weight_goal (default_calories_burned_so_far defaults) now [] in
                [WeightGoal.set_calories_burned_so_far weight_goal
                   (add (WeightGoal.calories_burned_so_far weight_goal) calories_burned)]
            | weight_goal :: others =>
                WeightGoal.set_calories_burned_so_far weight_goal
                  (add (WeightGoal.calories_burned_so_far weight_goal) calories_burned)
                :: others
            end in
          (mkStore (step_records db ++ [db_step]) goals, Ok db_step)
      end
  end.

(** [GET /steps].  The limit is a parameter of the statement. *)
Definition get_steps (n : Z) (db : Store) : result (list StepRecord.t) :=
  n <- bind_int n ;;
  Ok (limit n (order_by_created_at_desc (step_records db))).

(** The three aggregates of the dashboard, each with its [or] default. *)
Definition sum_steps (rows : list StepRecord.t) : result Z :=
  total_steps <- func_sum_int (map StepRecord.steps rows) ;;
  Ok (or_int total_steps 0).

Definition sum_distance_km (rows : list StepRecord.t) : float :=
  or_float (func_sum_float (map StepRecord.distance_km rows)) zero.

Definition sum_calories_burned (rows : list StepRecord.t) : float :=
  or_float (func_sum_float (map StepRecord.calories_burned rows)) zero.

(** The get-or-create step of the dashboard: the goal row it goes on with
    and the store as committed. *)
Definition refresh_weight_goal (total_calories_burned : float) (now : datetime)
    (db : Store) : WeightGoal.t * Store :=
  match weight_goals db with
  | [] =>
      let weight_goal := new_weight_goal total_calories_burned now [] in
      (weight_goal, mkStore (step_records db) [weight_goal])
  | weight_goal :: others =>
      (* Update calories burned so far *)
      let weight_goal :=
        WeightGoal.set_calories_burned_so_far weight_goal total_calories_burned in
      (weight_goal, mkStore (step_records db) (weight_goal :: others))
  end.

(** [GET /dashboard].  The three sums are one statement, which fails as a
    whole when the sum of the step counts overflows; nothing is written
    then.  Otherwise the goal row is committed before the progress is
    computed, so the store changes even when the division raises. *)
Definition get_dashboard (now : datetime) (db : Store)
    : Store * result DashboardResponse :=
  (* Get totals *)
  match sum_steps (step_records db) with
  | Raise e => (db, Raise e)
  | Ok total_steps =>
      let total_distance_km := sum_distance_km (step_records db) in
      let total_calories_burned := sum_calories_burned (step_records db) in
      (* Get or create weight goal *)
      let '(weight_goal, db') := refresh_weight_goal total_calories_burned now db in
      (db',
       (* Calculate progress *)
       ratio <- truediv (WeightGoal.calories_burned_so_far weight_goal)
                        (WeightGoal.total_calories_needed weight_goal) ;;
       let progress_percentage := min (mul ratio (lit 100)) (lit 100) in
       let remaining_calories :=
         max (sub (WeightGoal.total_calories_needed weight_goal)
                  (WeightGoal.calories_burned_so_far weight_goal)) (lit 0) in
       let weight_goal_response :=
         mkWeightGoalResponse (WeightGoal.id weight_goal)
           (WeightGoal.target_weight_loss_kg weight_goal)
           (WeightGoal.total_calories_needed weight_goal)
           (WeightGoal.calories_burned_so_far weight_goal)
           progress_percentage remaining_calories
           (WeightGoal.created_at weight_goal) in
       (* Get recent records *)
       let recent_records := limit 5 (order_by_created_at_desc (step_records db')) in
       Ok (mkDashboardResponse total_steps total_distance_km total_calories_burned
             weight_goal_response recent_records))
  end.

(** [DELETE /steps/{step_id}].  The key is a parameter of the lookup. *)
Definition delete_step_record (step_id : Z) (db : Store) : Store * result string :=
  match bind_int step_id with
  | Raise e => (db, Raise e)
  | Ok step_id =>
      match find_step step_id (step_records db) with
      | None => (db, Raise (HTTPException 404 "Step record not found"))
      | Some step_record =>
          (mkStore (delete_row (StepRecord.id step_record) (step_records db))
                   (weight_goals db),
           Ok "Step record deleted successfully"%string)
      end
  end.

(** *** The service as a transition system *)

Inductive request : Type :=
  | AddSteps (step_data : StepRecordCreate)
  | GetSteps (n : Z)
  | GetDashboard
  | DeleteStepRecord (step_id : Z).

(** The store a request leaves behind when it is served at time [now]. *)
Definition serve (req : request) (now : datetime) (db : Store) : Store :=
  match req with
  | AddSteps step_data => fst (add_steps step_data now db)
  | GetSteps _ => db
  | GetDashboard => fst (get_dashboard now db)
  | DeleteStepRecord step_id => fst (delete_step_record step_id db)
  end.

(** The stores the service can be in, starting from empty tables. *)
Inductive reachable : Store -> Prop :=
  | reachable_empty : reachable empty_store
  | reachable_serve req now db :
      reachable db -> reachable (serve req now db).

End Handlers.

(** ** Notions used in the statements *)

(** The closed form of the two results of the conversion function, for a
    step count already converted to a float. *)
Definition distance_km_of (steps_f : float) : float :=
  div (mul steps_f lit_0_762) (lit 1000).

Definition calories_of (steps_f : float) : float :=
  mul (div (div (mul steps_f lit_0_762) (lit 1000)) (lit 5)) (lit 700).

(** [in_range k b eb x]: [x] is [+0.0], or a finite canonical float of
    magnitude at least [2 ^ (k - 1)] and at most [b * 2 ^ eb]. *)
Definition in_range (k b eb : Z) (x : float) : Prop :=
  match x with
  | S754_zero s => s = false
  | S754_finite _ m e =>
      Zpos m < 2 ^ 53 /\ -1074 <= e <= eb
      /\ Zpos m <= b * 2 ^ (eb - e) /\ k <= Zdigits2 (Zpos m) + e
  | _ => False
  end.

(** The greatest finite float is [max_mantissa * 2 ^ 971]. *)
Definition max_mantissa : Z := 2 ^ 53 - 1.

(** The mantissa of [0.762]. *)
Definition mantissa_0_762 : Z := 6863485832112636.

(** [number x]: [x] is not a NaN and not the negative zero, and its exponent
    is in range when it is finite.  Such a float may be an infinity. *)
Definition number (x : float) : Prop :=
  match x with
  | S754_nan => False
  | S754_zero s => s = false
  | S754_infinity _ => True
  | S754_finite _ _ e => -1074 <= e
  end.

(** [moderate x]: [x] is [+0.0] or a normal number whose magnitude is
    neither tiny nor huge, as are the distance and the calories of a 64-bit
    step count. *)
Definition moderate (x : float) : Prop :=
  match x with
  | S754_zero s => s = false
  | S754_finite _ m e => Zdigits2 (Zpos m) = 53 /\ -900 <= e <= 900
  | _ => False
  end.

(** The values of a column added up in row order, [0.0] for no row. *)
Definition total_of (col : list float) : float :=
  match col with
  | [] => zero
  | x :: rest => fold_left add rest x
  end.

(** A stored row holds what the conversion function returns for its step
    count. *)
Definition stored_as_computed (r : StepRecord.t) : Prop :=
  calculate_distance_and_calories (StepRecord.steps r)
  = Ok (StepRecord.distance_km r, StepRecord.calories_burned r).

(** A goal row carries the declared defaults in the two columns no handler
    writes. *)
Definition goal_as_declared (defaults : WeightGoalDefaults) (g : WeightGoal.t) : Prop :=
  WeightGoal.target_weight_loss_kg g = default_target_weight_loss_kg defaults
  /\ WeightGoal.total_calories_needed g = default_total_calories_needed defaults.

Definition consistent (defaults : WeightGoalDefaults) (db : Store) : Prop :=
  Forall stored_as_computed (step_records db)
  /\ Forall (goal_as_declared defaults) (weight_goals db)
  /\ NoDup (map StepRecord.id (step_records db))
  /\ (List.length (weight_goals db) <= 1)%nat.

(** The target the dashboard divides by: the one of the first goal row, or
    the declared default when the row is yet to be created. *)
Definition goal_total_calories_needed (defaults : WeightGoalDefaults) (db : Store) : float :=
  match weight_goals db with
  | g :: _ => WeightGoal.total_calories_needed g
  | [] => default_total_calories_needed defaults
  end.

(** Rows from the most recent to the least recent. *)
Definition newest_first (rows : list StepRecord.t) : Prop :=
  StronglySorted
    (fun a b => StepRecord.created_at b <= StepRecord.created_at a) rows.

(** Defaults used in the examples: a goal of 5 kg at 7700 kcal per kg. *)
Definition example_defaults : WeightGoalDefaults :=
  mkWeightGoalDefaults (lit 5) (lit 38500) zero.

(** The store after one request for 10000 steps, and after one for -10000
    steps, which the request model accepts as well. *)
Definition example_store : Store :=
  fst (add_steps example_defaults (mkStepRecordCreate 10000) 1 empty_store).

Definition negative_store : Store :=
  fst (add_steps example_defaults (mkStepRecordCreate (-10000)) 1 empty_store).




(** A store whose goal row has a zero target. *)
Definition zero_target_store : Store :=
  mkStore [] [WeightGoal.mk 1 (lit 5) zero zero 0].

(** Defaults with a zero target, and the store after two requests for
    [2 ^ 62] steps under them. *)
Definition zero_target_defaults : WeightGoalDefaults :=
  mkWeightGoalDefaults (lit 5) zero zero.

Definition zero_target_full_store : Store :=
  serve zero_target_defaults (AddSteps (mkStepRecordCreate (2 ^ 62))) 2
    (serve zero_target_defaults (AddSteps (mkStepRecordCreate (2 ^ 62))) 1 empty_store).

(** [rne m n]: the quotient of [m >= 0] by [2 ^ n], rounded to the nearest
    integer, to the even one in a tie. *)
Definition rne (m n : Z) : Z :=
  let q := m / 2 ^ n in
  match 2 * (m mod 2 ^ n) ?= 2 ^ n with
  | Lt => q
  | Eq => if Z.even q then q else q + 1
  | Gt => q + 1
  end.

(** The exponent a value [m * 2 ^ e] is rounded at, and the value rounded
    there as a mantissa and an exponent (a mantissa of 54 bits is brought
    back to 53). *)
Definition round_at (m e : Z) : Z * Z :=
  let f := fexp prec emax (Zdigits2 m + e) in
  let e0 := Z.min e f in
  let m' := rne (m * 2 ^ (e - e0)) (f - e0) in
  if m' =? 2 ^ 53 then (2 ^ 52, f + 1) else (m', f).

(** The float built from a sign and a rounded value. *)
Definition build (sx : bool) (me : Z * Z) : float :=
  match fst me with
  | Zpos m => if snd me <=? 971 then S754_finite sx m (snd me) else S754_infinity sx
  | Z0 => S754_zero sx
  | Zneg _ => S754_nan
  end.

(** A finite float as an integer multiple of [2 ^ -1074]. *)
Definition scaled (x : float) : Z :=
  match x with
  | S754_finite s m e => cond_Zopp s (Zpos m * 2 ^ (e + 1074))
  | _ => 0
  end.

(** [rnd s]: the integer [s], a multiple of [2 ^ -1074], rounded to 53
    bits. *)
Definition rnd (s : Z) : Z :=
  let n := Z.max 0 (Zdigits2 s - 53) in
  Z.sgn s * (rne (Z.abs s) n * 2 ^ n).

(** An integer of exactly 53 bits followed by zeros. *)
Definition normal (x : Z) : Prop :=
  exists m a, 0 <= a /\ 2 ^ 52 <= Z.abs m < 2 ^ 53 /\ x = m * 2 ^ a.


(** [normalized x]: a finite [x] has a mantissa of exactly 53 bits. *)
Definition normalized (x : float) : Prop :=
  match x with
  | S754_finite _ m _ => Zdigits2 (Zpos m) = 53
  | _ => True
  end.

Ltac closed_arith :=
  repeat split;
  first [ lia | vm_compute; reflexivity | vm_compute; discriminate ].


(** ** Facts about Python floats *)

Lemma lit_1000_nonzero : eqb (lit 1000) zero = false.
Proof. vm_compute. reflexivity. Qed.

Lemma lit_5_nonzero : eqb (lit 5) zero = false.
Proof. vm_compute. reflexivity. Qed.

Lemma truediv_nonzero (a b : float) :
  eqb b zero = false -> truediv a b = Ok (div a b).
Proof. intros Hb. unfold truediv. rewrite Hb. reflexivity. Qed.

Lemma truediv_zero (a b : float) :
  eqb b zero = true -> truediv a b = Raise ZeroDivisionError.
Proof. intros Hb. unfold truediv. rewrite Hb. reflexivity. Qed.

(** The literal [0.762] is the correctly rounded quotient 762/1000. *)
Lemma lit_0_762_nearest : div (lit 762) (lit 1000) = lit_0_762.
Proof. vm_compute. reflexivity. Qed.

(** *** Comparisons *)

Lemma SFcompare_antisym (x y : float) :
  SFcompare y x = option_map CompOpp (SFcompare x y).
Proof.
  destruct x as [sx|sx| |sx mx ex], y as [sy|sy| |sy my ey]; simpl;
    try reflexivity; try (destruct sx; reflexivity); try (destruct sy; reflexivity);
    try (destruct sx, sy; reflexivity).
  f_equal.
  destruct sx, sy; simpl; try reflexivity.
  all: rewrite (Z.compare_antisym ex ey); destruct (ex ?= ey); simpl; try reflexivity.
  all: change (Pos.compare_cont Eq my mx) with (Pos.compare my mx);
       change (Pos.compare_cont Eq mx my) with (Pos.compare mx my);
       rewrite (Pos.compare_antisym mx my); try reflexivity.
Qed.

Lemma SFcompare_not_nan (x y : float) :
  is_nan x = false -> is_nan y = false -> SFcompare x y <> None.
Proof.
  destruct x as [sx|sx| |sx mx ex], y as [sy|sy| |sy my ey];
    simpl; intros Hx Hy; discriminate.
Qed.

Lemma not_ltb_leb (x y : float) :
  is_nan x = false -> is_nan y = false -> ltb y x = false -> leb x y = true.
Proof.
  unfold ltb, leb, SFltb, SFleb. intros Hx Hy.
  rewrite (SFcompare_antisym x y).
  pose proof (SFcompare_not_nan x y Hx Hy) as Hc.
  destruct (SFcompare x y) as [[]|]; simpl; congruence.
Qed.

(** *** Rounding: the shifts *)

Lemma digits2_pos_size (p : positive) : digits2_pos p = Pos.size p.
Proof. induction p; simpl; congruence. Qed.

Lemma digits2_pos_upper (p : positive) : Zpos p < 2 ^ Zpos (digits2_pos p).
Proof.
  rewrite digits2_pos_size. change 2 with (Zpos 2).
  rewrite <- Pos2Z.inj_pow. exact (Pos.size_gt p).
Qed.

Lemma digits2_pos_lower (p : positive) : 2 ^ (Zpos (digits2_pos p) - 1) <= Zpos p.
Proof.
  rewrite digits2_pos_size. pose proof (Pos.size_le p) as H.
  assert (H' : 2 ^ Zpos (Pos.size p) <= 2 * Zpos p).
  { change 2 with (Zpos 2) at 1. rewrite <- Pos2Z.inj_pow. exact H. }
  replace (Zpos (Pos.size p)) with (Z.succ (Zpos (Pos.size p) - 1)) in H' by lia.
  rewrite Z.pow_succ_r in H' by lia. lia.
Qed.

Lemma shr_1_m (mrs : shr_record) :
  0 <= shr_m mrs -> shr_m (shr_1 mrs) = shr_m mrs / 2.
Proof.
  destruct mrs as [m r s]. simpl. intros Hm.
  destruct m as [|[p|p|]|p]; simpl; try reflexivity; try lia.
  - rewrite Pos2Z.inj_xI. apply (Z.div_unique _ _ _ 1); lia.
  - rewrite Pos2Z.inj_xO. apply (Z.div_unique _ _ _ 0); lia.
Qed.

Lemma iter_shr_1_m (p : positive) : forall mrs : shr_record,
  0 <= shr_m mrs ->
  shr_m (iter_pos shr_1 p mrs) = shr_m mrs / 2 ^ Zpos p.
Proof.
  assert (Hpow : forall q, 0 < 2 ^ Zpos q) by (intros q; apply Z.pow_pos_nonneg; lia).
  assert (Hdiv : forall a q, 0 <= a -> 0 <= a / 2 ^ Zpos q).
  { intros a q Ha. apply Z.div_pos; [exact Ha|apply Hpow]. }
  assert (Hhalf : forall mrs, 0 <= shr_m mrs -> 0 <= shr_m (shr_1 mrs)).
  { intros mrs Hm. rewrite shr_1_m by exact Hm. apply Z.div_pos; lia. }
  induction p as [p IH|p IH|]; intros mrs Hm; cbn [iter_pos].
  - assert (H1 : 0 <= shr_m (iter_pos shr_1 p (shr_1 mrs))).
    { rewrite IH by auto. apply Hdiv. auto. }
    rewrite IH, IH, shr_1_m by auto.
    rewrite !Z.div_div by (pose proof (Hpow p); nia).
    f_equal. rewrite <- Z.pow_add_r by lia.
    change 2 with (2 ^ 1) at 1. rewrite <- Z.pow_add_r by lia.
    f_equal. lia.
  - assert (H1 : 0 <= shr_m (iter_pos shr_1 p mrs)).
    { rewrite IH by auto. apply Hdiv. auto. }
    rewrite IH, IH by auto.
    rewrite Z.div_div by (pose proof (Hpow p); lia).
    f_equal. rewrite <- Z.pow_add_r by lia. f_equal. lia.
  - apply shr_1_m. exact Hm.
Qed.

(** The mantissa and the exponent after [shr]. *)
Lemma shr_m_spec (mrs : shr_record) (e n : Z) :
  0 <= shr_m mrs ->
  shr_m (fst (shr mrs e n)) = shr_m mrs / 2 ^ Z.max 0 n
  /\ snd (shr mrs e n) = e + Z.max 0 n.
Proof.
  intros Hm. destruct n as [|p|p]; simpl.
  - rewrite Z.div_1_r. split; [reflexivity|lia].
  - rewrite iter_shr_1_m by exact Hm. split; reflexivity.
  - rewrite Z.div_1_r. split; [reflexivity|lia].
Qed.

Lemma shr_record_of_loc_m (m : Z) (l : location) : shr_m (shr_record_of_loc m l) = m.
Proof. destruct l as [|[]]; reflexivity. Qed.

Lemma round_nearest_even_bounds (m : Z) (l : location) :
  m <= round_nearest_even m l <= m + 1.
Proof.
  destruct l as [|[]]; simpl; try lia. destruct (Z.even m); lia.
Qed.

Lemma fexp_eq (x : Z) : fexp prec emax x = Z.max (x - 53) (-1074).
Proof. reflexivity. Qed.

Lemma Zdigits2_upper (m : Z) : 0 <= m -> m < 2 ^ Zdigits2 m \/ m = 0.
Proof.
  destruct m as [|p|p]; intros Hm; [right; reflexivity| |lia].
  left. apply digits2_pos_upper.
Qed.

Lemma Zdigits2_lower (m : Z) : 0 < m -> 2 ^ (Zdigits2 m - 1) <= m.
Proof.
  destruct m as [|p|p]; intros Hm; try lia. apply digits2_pos_lower.
Qed.

Lemma Zdigits2_nonneg (m : Z) : 0 <= Zdigits2 m.
Proof. destruct m; simpl; lia. Qed.

(** A mantissa below [b * 2 ^ k] with [b] of at most 53 bits has at most
    [53 + k] digits. *)
Lemma Zdigits2_bound (m b k : Z) :
  0 <= m -> 0 <= k -> 0 < b < 2 ^ 53 -> m <= b * 2 ^ k -> Zdigits2 m <= 53 + k.
Proof.
  intros Hm Hk Hb Hle.
  destruct (Z.eq_dec m 0) as [->|Hne]; [change (Zdigits2 0) with 0; lia|].
  pose proof (Zdigits2_lower m ltac:(lia)) as Hlow.
  pose proof (Zdigits2_nonneg m) as Hd.
  assert (Hpk : 0 < 2 ^ k) by (apply Z.pow_pos_nonneg; lia).
  assert (Hlt : 2 ^ (Zdigits2 m - 1) < 2 ^ (53 + k)).
  { rewrite Z.pow_add_r by lia. nia. }
  apply Z.pow_lt_mono_r_iff in Hlt; lia.
Qed.

(** One rounding shift keeps a mantissa under a bound given on a coarser
    grid. *)
Lemma shr_fexp_upper (m e : Z) (l : location) (b eb : Z) :
  0 <= m -> e <= eb -> -1074 <= eb -> 0 < b < 2 ^ 53 ->
  m <= b * 2 ^ (eb - e) ->
  let '(mrs, e') := shr_fexp prec emax m e l in
  e <= e' /\ e' <= eb /\ 0 <= shr_m mrs <= b * 2 ^ (eb - e')
  /\ (m < b * 2 ^ (eb - e) -> shr_m mrs < b * 2 ^ (eb - e')).
Proof.
  intros Hm He Hemin Hb Hle. unfold shr_fexp.
  pose proof (shr_m_spec (shr_record_of_loc m l) e
                (fexp prec emax (Zdigits2 m + e) - e)) as Hshr.
  rewrite shr_record_of_loc_m in Hshr. specialize (Hshr Hm).
  destruct (shr (shr_record_of_loc m l) e (fexp prec emax (Zdigits2 m + e) - e))
    as [mrs e']. simpl in Hshr. destruct Hshr as [-> ->].
  set (k := Z.max 0 (fexp prec emax (Zdigits2 m + e) - e)).
  pose proof (Zdigits2_bound m b (eb - e) Hm ltac:(lia) Hb Hle) as Hd.
  assert (Hk : 0 <= k /\ e + k <= eb).
  { unfold k. rewrite fexp_eq. lia. }
  assert (Hpk : 0 < 2 ^ k) by (apply Z.pow_pos_nonneg; lia).
  assert (Hsplit : b * 2 ^ (eb - e) = 2 ^ k * (b * 2 ^ (eb - (e + k)))).
  { replace (eb - e) with (k + (eb - (e + k))) by lia.
    rewrite Z.pow_add_r by lia. ring. }
  split; [lia|]. split; [lia|]. split; [split|].
  - apply Z.div_pos; lia.
  - apply Z.div_le_upper_bound; [exact Hpk|]. rewrite <- Hsplit. exact Hle.
  - intros Hlt. apply Z.div_lt_upper_bound; [exact Hpk|]. rewrite <- Hsplit. exact Hlt.
Qed.

(** Rounding a value strictly below a bound [b * 2 ^ eb] that is itself a
    float gives zero or a finite float not above the bound: no overflow. *)
Lemma binary_round_aux_upper (sx : bool) (mx ex : Z) (lx : location) (b eb : Z) :
  0 <= mx -> ex <= eb -> -1074 <= eb <= 971 -> 0 < b < 2 ^ 53 ->
  mx < b * 2 ^ (eb - ex) ->
  match binary_round_aux prec emax sx mx ex lx with
  | S754_zero s => s = sx
  | S754_finite s m e => s = sx /\ ex <= e <= eb /\ Zpos m <= b * 2 ^ (eb - e)
  | _ => False
  end.
Proof.
  intros Hm He Heb Hb Hlt. unfold binary_round_aux.
  pose proof (shr_fexp_upper mx ex lx b eb Hm He ltac:(lia) Hb ltac:(lia)) as H1.
  destruct (shr_fexp prec emax mx ex lx) as [mrs' e'].
  destruct H1 as (He0 & He' & Hm' & Hstrict). specialize (Hstrict Hlt).
  pose proof (round_nearest_even_bounds (shr_m mrs') (loc_of_shr_record mrs')) as Hr.
  pose proof (shr_fexp_upper (round_nearest_even (shr_m mrs') (loc_of_shr_record mrs'))
                e' loc_Exact b eb ltac:(lia) He' ltac:(lia) Hb ltac:(lia)) as H2.
  destruct (shr_fexp prec emax _ e' loc_Exact) as [mrs'' e''].
  destruct H2 as (He1 & He'' & Hm'' & _).
  destruct (shr_m mrs'') as [|p|p] eqn:Em; [reflexivity| |lia].
  replace (e'' <=? emax - prec) with true
    by (symmetry; apply Z.leb_le; change (emax - prec) with 971; lia).
  split; [reflexivity|]. split; lia.
Qed.

(** One rounding shift: the result has at most 53 digits when the shift
    is the last one, its exponent is at least [emin], and a value of
    magnitude above the subnormal threshold keeps its magnitude. *)
Lemma shr_fexp_canonical (m e : Z) (l : location) :
  0 <= m ->
  let '(mrs, e') := shr_fexp prec emax m e l in
  e <= e' /\ -1074 <= e' /\ 0 <= shr_m mrs < 2 ^ 53
  /\ (0 < m -> -1074 < Zdigits2 m + e ->
      0 < shr_m mrs /\ Zdigits2 m + e <= Zdigits2 (shr_m mrs) + e').
Proof.
  intros Hm. unfold shr_fexp.
  pose proof (shr_m_spec (shr_record_of_loc m l) e
                (fexp prec emax (Zdigits2 m + e) - e)) as Hshr.
  rewrite shr_record_of_loc_m in Hshr. specialize (Hshr Hm).
  destruct (shr (shr_record_of_loc m l) e (fexp prec emax (Zdigits2 m + e) - e))
    as [mrs e']. simpl in Hshr. destruct Hshr as [-> ->].
  set (k := Z.max 0 (fexp prec emax (Zdigits2 m + e) - e)).
  pose proof (Zdigits2_nonneg m) as Hd.
  assert (Hk : 0 <= k /\ Zdigits2 m - 53 <= k /\ -1074 <= e + k
               /\ (-1074 < Zdigits2 m + e -> 0 < Zdigits2 m -> k < Zdigits2 m)).
  { unfold k. rewrite fexp_eq. lia. }
  assert (Hpk : 0 < 2 ^ k) by (apply Z.pow_pos_nonneg; lia).
  split; [lia|]. split; [lia|]. split; [split|].
  - apply Z.div_pos; lia.
  - apply Z.div_lt_upper_bound; [exact Hpk|].
    destruct (Zdigits2_upper m Hm) as [Hup| ->]; [|lia].
    rewrite <- Z.pow_add_r by lia.
    apply Z.lt_le_trans with (1 := Hup). apply Z.pow_le_mono_r; lia.
  - intros Hpos Hmag.
    pose proof (Zdigits2_lower m Hpos) as Hlow.
    assert (Hdpos : 0 < Zdigits2 m) by (destruct m; simpl in *; lia).
    destruct Hk as (Hk0 & _ & _ & Hk). specialize (Hk Hmag Hdpos).
    assert (Hq : 2 ^ (Zdigits2 m - 1 - k) <= m / 2 ^ k).
    { apply Z.div_le_lower_bound; [exact Hpk|].
      rewrite <- Z.pow_add_r by lia.
      replace (k + (Zdigits2 m - 1 - k)) with (Zdigits2 m - 1) by lia. exact Hlow. }
    assert (Hq0 : 0 < 2 ^ (Zdigits2 m - 1 - k)) by (apply Z.pow_pos_nonneg; lia).
    split; [lia|].
    destruct (Zdigits2_upper (m / 2 ^ k) ltac:(lia)) as [Hup|H0]; [|lia].
    assert (Hlt : 2 ^ (Zdigits2 m - 1 - k) < 2 ^ Zdigits2 (m / 2 ^ k)) by lia.
    apply Z.pow_lt_mono_r_iff in Hlt; [lia|lia|apply Zdigits2_nonneg].
Qed.

Lemma Zdigits2_mono (a b : Z) : 0 < a -> a <= b -> Zdigits2 a <= Zdigits2 b.
Proof.
  intros Ha Hab.
  pose proof (Zdigits2_lower a Ha) as Hlow.
  destruct (Zdigits2_upper b ltac:(lia)) as [Hup|H0]; [|lia].
  assert (Hlt : 2 ^ (Zdigits2 a - 1) < 2 ^ Zdigits2 b) by lia.
  apply Z.pow_lt_mono_r_iff in Hlt; [lia|lia|apply Zdigits2_nonneg].
Qed.

(** The shape of a rounded result: never a NaN, the sign is the one asked
    for, a finite result is in range, and a value of magnitude above the
    subnormal threshold does not underflow to zero. *)
Lemma binary_round_aux_canonical (sx : bool) (mx ex : Z) (lx : location) :
  0 <= mx ->
  match binary_round_aux prec emax sx mx ex lx with
  | S754_zero s => s = sx /\ (0 < mx -> Zdigits2 mx + ex <= -1074)
  | S754_infinity s => s = sx
  | S754_nan => False
  | S754_finite s m e =>
      s = sx /\ Zpos m < 2 ^ 53 /\ -1074 <= e <= 971
      /\ (0 < mx -> -1074 < Zdigits2 mx + ex ->
          Zdigits2 mx + ex <= Zdigits2 (Zpos m) + e)
  end.
Proof.
  intros Hm. unfold binary_round_aux.
  pose proof (shr_fexp_canonical mx ex lx Hm) as H1.
  destruct (shr_fexp prec emax mx ex lx) as [mrs' e'].
  destruct H1 as (He0 & He' & Hm' & Hmag').
  pose proof (round_nearest_even_bounds (shr_m mrs') (loc_of_shr_record mrs')) as Hr.
  set (m2 := round_nearest_even (shr_m mrs') (loc_of_shr_record mrs')) in *.
  pose proof (shr_fexp_canonical m2 e' loc_Exact ltac:(lia)) as H2.
  destruct (shr_fexp prec emax m2 e' loc_Exact) as [mrs'' e''].
  destruct H2 as (He1 & He'' & Hm'' & Hmag'').
  assert (Hkeep : 0 < mx -> -1074 < Zdigits2 mx + ex ->
                  0 < shr_m mrs'' /\ Zdigits2 mx + ex <= Zdigits2 (shr_m mrs'') + e'').
  { intros Hpos Hmag. destruct (Hmag' Hpos Hmag) as [Hp1 Hd1].
    pose proof (Zdigits2_mono (shr_m mrs') m2 Hp1 ltac:(lia)) as Hd2.
    destruct (Hmag'' ltac:(lia) ltac:(lia)) as [Hp3 Hd3]. split; lia. }
  destruct (shr_m mrs'') as [|p|p] eqn:Em; [| |lia].
  - split; [reflexivity|]. intros Hpos.
    destruct (Z_lt_le_dec (-1074) (Zdigits2 mx + ex)) as [Hmag|Hmag]; [|exact Hmag].
    destruct (Hkeep Hpos Hmag) as [Hp _]. lia.
  - destruct (e'' <=? emax - prec) eqn:Ele; [|reflexivity].
    apply Z.leb_le in Ele. change (emax - prec) with 971 in Ele.
    split; [reflexivity|]. split; [lia|]. split; [lia|].
    intros Hpos Hmag. apply (Hkeep Hpos Hmag).
Qed.

Lemma Zdigits2_mul_lower (a b : positive) :
  Zdigits2 (Zpos a) + Zdigits2 (Zpos b) - 1 <= Zdigits2 (Zpos (a * b)).
Proof.
  pose proof (Zdigits2_lower (Zpos a) ltac:(lia)) as Ha.
  pose proof (Zdigits2_lower (Zpos b) ltac:(lia)) as Hb.
  destruct (Zdigits2_upper (Zpos (a * b)) ltac:(lia)) as [Hup|H0]; [|lia].
  assert (Hda : 0 < Zdigits2 (Zpos a)) by (simpl; lia).
  assert (Hdb : 0 < Zdigits2 (Zpos b)) by (simpl; lia).
  assert (Hlt : 2 ^ (Zdigits2 (Zpos a) - 1 + (Zdigits2 (Zpos b) - 1))
                < 2 ^ Zdigits2 (Zpos (a * b))).
  { rewrite Z.pow_add_r by lia. pose proof (Pos2Z.inj_mul a b) as Hab.
    assert (0 < 2 ^ (Zdigits2 (Zpos a) - 1)) by (apply Z.pow_pos_nonneg; lia).
    assert (0 < 2 ^ (Zdigits2 (Zpos b) - 1)) by (apply Z.pow_pos_nonneg; lia).
    nia. }
  apply Z.pow_lt_mono_r_iff in Hlt; [lia|lia|apply Zdigits2_nonneg].
Qed.

(** Multiplication by a positive constant [my * 2 ^ ey]. *)
Lemma mul_in_range (k b eb : Z) (x : float) (my : positive) (ey k' b' eb' : Z) :
  in_range k b eb x ->
  k' <= k + Zdigits2 (Zpos my) + ey - 1 -> -1074 < k' ->
  0 < b' < 2 ^ 53 -> -1074 <= eb' <= 971 -> eb + ey <= eb' -> 0 < b ->
  b * Zpos my < b' * 2 ^ (eb' - ey - eb) ->
  in_range k' b' eb' (mul x (S754_finite false my ey)).
Proof.
  intros Hx Hk Hk' Hb' Heb' Hey Hb Hlt.
  destruct x as [s|s| |s m e]; cbn [in_range] in Hx; try contradiction.
  - subst s. reflexivity.
  - destruct Hx as (Hm & He & Hle & Hmag).
    unfold mul, SFmul.
    assert (Hprod : Zpos (m * my) < b' * 2 ^ (eb' - (e + ey))).
    { replace (eb' - (e + ey)) with ((eb' - ey - eb) + (eb - e)) by lia.
      rewrite Z.pow_add_r by lia. rewrite Pos2Z.inj_mul.
      assert (0 < 2 ^ (eb - e)) by (apply Z.pow_pos_nonneg; lia).
      assert (0 < 2 ^ (eb' - ey - eb)) by (apply Z.pow_pos_nonneg; lia).
      nia. }
    pose proof (binary_round_aux_upper (xorb s false) (Zpos (m * my)) (e + ey)
                  loc_Exact b' eb' ltac:(lia) ltac:(lia) Heb' Hb' Hprod) as Hup.
    pose proof (binary_round_aux_canonical (xorb s false) (Zpos (m * my)) (e + ey)
                  loc_Exact ltac:(lia)) as Hcan.
    pose proof (Zdigits2_mul_lower m my) as Hd.
    destruct (binary_round_aux prec emax (xorb s false) (Zpos (m * my)) (e + ey) loc_Exact)
      as [s'|s'| |s' m' e']; try contradiction.
    + destruct Hcan as [_ Hcan]. specialize (Hcan ltac:(lia)). lia.
    + destruct Hup as (_ & He' & Hle'). destruct Hcan as (_ & Hm' & Hee & Hmag').
      specialize (Hmag' ltac:(lia) ltac:(lia)).
      cbn [in_range]. split; [exact Hm'|]. split; [lia|]. split; [exact Hle'|]. lia.
Qed.

Lemma SFdiv_core_binary_spec (mx my : positive) (ex ey : Z) :
  let e' := Z.min (fexp prec emax (Zdigits2 (Zpos mx) + ex - (Zdigits2 (Zpos my) + ey)))
                  (ex - ey) in
  exists l : location,
    SFdiv_core_binary prec emax (Zpos mx) ex (Zpos my) ey
    = (Zpos mx * 2 ^ (ex - ey - e') / Zpos my, e', l).
Proof.
  intros e'. unfold SFdiv_core_binary. fold e'.
  assert (Hs : 0 <= ex - ey - e') by (unfold e'; lia).
  set (s := ex - ey - e') in *.
  set (m' := match s with
             | 0 => Zpos mx
             | Zpos _ => Z.shiftl (Zpos mx) s
             | Zneg _ => 0
             end).
  assert (Hm' : m' = Zpos mx * 2 ^ s).
  { unfold m'. destruct s as [|p|p]; [rewrite Z.pow_0_r; lia| |lia].
    apply Z.shiftl_mul_pow2. lia. }
  unfold Z.div. rewrite <- Hm'.
  destruct (Z.div_eucl m' (Zpos my)) as [q r].
  exists (new_location (Zpos my) r). reflexivity.
Qed.

(** Division by a positive constant [my * 2 ^ ey]. *)
Lemma div_in_range (k b eb : Z) (x : float) (my : positive) (ey k' b' eb' : Z) :
  in_range k b eb x ->
  k' <= k - (Zdigits2 (Zpos my) + ey) -> -1074 < k' ->
  0 < b' < 2 ^ 53 -> -1074 <= eb' <= 971 -> 0 < b < 2 ^ 53 ->
  eb - (Zdigits2 (Zpos my) + ey) <= eb' -> eb' <= eb - ey ->
  b * 2 ^ (eb - ey - eb') < Zpos my * b' ->
  in_range k' b' eb' (div x (S754_finite false my ey)).
Proof.
  intros Hx Hk Hk' Hb' Heb' Hb Hey Hey' Hlt.
  destruct x as [s|s| |s m e]; cbn [in_range] in Hx; try contradiction.
  - subst s. reflexivity.
  - destruct Hx as (Hm & He & Hle & Hmag).
    unfold div, SFdiv.
    destruct (SFdiv_core_binary_spec m my e ey) as [l Hcore].
    rewrite Hcore. clear Hcore.
    set (dx := Zdigits2 (Zpos m)) in *. set (dy := Zdigits2 (Zpos my)) in *.
    set (e' := Z.min (fexp prec emax (dx + e - (dy + ey))) (e - ey)).
    set (q := Zpos m * 2 ^ (e - ey - e') / Zpos my).
    pose proof (Zdigits2_bound (Zpos m) b (eb - e) ltac:(lia) ltac:(lia) Hb Hle) as Hdx.
    fold dx in Hdx.
    assert (Hdxpos : 0 < dx) by (unfold dx; simpl; lia).
    assert (Hdypos : 0 < dy) by (unfold dy; simpl; lia).
    assert (He' : e' <= eb' /\ 0 <= e - ey - e' /\ 0 <= dx - 1 + (e - ey - e') - dy).
    { unfold e'. rewrite fexp_eq. lia. }
    destruct He' as (He'1 & Hs & Hexp).
    assert (Hps : 0 < 2 ^ (e - ey - e')) by (apply Z.pow_pos_nonneg; lia).
    assert (Hq0 : 0 <= q).
    { unfold q. apply Z.div_pos; lia. }
    assert (Hqup : q < b' * 2 ^ (eb' - e')).
    { unfold q. apply Z.div_lt_upper_bound; [lia|].
      assert (H1 : Zpos m * 2 ^ (e - ey - e') <= b * 2 ^ (eb - ey - e')).
      { replace (eb - ey - e') with ((eb - e) + (e - ey - e')) by lia.
        rewrite Z.pow_add_r, Z.mul_assoc by lia.
        apply Z.mul_le_mono_nonneg_r; [lia|exact Hle]. }
      assert (H2 : b * 2 ^ (eb - ey - e') < Zpos my * b' * 2 ^ (eb' - e')).
      { replace (eb - ey - e') with ((eb - ey - eb') + (eb' - e')) by lia.
        rewrite Z.pow_add_r by lia.
        assert (0 < 2 ^ (eb' - e')) by (apply Z.pow_pos_nonneg; lia). nia. }
      lia. }
    assert (Hqlow : 2 ^ (dx - 1 + (e - ey - e') - dy) <= q).
    { unfold q. apply Z.div_le_lower_bound; [lia|].
      pose proof (Zdigits2_lower (Zpos m) ltac:(lia)) as Hlow. fold dx in Hlow.
      destruct (Zdigits2_upper (Zpos my) ltac:(lia)) as [Hup|H0]; [|lia]. fold dy in Hup.
      apply Z.le_trans with (2 ^ (dx - 1) * 2 ^ (e - ey - e')).
      - replace (2 ^ (dx - 1) * 2 ^ (e - ey - e'))
          with (2 ^ dy * 2 ^ (dx - 1 + (e - ey - e') - dy)).
        + apply Z.mul_le_mono_nonneg_r; [apply Z.pow_nonneg; lia|lia].
        + rewrite <- !Z.pow_add_r by lia. f_equal. lia.
      - apply Z.mul_le_mono_nonneg_r; [lia|exact Hlow]. }
    assert (Hqpos : 0 < q).
    { assert (0 < 2 ^ (dx - 1 + (e - ey - e') - dy)) by (apply Z.pow_pos_nonneg; lia). lia. }
    assert (Hdq : dx + (e - ey - e') - dy <= Zdigits2 q).
    { destruct (Zdigits2_upper q Hq0) as [Hup|H0]; [|lia].
      assert (Hlt' : 2 ^ (dx - 1 + (e - ey - e') - dy) < 2 ^ Zdigits2 q) by lia.
      apply Z.pow_lt_mono_r_iff in Hlt'; [lia|lia|apply Zdigits2_nonneg]. }
    pose proof (binary_round_aux_upper (xorb s false) q e' l b' eb'
                  Hq0 He'1 Heb' Hb' Hqup) as Hup.
    pose proof (binary_round_aux_canonical (xorb s false) q e' l Hq0) as Hcan.
    destruct (binary_round_aux prec emax (xorb s false) q e' l)
      as [s'|s'| |s' m' e'']; try contradiction.
    + destruct Hcan as [_ Hcan]. specialize (Hcan Hqpos). lia.
    + destruct Hup as (_ & He'' & Hle'). destruct Hcan as (_ & Hm' & Hee & Hmag').
      specialize (Hmag' Hqpos ltac:(lia)).
      cbn [in_range]. split; [exact Hm'|]. split; [lia|]. split; [exact Hle'|]. lia.
Qed.

(** *** Conversion of an integer *)

Lemma iter_xO_spec (m d : positive) :
  Zpos (Pos.iter xO m d) = Zpos m * 2 ^ Zpos d
  /\ Zpos (digits2_pos (Pos.iter xO m d)) = Zpos (digits2_pos m) + Zpos d.
Proof.
  induction d as [|d [IH1 IH2]] using Pos.peano_ind.
  - simpl. split; lia.
  - rewrite Pos.iter_succ. cbn [digits2_pos]. rewrite Pos2Z.inj_xO, IH1.
    rewrite Pos2Z.inj_succ, Z.pow_succ_r by lia. split; lia.
Qed.

Lemma shl_align_spec (mx : positive) (ex ex' : Z) :
  let '(mz, ez) := shl_align mx ex ex' in
  ez = Z.min ex ex' /\ Zpos mz = Zpos mx * 2 ^ (ex - ez)
  /\ Zdigits2 (Zpos mz) + ez = Zdigits2 (Zpos mx) + ex.
Proof.
  unfold shl_align. destruct (ex' - ex) as [|d|d] eqn:Ed.
  - replace (ex - ex) with 0 by lia. simpl. split; [lia|]. split; lia.
  - replace (ex - ex) with 0 by lia. simpl. split; [lia|]. split; lia.
  - destruct (iter_xO_spec mx d) as [H1 H2].
    replace (ex - ex') with (Zpos d) by lia. cbn [Zdigits2]. split; [lia|]. split; lia.
Qed.

Lemma binary_round_in_range (sx : bool) (m : positive) (e : Z) :
  -1074 < Zdigits2 (Zpos m) + e ->
  match binary_round prec emax sx m e with
  | S754_finite s m' e' =>
      s = sx /\ in_range (Zdigits2 (Zpos m) + e) max_mantissa 971 (S754_finite s m' e')
  | S754_infinity s => s = sx
  | _ => False
  end.
Proof.
  intros Hmag. unfold binary_round.
  pose proof (shl_align_spec m e (fexp prec emax (Zpos (digits2_pos m) + e))) as Hal.
  destruct (shl_align m e (fexp prec emax (Zpos (digits2_pos m) + e))) as [mz ez].
  destruct Hal as (Hez & Hmz & Hdz).
  pose proof (binary_round_aux_canonical sx (Zpos mz) ez loc_Exact ltac:(lia)) as Hcan.
  destruct (binary_round_aux prec emax sx (Zpos mz) ez loc_Exact)
    as [s'|s'| |s' m' e']; try contradiction.
  - destruct Hcan as [_ Hcan]. specialize (Hcan ltac:(lia)). lia.
  - exact Hcan.
  - destruct Hcan as (Hs & Hm' & He' & Hmag'). split; [exact Hs|].
    specialize (Hmag' ltac:(lia) ltac:(lia)).
    cbn [in_range]. split; [exact Hm'|]. split; [lia|]. split; [|lia].
    assert (0 < 2 ^ (971 - e')) by (apply Z.pow_pos_nonneg; lia).
    unfold max_mantissa. nia.
Qed.

Lemma of_int_in_range (s : Z) (f : float) :
  of_int s = Ok f ->
  in_range 1 max_mantissa 971 f
  /\ (0 <= s -> signbit f = false) /\ (s = 0 -> f = zero) /\ (s <> 0 -> f <> zero).
Proof.
  unfold of_int, round_int, binary_normalize. intros Hf.
  assert (Hd : forall p, 1 <= Zdigits2 (Zpos p) + 0) by (intros p; simpl; lia).
  destruct s as [|p|p].
  - injection Hf as <-. repeat split; try reflexivity. intros H; contradiction.
  - pose proof (binary_round_in_range false p 0 ltac:(specialize (Hd p); lia)) as Hr.
    destruct (binary_round prec emax false p 0) as [s'|s'| |s' m' e'];
      try contradiction; try discriminate.
    injection Hf as <-. destruct Hr as [-> Hr]. cbn [in_range] in *.
    destruct Hr as (H1 & H2 & H3 & H4). specialize (Hd p).
    repeat split; try lia; try reflexivity. intros _; discriminate.
  - pose proof (binary_round_in_range true p 0 ltac:(specialize (Hd p); lia)) as Hr.
    destruct (binary_round prec emax true p 0) as [s'|s'| |s' m' e'];
      try contradiction; try discriminate.
    injection Hf as <-. destruct Hr as [-> Hr]. cbn [in_range] in *.
    destruct Hr as (H1 & H2 & H3 & H4). specialize (Hd p).
    repeat split; try lia. intros _; discriminate.
Qed.


(** Every integer below the greatest finite float in absolute value can be
    converted. *)
Lemma of_int_succeeds (s : Z) :
  Z.abs s < max_mantissa * 2 ^ 971 -> exists f, of_int s = Ok f.
Proof.
  intros Hs. unfold of_int, round_int, binary_normalize.
  assert (Hround : forall sx p, Zpos p < max_mantissa * 2 ^ 971 ->
            match binary_round prec emax sx p 0 with
            | S754_infinity _ => False
            | _ => True
            end).
  { intros sx p Hp. unfold binary_round.
    pose proof (shl_align_spec p 0 (fexp prec emax (Zpos (digits2_pos p) + 0))) as Hal.
    destruct (shl_align p 0 (fexp prec emax (Zpos (digits2_pos p) + 0))) as [mz ez].
    destruct Hal as (Hez & Hmz & _).
    assert (Hlt : Zpos mz < max_mantissa * 2 ^ (971 - ez)).
    { rewrite Hmz. replace (971 - ez) with (971 + (0 - ez)) by lia.
      rewrite Z.pow_add_r by lia.
      assert (0 < 2 ^ (0 - ez)) by (apply Z.pow_pos_nonneg; lia). nia. }
    pose proof (binary_round_aux_upper sx (Zpos mz) ez loc_Exact max_mantissa 971
                  ltac:(lia) ltac:(lia) ltac:(lia)
                  ltac:(unfold max_mantissa; lia) Hlt) as Hup.
    destruct (binary_round_aux prec emax sx (Zpos mz) ez loc_Exact); auto. }
  destruct s as [|p|p].
  - eexists. reflexivity.
  - specialize (Hround false p ltac:(lia)).
    destruct (binary_round prec emax false p 0); try contradiction; eexists; reflexivity.
  - specialize (Hround true p ltac:(lia)).
    destruct (binary_round prec emax true p 0); try contradiction; eexists; reflexivity.
Qed.

Lemma lit_1000_eq : lit 1000 = S754_finite false 8796093022208000 (-43).
Proof. vm_compute. reflexivity. Qed.

Lemma lit_5_eq : lit 5 = S754_finite false 5629499534213120 (-50).
Proof. vm_compute. reflexivity. Qed.

Lemma lit_700_eq : lit 700 = S754_finite false 6157265115545600 (-43).
Proof. vm_compute. reflexivity. Qed.

Lemma distance_calories_in_range (f : float) :
  in_range 1 max_mantissa 971 f ->
  in_range (-10) mantissa_0_762 962 (distance_km_of f)
  /\ in_range (-4) mantissa_0_762 970 (calories_of f).
Proof.
  intros Hf. unfold distance_km_of, calories_of.
  rewrite lit_1000_eq, lit_5_eq, lit_700_eq. unfold lit_0_762.
  assert (H1 : in_range 0 mantissa_0_762 971
                 (mul f (S754_finite false 6863485832112636 (-53)))).
  { apply (mul_in_range 1 max_mantissa 971); [exact Hf|..]; closed_arith. }
  assert (H2 : in_range (-10) mantissa_0_762 962
                 (div (mul f (S754_finite false 6863485832112636 (-53)))
                      (S754_finite false 8796093022208000 (-43)))).
  { apply (div_in_range 0 mantissa_0_762 971); [exact H1|..]; closed_arith. }
  split; [exact H2|].
  assert (H3 : in_range (-13) mantissa_0_762 960
                 (div (div (mul f (S754_finite false 6863485832112636 (-53)))
                           (S754_finite false 8796093022208000 (-43)))
                      (S754_finite false 5629499534213120 (-50)))).
  { apply (div_in_range (-10) mantissa_0_762 962); [exact H2|..]; closed_arith. }
  apply (mul_in_range (-13) mantissa_0_762 960); [exact H3|..]; closed_arith.
Qed.

(** *** Numbers *)

Lemma in_range_number (k b eb : Z) (x : float) : in_range k b eb x -> number x.
Proof.
  destruct x as [s|s| |s m e]; cbn [in_range number]; tauto.
Qed.

Lemma in_range_finite (k b eb : Z) (x : float) :
  in_range k b eb x -> is_finite x = true.
Proof. destruct x as [s|s| |s m e]; cbn [in_range]; try tauto; reflexivity. Qed.

Lemma in_range_not_neg_zero (k b eb : Z) (x : float) :
  in_range k b eb x -> x <> neg_zero.
Proof.
  destruct x as [s|s| |s m e]; cbn [in_range]; try tauto; try discriminate.
  intros -> H. discriminate H.
Qed.

(** Rounding a nonzero mantissa never gives a NaN. *)
Lemma binary_round_not_nan (sx : bool) (m : positive) (e : Z) :
  is_nan (binary_round prec emax sx m e) = false.
Proof.
  unfold binary_round.
  destruct (shl_align m e (fexp prec emax (Zpos (digits2_pos m) + e))) as [mz ez].
  pose proof (binary_round_aux_canonical sx (Zpos mz) ez loc_Exact ltac:(lia)) as Hcan.
  destruct (binary_round_aux prec emax sx (Zpos mz) ez loc_Exact);
    try reflexivity; contradiction.
Qed.

Lemma binary_normalize_not_nan (m e : Z) (szero : bool) :
  is_nan (binary_normalize prec emax m e szero) = false.
Proof.
  destruct m as [|p|p]; cbn [binary_normalize];
    [reflexivity|apply binary_round_not_nan..].
Qed.

Lemma binary_normalize_number (m e : Z) :
  -1074 <= e -> number (binary_normalize prec emax m e false).
Proof.
  intros He.
  assert (Hround : forall sx p, number (binary_round prec emax sx p e)).
  { intros sx p.
    assert (Hd : 1 <= Zdigits2 (Zpos p)) by (simpl; lia).
    pose proof (binary_round_in_range sx p e ltac:(lia)) as Hr.
    destruct (binary_round prec emax sx p e) as [s'|s'| |s' m' e'];
      try contradiction; [exact I|].
    destruct Hr as [_ Hr]. apply (in_range_number _ _ _ _ Hr). }
  destruct m as [|p|p]; cbn [binary_normalize]; [reflexivity|apply Hround..].
Qed.

(** Adding a finite number to a number gives a number. *)
Lemma add_number (x y : float) :
  number x -> number y -> is_finite y = true -> number (add x y).
Proof.
  intros Hx Hy Hfin. unfold add.
  destruct x as [sx|sx| |sx mx ex], y as [sy|sy| |sy my ey];
    cbn [number is_finite] in *; try contradiction; try discriminate;
    cbn [SFadd number]; try exact I; try assumption.
  - subst sx sy. reflexivity.
  - apply binary_normalize_number. lia.
Qed.

Lemma fold_left_add_number (col : list float) (acc : float) :
  number acc -> Forall (fun x => number x /\ is_finite x = true) col ->
  number (fold_left add col acc).
Proof.
  revert acc. induction col as [|x col IH]; intros acc Hacc Hcol; [exact Hacc|].
  inversion Hcol as [|? ? [Hx Hfin] Hrest]; subst.
  cbn [fold_left]. apply IH; [|exact Hrest]. apply add_number; assumption.
Qed.

Lemma total_of_number (col : list float) :
  Forall (fun x => number x /\ is_finite x = true) col -> number (total_of col).
Proof.
  destruct col as [|x col]; intros Hcol; [reflexivity|].
  inversion Hcol as [|? ? [Hx Hfin] Hrest]; subst.
  cbn [total_of]. apply fold_left_add_number; assumption.
Qed.

(** The zero test on a number. *)
Lemma number_eqb_zero (x : float) : number x -> eqb x zero = true -> x = zero.
Proof.
  destruct x as [s|s| |s m e]; cbn [number]; intros Hx Heq.
  - subst s. reflexivity.
  - destruct s; discriminate Heq.
  - contradiction.
  - destruct s; discriminate Heq.
Qed.

(** [value or 0.0] is transparent on a number. *)
Lemma or_float_number (v : float) : number v -> or_float (Some v) zero = v.
Proof.
  intros Hv. unfold or_float, truthy.
  destruct (eqb v zero) eqn:E; [|reflexivity].
  symmetry. apply number_eqb_zero; assumption.
Qed.

(** The sum of a column is never a NaN, and neither is the total taken
    from it. *)
Lemma func_sum_float_not_nan (col : list float) (v : float) :
  func_sum_float col = Some v -> is_nan v = false.
Proof.
  destruct col as [|x rest]; cbn [func_sum_float]; [discriminate|].
  destruct (is_nan (sumFinalize _)) eqn:E; [discriminate|].
  intros H. injection H as <-. exact E.
Qed.

Lemma or_float_sum_not_nan (col : list float) :
  is_nan (or_float (func_sum_float col) zero) = false.
Proof.
  destruct (func_sum_float col) as [v|] eqn:E; cbn [or_float]; [|reflexivity].
  destruct (truthy v); [|reflexivity]. apply (func_sum_float_not_nan col v E).
Qed.

(** [value or 0.0] gives the value unless it is NULL or a zero. *)
Lemma or_float_cases (value : option float) :
  (exists v, value = Some v /\ eqb v zero = false /\ or_float value zero = v)
  \/ ((value = None \/ exists v, value = Some v /\ eqb v zero = true)
      /\ or_float value zero = zero).
Proof.
  destruct value as [v|]; cbn [or_float]; unfold truthy.
  - destruct (eqb v zero) eqn:E; cbn [negb].
    + right. split; [right; exists v; split; [reflexivity|exact E]|reflexivity].
    + left. exists v. repeat split. exact E.
  - right. split; [left; reflexivity|reflexivity].
Qed.


Lemma number_not_nan (x : float) : number x -> is_nan x = false.
Proof. destruct x; cbn [number]; try reflexivity; contradiction. Qed.

(** *** Rounding: the value *)

Lemma iter_pos_nat {A : Type} (f : A -> A) (p : positive) : forall x : A,
  iter_pos f p x = Nat.iter (Pos.to_nat p) f x.
Proof.
  induction p as [p IH|p IH|]; intros x; cbn [iter_pos].
  - rewrite !IH, Pos2Nat.inj_xI, Nat.iter_succ_r.
    replace (2 * Pos.to_nat p)%nat with (Pos.to_nat p + Pos.to_nat p)%nat by lia.
    rewrite Nat.iter_add. reflexivity.
  - rewrite !IH, Pos2Nat.inj_xO.
    replace (2 * Pos.to_nat p)%nat with (Pos.to_nat p + Pos.to_nat p)%nat by lia.
    rewrite Nat.iter_add. reflexivity.
  - reflexivity.
Qed.

Lemma shr_1_spec (m : Z) (r s : bool) :
  0 <= m ->
  shr_1 (Build_shr_record m r s) = Build_shr_record (m / 2) (Z.odd m) (r || s).
Proof.
  intros Hm. destruct m as [|[p|p|]|p]; try lia; cbn [shr_1].
  - reflexivity.
  - f_equal. rewrite Pos2Z.inj_xI. apply (Z.div_unique _ _ _ 1); lia.
  - f_equal. rewrite Pos2Z.inj_xO. apply (Z.div_unique _ _ _ 0); lia.
  - reflexivity.
Qed.

(** The record after [S n] shifts: the quotient, the last bit shifted out
    and whether a bit below it was set. *)
Lemma iter_shr_1_spec (m : Z) (n : nat) :
  0 <= m ->
  Nat.iter (S n) shr_1 (Build_shr_record m false false)
  = Build_shr_record (m / 2 ^ Z.of_nat (S n)) (Z.odd (m / 2 ^ Z.of_nat n))
      (negb (m mod 2 ^ Z.of_nat n =? 0)).
Proof.
  intros Hm. induction n as [|n IH].
  - rewrite Nat.iter_succ. change (Nat.iter 0 shr_1 ?x) with x.
    rewrite shr_1_spec by exact Hm.
    change (Z.of_nat 0) with 0. change (Z.of_nat 1) with 1.
    rewrite Z.pow_0_r, Z.pow_1_r, Z.div_1_r, Z.mod_1_r. reflexivity.
  - rewrite Nat.iter_succ, IH.
    assert (Hp : 0 < 2 ^ Z.of_nat n) by (apply Z.pow_pos_nonneg; lia).
    assert (Hp1 : 2 ^ Z.of_nat (S n) = 2 ^ Z.of_nat n * 2).
    { rewrite Nat2Z.inj_succ, Z.pow_succ_r by lia. ring. }
    assert (Hp2 : 2 ^ Z.of_nat (S (S n)) = 2 ^ Z.of_nat (S n) * 2).
    { rewrite (Nat2Z.inj_succ (S n)), Z.pow_succ_r by lia. ring. }
    rewrite shr_1_spec by (apply Z.div_pos; lia).
    f_equal.
    + rewrite Hp2. rewrite Z.div_div by lia. reflexivity.
    + rewrite Hp1. rewrite Z.rem_mul_r by lia.
      rewrite <- Z.bit0_mod, Z.bit0_odd.
      destruct (Z.odd (m / 2 ^ Z.of_nat n)) eqn:Eodd; cbn [Z.b2z orb].
      * pose proof (Z.mod_pos_bound m (2 ^ Z.of_nat n) Hp).
        symmetry. apply negb_true_iff. apply Z.eqb_neq. lia.
      * rewrite Z.mul_0_r, Z.add_0_r. reflexivity.
Qed.

(** Rounding to nearest even after a shift of [n] bits is [rne]. *)
Lemma shr_rne (m e n : Z) :
  0 <= m ->
  let '(mrs, e') := shr (Build_shr_record m false false) e n in
  round_nearest_even (shr_m mrs) (loc_of_shr_record mrs) = rne m (Z.max 0 n)
  /\ e' = e + Z.max 0 n.
Proof.
  intros Hm. destruct n as [|p|p]; cbn [shr].
  - cbn [Z.max Z.compare]. unfold rne. rewrite Z.pow_0_r, Z.div_1_r, Z.mod_1_r.
    cbn. split; [reflexivity|lia].
  - rewrite iter_pos_nat.
    destruct (Pos2Nat.is_succ p) as [k Hk]. rewrite Hk.
    rewrite (iter_shr_1_spec m k Hm).
    assert (Hn : Z.max 0 (Zpos p) = Z.of_nat (S k)) by lia.
    rewrite Hn. split; [|lia].
    cbn [shr_m loc_of_shr_record].
    assert (Hp : 0 < 2 ^ Z.of_nat k) by (apply Z.pow_pos_nonneg; lia).
    assert (Hp1 : 2 ^ Z.of_nat (S k) = 2 ^ Z.of_nat k * 2).
    { rewrite Nat2Z.inj_succ, Z.pow_succ_r by lia. ring. }
    unfold rne. rewrite Hp1 at 2 3. rewrite Z.rem_mul_r by lia.
    rewrite <- Z.bit0_mod, Z.bit0_odd.
    pose proof (Z.mod_pos_bound m (2 ^ Z.of_nat k) Hp) as Hr.
    set (q := m / 2 ^ Z.of_nat (S k)).
    destruct (Z.odd (m / 2 ^ Z.of_nat k)) eqn:Eodd; cbn [Z.b2z];
      destruct (Z.eqb_spec (m mod 2 ^ Z.of_nat k) 0) as [E0|E0]; cbn [negb].
    + rewrite E0. replace (2 * (0 + 2 ^ Z.of_nat k * 1) ?= 2 ^ Z.of_nat k * 2) with Eq
        by (symmetry; apply Z.compare_eq_iff; lia).
      reflexivity.
    + replace (2 * (m mod 2 ^ Z.of_nat k + 2 ^ Z.of_nat k * 1) ?= 2 ^ Z.of_nat k * 2)
        with Gt by (symmetry; apply Z.compare_gt_iff; lia).
      reflexivity.
    + rewrite E0. replace (2 * (0 + 2 ^ Z.of_nat k * 0) ?= 2 ^ Z.of_nat k * 2) with Lt
        by (symmetry; apply Z.compare_lt_iff; lia).
      reflexivity.
    + replace (2 * (m mod 2 ^ Z.of_nat k + 2 ^ Z.of_nat k * 0) ?= 2 ^ Z.of_nat k * 2)
        with Lt by (symmetry; apply Z.compare_lt_iff; lia).
      reflexivity.
  - cbn [Z.max Z.compare]. unfold rne. rewrite Z.pow_0_r, Z.div_1_r, Z.mod_1_r.
    cbn. split; [reflexivity|lia].
Qed.

Lemma rne_bounds (m n : Z) : m / 2 ^ n <= rne m n <= m / 2 ^ n + 1.
Proof.
  unfold rne. destruct (2 * (m mod 2 ^ n) ?= 2 ^ n); [|lia|lia].
  destruct (Z.even (m / 2 ^ n)); lia.
Qed.

Lemma Zdigits2_le (m k : Z) : 0 <= m -> 0 <= k -> m < 2 ^ k -> Zdigits2 m <= k.
Proof.
  intros Hm Hk Hlt.
  destruct (Z.eq_dec m 0) as [->|Hne]; [change (Zdigits2 0) with 0; lia|].
  pose proof (Zdigits2_lower m ltac:(lia)) as Hlow.
  pose proof (Zdigits2_nonneg m) as Hd.
  assert (H : 2 ^ (Zdigits2 m - 1) < 2 ^ k) by lia.
  apply Z.pow_lt_mono_r_iff in H; lia.
Qed.

Lemma Zdigits2_pow2 (k : Z) : 0 <= k -> Zdigits2 (2 ^ k) = k + 1.
Proof.
  intros Hk.
  assert (Hpos : 0 < 2 ^ k) by (apply Z.pow_pos_nonneg; lia).
  pose proof (Zdigits2_lower (2 ^ k) Hpos) as Hlow.
  destruct (Zdigits2_upper (2 ^ k) ltac:(lia)) as [Hup|H0]; [|lia].
  pose proof (Zdigits2_nonneg (2 ^ k)) as Hd.
  assert (H1 : Zdigits2 (2 ^ k) - 1 <= k).
  { apply (Z.pow_le_mono_r_iff 2); [lia|lia|exact Hlow]. }
  assert (H2 : k < Zdigits2 (2 ^ k)).
  { apply (Z.pow_lt_mono_r_iff 2); [lia|lia|exact Hup]. }
  lia.
Qed.

(** The rounded mantissa has at most 53 bits, or is [2 ^ 53]. *)
Lemma rne_upper (m e : Z) :
  0 < m -> e <= fexp prec emax (Zdigits2 m + e) ->
  0 <= rne m (fexp prec emax (Zdigits2 m + e) - e) <= 2 ^ 53.
Proof.
  intros Hm He. rewrite fexp_eq in *. set (n := Z.max (Zdigits2 m + e - 53) (-1074) - e).
  pose proof (rne_bounds m n) as Hb.
  assert (Hn : 0 <= n /\ Zdigits2 m - 53 <= n) by (unfold n; lia).
  assert (Hp : 0 < 2 ^ n) by (apply Z.pow_pos_nonneg; lia).
  assert (Hq : 0 <= m / 2 ^ n) by (apply Z.div_pos; lia).
  split; [lia|].
  assert (m / 2 ^ n < 2 ^ 53); [|lia].
  apply Z.div_lt_upper_bound; [exact Hp|].
  destruct (Zdigits2_upper m ltac:(lia)) as [Hup|H0]; [|lia].
  rewrite <- Z.pow_add_r by lia.
  apply Z.lt_le_trans with (1 := Hup). apply Z.pow_le_mono_r; lia.
Qed.

(** Rounding a mantissa that has digits to spare. *)
Lemma binary_round_aux_round_at (sx : bool) (m e : Z) :
  0 < m -> e <= fexp prec emax (Zdigits2 m + e) ->
  binary_round_aux prec emax sx m e loc_Exact = build sx (round_at m e).
Proof.
  intros Hm He. unfold binary_round_aux, shr_fexp, round_at.
  cbn [shr_record_of_loc].
  set (f := fexp prec emax (Zdigits2 m + e)) in *.
  pose proof (shr_rne m e (f - e) ltac:(lia)) as H1.
  destruct (shr (Build_shr_record m false false) e (f - e)) as [mrs1 e1].
  destruct H1 as [-> ->].
  replace (Z.min e f) with e by lia. rewrite Z.sub_diag, Z.pow_0_r, Z.mul_1_r.
  replace (Z.max 0 (f - e)) with (f - e) by lia.
  replace (e + (f - e)) with f by lia.
  pose proof (rne_upper m e Hm He) as Hup. fold f in Hup.
  set (m2 := rne m (f - e)) in *.
  assert (Hf : -1074 <= f) by (unfold f; rewrite fexp_eq; lia).
  destruct (Z.eqb_spec m2 (2 ^ 53)) as [E|E].
  - rewrite E. rewrite (Zdigits2_pow2 53) by lia. rewrite fexp_eq.
    replace (Z.max (53 + 1 + f - 53) (-1074) - f) with 1 by lia.
    cbn [shr iter_pos shr_1 shr_m]. unfold build. cbn [fst snd].
    reflexivity.
  - assert (Hd : Zdigits2 m2 <= 53) by (apply Zdigits2_le; lia).
    pose proof (Zdigits2_nonneg m2) as Hd0.
    rewrite fexp_eq.
    assert (Hs : Z.max (Zdigits2 m2 + f - 53) (-1074) - f <= 0) by lia.
    destruct (Z.max (Zdigits2 m2 + f - 53) (-1074) - f) as [|p|p] eqn:Es; try lia;
      cbn [shr shr_m]; unfold build; cbn [fst snd];
      destruct m2 as [|p2|p2]; try reflexivity; lia.
Qed.

Lemma binary_round_round_at (sx : bool) (p : positive) (e : Z) :
  binary_round prec emax sx p e = build sx (round_at (Zpos p) e).
Proof.
  unfold binary_round.
  pose proof (shl_align_spec p e (fexp prec emax (Zpos (digits2_pos p) + e))) as Hal.
  destruct (shl_align p e (fexp prec emax (Zpos (digits2_pos p) + e))) as [mz ez].
  destruct Hal as (Hez & Hmz & Hdz).
  change (Zpos (digits2_pos p)) with (Zdigits2 (Zpos p)) in *.
  rewrite binary_round_aux_round_at; [|lia|rewrite Hdz; lia].
  unfold round_at. rewrite Hdz.
  set (f := fexp prec emax (Zdigits2 (Zpos p) + e)) in *.
  replace (Z.min ez f) with ez by lia. rewrite Z.sub_diag, Z.pow_0_r, Z.mul_1_r.
  rewrite Hmz, <- Hez. reflexivity.
Qed.

Lemma Zdigits2_unique (m d : Z) :
  2 ^ (d - 1) <= m < 2 ^ d -> 0 < d -> Zdigits2 m = d.
Proof.
  intros [Hlow Hup] Hd.
  assert (Hm : 0 < m).
  { assert (0 < 2 ^ (d - 1)) by (apply Z.pow_pos_nonneg; lia). lia. }
  pose proof (Zdigits2_lower m Hm) as Hlow'.
  destruct (Zdigits2_upper m ltac:(lia)) as [Hup'|H0]; [|lia].
  pose proof (Zdigits2_nonneg m) as Hd0.
  assert (H1 : Zdigits2 m - 1 < d).
  { apply (Z.pow_lt_mono_r_iff 2); [lia|lia|lia]. }
  assert (H2 : d - 1 < Zdigits2 m).
  { apply (Z.pow_lt_mono_r_iff 2); [lia|lia|lia]. }
  lia.
Qed.

Lemma Zdigits2_shift (m k : Z) :
  0 < m -> 0 <= k -> Zdigits2 (m * 2 ^ k) = Zdigits2 m + k.
Proof.
  intros Hm Hk.
  pose proof (Zdigits2_lower m Hm) as Hlow.
  destruct (Zdigits2_upper m ltac:(lia)) as [Hup|H0]; [|lia].
  assert (Hd : 0 < Zdigits2 m) by (destruct m; simpl in *; lia).
  assert (Hp : 0 < 2 ^ k) by (apply Z.pow_pos_nonneg; lia).
  apply Zdigits2_unique; [|lia].
  replace (Zdigits2 m + k - 1) with ((Zdigits2 m - 1) + k) by lia.
  rewrite !Z.pow_add_r by lia. split.
  - apply Z.mul_le_mono_nonneg_r; lia.
  - apply Z.mul_lt_mono_pos_r; lia.
Qed.

Lemma rne_shift (m n j : Z) :
  0 <= n -> 0 <= j -> rne (m * 2 ^ j) (n + j) = rne m n.
Proof.
  intros Hn Hj. unfold rne.
  assert (Hpn : 0 < 2 ^ n) by (apply Z.pow_pos_nonneg; lia).
  assert (Hpj : 0 < 2 ^ j) by (apply Z.pow_pos_nonneg; lia).
  rewrite Z.pow_add_r by lia.
  rewrite Z.div_mul_cancel_r by lia.
  rewrite Z.mul_mod_distr_r by lia.
  replace (2 * (m mod 2 ^ n * 2 ^ j)) with (2 * (m mod 2 ^ n) * 2 ^ j) by ring.
  rewrite <- Zmult_compare_compat_r by lia. reflexivity.
Qed.

(** The rounding depends on the value only. *)
Lemma round_at_shift (m e k : Z) :
  0 < m -> 0 <= k -> round_at (m * 2 ^ k) (e - k) = round_at m e.
Proof.
  intros Hm Hk. unfold round_at.
  rewrite Zdigits2_shift by lia.
  replace (Zdigits2 m + k + (e - k)) with (Zdigits2 m + e) by lia.
  set (f := fexp prec emax (Zdigits2 m + e)).
  assert (Hmin : Z.min (e - k) f <= Z.min e f) by lia.
  set (e0 := Z.min e f) in *. set (e0' := Z.min (e - k) f) in *.
  assert (He0 : e0 <= e /\ e0 <= f /\ e0' <= e - k) by (unfold e0, e0'; lia).
  replace (m * 2 ^ k * 2 ^ (e - k - e0')) with (m * 2 ^ (e - e0) * 2 ^ (e0 - e0')).
  - replace (f - e0') with ((f - e0) + (e0 - e0')) by lia.
    rewrite rne_shift by lia. reflexivity.
  - rewrite <- !Z.mul_assoc. f_equal. rewrite <- !Z.pow_add_r by lia. f_equal. lia.
Qed.

Lemma binary_normalize_shift (z e k : Z) (szero : bool) :
  0 <= k ->
  binary_normalize prec emax (z * 2 ^ k) (e - k) szero
  = binary_normalize prec emax z e szero.
Proof.
  intros Hk. assert (Hp : 0 < 2 ^ k) by (apply Z.pow_pos_nonneg; lia).
  destruct z as [|p|p].
  - reflexivity.
  - destruct (Zpos p * 2 ^ k) as [|q|q] eqn:E; try lia.
    cbn [binary_normalize]. rewrite !binary_round_round_at, <- E.
    rewrite round_at_shift by lia. reflexivity.
  - destruct (Zneg p * 2 ^ k) as [|q|q] eqn:E; try lia.
    cbn [binary_normalize]. rewrite !binary_round_round_at.
    replace (Zpos q) with (Zpos p * 2 ^ k) by lia.
    rewrite round_at_shift by lia. reflexivity.
Qed.

(** Addition and subtraction round the exact sum and difference. *)
Lemma aligned_scaled (s : bool) (m : positive) (e ez : Z) :
  -1074 <= ez <= e ->
  cond_Zopp s (Zpos (fst (shl_align m e ez))) * 2 ^ (ez + 1074)
  = scaled (S754_finite s m e).
Proof.
  intros He. pose proof (shl_align_spec m e ez) as H.
  destruct (shl_align m e ez) as [m' e']. destruct H as (He' & Hm' & _).
  cbn [fst scaled]. rewrite Hm'. replace e' with ez by lia.
  replace (e + 1074) with ((e - ez) + (ez + 1074)) by lia.
  rewrite (Z.pow_add_r 2 (e - ez) (ez + 1074)) by lia.
  destruct s; cbn [cond_Zopp]; ring.
Qed.

Lemma add_scaled (sx : bool) (mx : positive) (ex : Z) (sy : bool) (my : positive) (ey : Z) :
  -1074 <= ex -> -1074 <= ey ->
  add (S754_finite sx mx ex) (S754_finite sy my ey)
  = binary_normalize prec emax
      (scaled (S754_finite sx mx ex) + scaled (S754_finite sy my ey)) (-1074) false.
Proof.
  intros Hex Hey. unfold add. cbn [SFadd].
  set (ez := Z.min ex ey). assert (Hez : -1074 <= ez /\ ez <= ex /\ ez <= ey) by (unfold ez; lia).
  rewrite <- (aligned_scaled sx mx ex ez), <- (aligned_scaled sy my ey ez) by lia.
  rewrite <- Z.mul_add_distr_r.
  match goal with
  | |- _ = binary_normalize _ _ (?z * _) _ _ =>
      pose proof (binary_normalize_shift z ez (ez + 1074) false ltac:(lia)) as Hshift
  end.
  replace (ez - (ez + 1074)) with (-1074) in Hshift by lia.
  rewrite Hshift. reflexivity.
Qed.

Lemma sub_scaled (sx : bool) (mx : positive) (ex : Z) (sy : bool) (my : positive) (ey : Z) :
  -1074 <= ex -> -1074 <= ey ->
  sub (S754_finite sx mx ex) (S754_finite sy my ey)
  = binary_normalize prec emax
      (scaled (S754_finite sx mx ex) - scaled (S754_finite sy my ey)) (-1074) false.
Proof.
  intros Hex Hey. unfold sub. cbn [SFsub].
  set (ez := Z.min ex ey). assert (Hez : -1074 <= ez /\ ez <= ex /\ ez <= ey) by (unfold ez; lia).
  rewrite <- (aligned_scaled sx mx ex ez), <- (aligned_scaled sy my ey ez) by lia.
  rewrite <- Z.mul_sub_distr_r.
  match goal with
  | |- _ = binary_normalize _ _ (?z * _) _ _ =>
      pose proof (binary_normalize_shift z ez (ez + 1074) false ltac:(lia)) as Hshift
  end.
  replace (ez - (ez + 1074)) with (-1074) in Hshift by lia.
  rewrite Hshift. reflexivity.
Qed.

(** *** Rounding an integer multiple of [2 ^ -1074] *)

Lemma rne_exact (m n : Z) : 0 <= n -> m mod 2 ^ n = 0 -> rne m n * 2 ^ n = m.
Proof.
  intros Hn Hr. assert (Hp : 0 < 2 ^ n) by (apply Z.pow_pos_nonneg; lia).
  unfold rne. rewrite Hr. replace (2 * 0 ?= 2 ^ n) with Lt
    by (symmetry; apply Z.compare_lt_iff; lia).
  pose proof (Z.div_mod m (2 ^ n) ltac:(lia)). lia.
Qed.

(** The rounded value is within half a unit of the value. *)
Lemma rne_error (m n : Z) :
  0 <= n -> 2 * Z.abs (rne m n * 2 ^ n - m) <= 2 ^ n.
Proof.
  intros Hn. assert (Hp : 0 < 2 ^ n) by (apply Z.pow_pos_nonneg; lia).
  pose proof (Z.div_mod m (2 ^ n) ltac:(lia)) as Hdm.
  pose proof (Z.mod_pos_bound m (2 ^ n) Hp) as Hr.
  unfold rne. set (q := m / 2 ^ n) in *. set (r := m mod 2 ^ n) in *.
  destruct (Z.compare_spec (2 * r) (2 ^ n)) as [E|E|E].
  - destruct (Z.even q); lia.
  - lia.
  - lia.
Qed.

(** No multiple of [2 ^ n] is nearer. *)
Lemma rne_nearest (m n k : Z) :
  0 <= n -> Z.abs (rne m n * 2 ^ n - m) <= Z.abs (k * 2 ^ n - m).
Proof.
  intros Hn. assert (Hp : 0 < 2 ^ n) by (apply Z.pow_pos_nonneg; lia).
  pose proof (Z.div_mod m (2 ^ n) ltac:(lia)) as Hdm.
  pose proof (Z.mod_pos_bound m (2 ^ n) Hp) as Hr.
  unfold rne. set (q := m / 2 ^ n) in *. set (r := m mod 2 ^ n) in *.
  assert (Hk : k <= q \/ q + 1 <= k) by lia.
  assert (Hlow : k <= q -> k * 2 ^ n <= q * 2 ^ n).
  { intros H. apply Z.mul_le_mono_nonneg_r; lia. }
  assert (Hhigh : q + 1 <= k -> (q + 1) * 2 ^ n <= k * 2 ^ n).
  { intros H. apply Z.mul_le_mono_nonneg_r; lia. }
  destruct (Z.compare_spec (2 * r) (2 ^ n)) as [E|E|E].
  - destruct (Z.even q); destruct Hk as [Hk|Hk];
      [specialize (Hlow Hk)|specialize (Hhigh Hk)|specialize (Hlow Hk)|specialize (Hhigh Hk)];
      lia.
  - destruct Hk as [Hk|Hk]; [specialize (Hlow Hk)|specialize (Hhigh Hk)]; lia.
  - destruct Hk as [Hk|Hk]; [specialize (Hlow Hk)|specialize (Hhigh Hk)]; lia.
Qed.

Lemma rnd_opp (s : Z) : rnd (- s) = - rnd s.
Proof.
  unfold rnd. rewrite Z.sgn_opp, Z.abs_opp.
  replace (Zdigits2 (- s)) with (Zdigits2 s) by (destruct s; reflexivity). ring.
Qed.

Lemma rnd_0 : rnd 0 = 0.
Proof. reflexivity. Qed.

(** An integer of at most 53 bits followed by zeros is its own rounding. *)
Lemma rnd_fits (s m j : Z) :
  s = m * 2 ^ j -> Z.abs m < 2 ^ 53 -> 0 <= j -> rnd s = s.
Proof.
  intros Hs Hm Hj.
  assert (Hgen : forall s m, 0 < s -> s = m * 2 ^ j -> m < 2 ^ 53 -> rnd s = s).
  { clear s m Hs Hm. intros s m Hpos Hs Hm. unfold rnd.
    assert (Hpj : 0 < 2 ^ j) by (apply Z.pow_pos_nonneg; lia).
    assert (Hm0 : 0 < m) by nia.
    rewrite Z.sgn_pos, Z.abs_eq, Z.mul_1_l by lia.
    set (n := Z.max 0 (Zdigits2 s - 53)).
    assert (Hn : 0 <= n <= j).
    { unfold n. rewrite Hs, Zdigits2_shift by lia.
      pose proof (Zdigits2_le m 53 ltac:(lia) ltac:(lia) Hm). lia. }
    apply rne_exact; [lia|].
    rewrite Hs. replace j with ((j - n) + n) by lia. rewrite Z.pow_add_r by lia.
    rewrite Z.mul_assoc. apply Z.mod_mul. apply Z.pow_nonzero; lia. }
  destruct (Z.lt_trichotomy s 0) as [Hneg|[->|Hpos]].
  - assert (H : rnd (- s) = - s).
    { apply (Hgen (- s) (- m)); [lia|rewrite Hs; ring|lia]. }
    rewrite rnd_opp in H. lia.
  - reflexivity.
  - apply (Hgen s (Z.abs m)); [lia| |lia].
    assert (Hpj : 0 < 2 ^ j) by (apply Z.pow_pos_nonneg; lia).
    assert (0 < m) by nia. rewrite Z.abs_eq by lia. exact Hs.
Qed.

(** Rounding a nonzero integer that is not too large gives a finite float,
    whose value is [rnd]. *)
Lemma round_scaled_finite (s : Z) :
  s <> 0 -> Zdigits2 s <= 2097 ->
  exists m e,
    binary_normalize prec emax s (-1074) false = S754_finite (s <? 0) m e
    /\ -1074 <= e <= 971
    /\ scaled (S754_finite (s <? 0) m e) = rnd s.
Proof.
  intros Hs Hd.
  assert (Hgen : forall (sx : bool) (p : positive),
            Zdigits2 (Zpos p) <= 2097 ->
            exists m e,
              binary_round prec emax sx p (-1074) = S754_finite sx m e
              /\ -1074 <= e <= 971
              /\ Zpos m * 2 ^ (e + 1074)
                 = rne (Zpos p) (Z.max 0 (Zdigits2 (Zpos p) - 53))
                   * 2 ^ Z.max 0 (Zdigits2 (Zpos p) - 53)).
  { intros sx p Hdp. rewrite binary_round_round_at. unfold round_at.
    rewrite fexp_eq.
    set (d := Zdigits2 (Zpos p)) in *.
    assert (Hd1 : 1 <= d) by (unfold d; simpl; lia).
    set (n := Z.max 0 (d - 53)).
    replace (Z.max (d + -1074 - 53) (-1074)) with (n - 1074) by (unfold n; lia).
    replace (Z.min (-1074) (n - 1074)) with (-1074) by (unfold n; lia).
    rewrite Z.sub_diag, Z.pow_0_r, Z.mul_1_r.
    replace (n - 1074 - -1074) with n by lia.
    assert (Hn : 0 <= n <= d - 1 /\ n <= 2044) by (unfold n; lia).
    assert (Hp : 0 < 2 ^ n) by (apply Z.pow_pos_nonneg; lia).
    pose proof (rne_bounds (Zpos p) n) as Hb.
    assert (Hq : 1 <= Zpos p / 2 ^ n).
    { apply Z.div_le_lower_bound; [lia|].
      pose proof (Zdigits2_lower (Zpos p) ltac:(lia)) as Hlow. fold d in Hlow.
      apply Z.le_trans with (2 := Hlow). rewrite Z.mul_1_r.
      apply Z.pow_le_mono_r; lia. }
    destruct (Z.eqb_spec (rne (Zpos p) n) (2 ^ 53)) as [E|E].
    - unfold build. cbn [fst snd].
      change (2 ^ 52) with (Zpos (2 ^ 52)%positive).
      replace (n - 1074 + 1 <=? 971) with true by (symmetry; apply Z.leb_le; lia).
      exists (2 ^ 52)%positive, (n - 1074 + 1). split; [reflexivity|]. split; [lia|].
      rewrite E. replace (n - 1074 + 1 + 1074) with (1 + n) by lia.
      rewrite Z.pow_add_r, Z.mul_assoc by lia. f_equal.
    - unfold build. cbn [fst snd].
      destruct (rne (Zpos p) n) as [|m|m] eqn:Em; try lia.
      replace (n - 1074 <=? 971) with true by (symmetry; apply Z.leb_le; lia).
      exists m, (n - 1074). split; [reflexivity|]. split; [lia|].
      replace (n - 1074 + 1074) with n by lia. reflexivity. }
  destruct s as [|p|p]; [contradiction| |].
  - destruct (Hgen false p Hd) as (m & e & H1 & H2 & H3).
    exists m, e. cbn [binary_normalize Z.ltb Z.compare]. split; [exact H1|].
    split; [exact H2|]. cbn [scaled cond_Zopp]. rewrite H3. unfold rnd.
    rewrite Z.sgn_pos, Z.abs_eq by lia. cbn [Zdigits2]. ring.
  - destruct (Hgen true p Hd) as (m & e & H1 & H2 & H3).
    exists m, e. cbn [binary_normalize Z.ltb Z.compare]. split; [exact H1|].
    split; [exact H2|]. cbn [scaled cond_Zopp]. rewrite H3. unfold rnd.
    rewrite Z.sgn_neg by lia. cbn [Zdigits2 Z.abs]. ring.
Qed.

(** *** The error of a rounded sum *)

Lemma abs_mul_le_cancel (m c p : Z) :
  0 < p -> Z.abs (m * p) <= c * p -> Z.abs m <= c.
Proof.
  intros Hp H. rewrite Z.abs_mul, (Z.abs_eq p) in H by lia.
  apply (Z.mul_le_mono_pos_r _ _ p Hp). exact H.
Qed.

Lemma abs_mul_lt_cancel (m c p : Z) :
  0 < p -> Z.abs (m * p) < c * p -> Z.abs m < c.
Proof.
  intros Hp H. rewrite Z.abs_mul, (Z.abs_eq p) in H by lia.
  apply (Z.mul_lt_mono_pos_r p _ _ Hp). exact H.
Qed.

(** The shape of the rounding of a positive integer. *)
Lemma rnd_pos (s : Z) :
  0 < s ->
  let n := Z.max 0 (Zdigits2 s - 53) in
  exists q,
    rnd s = q * 2 ^ n
    /\ 2 * Z.abs (q * 2 ^ n - s) <= 2 ^ n
    /\ (forall k, Z.abs (q * 2 ^ n - s) <= Z.abs (k * 2 ^ n - s)).
Proof.
  intros Hs n. exists (rne s n). unfold rnd. fold n.
  rewrite Z.sgn_pos, Z.abs_eq, Z.mul_1_l by lia.
  split; [reflexivity|]. split; [apply rne_error; unfold n; lia|].
  intros k. apply rne_nearest. unfold n. lia.
Qed.

(** The sum of two 53-bit numbers, rounded: what is lost is a 53-bit number,
    and so is the difference between the greater operand and the rounded
    sum. *)
Lemma fast_two_sum_pos (mx a my b : Z) :
  0 <= a -> 0 <= b -> 2 ^ 52 <= mx < 2 ^ 53 -> 2 ^ 52 <= Z.abs my < 2 ^ 53 ->
  Z.abs (my * 2 ^ b) <= mx * 2 ^ a ->
  let x := mx * 2 ^ a in
  let y := my * 2 ^ b in
  rnd (x - rnd (x + y)) = x - rnd (x + y)
  /\ rnd (x - rnd (x + y) + y) = x - rnd (x + y) + y.
Proof.
  intros Ha Hb Hmx Hmy Hle x y.
  assert (Hpa : 0 < 2 ^ a) by (apply Z.pow_pos_nonneg; lia).
  assert (Hpb : 0 < 2 ^ b) by (apply Z.pow_pos_nonneg; lia).
  assert (Hxup : x <= (2 ^ 53 - 1) * 2 ^ a).
  { unfold x. apply Z.mul_le_mono_nonneg_r; lia. }
  assert (Hxlow : 2 ^ 52 * 2 ^ a <= x).
  { unfold x. apply Z.mul_le_mono_nonneg_r; lia. }
  assert (Hx : 0 < x) by lia.
  assert (Hyabs : Z.abs y = Z.abs my * 2 ^ b).
  { unfold y. rewrite Z.abs_mul, (Z.abs_eq (2 ^ b)) by lia. reflexivity. }
  assert (Hyup : Z.abs y <= (2 ^ 53 - 1) * 2 ^ b).
  { rewrite Hyabs. apply Z.mul_le_mono_nonneg_r; lia. }
  assert (Hylow : 2 ^ 52 * 2 ^ b <= Z.abs y).
  { rewrite Hyabs. apply Z.mul_le_mono_nonneg_r; lia. }
  assert (Hyx : Z.abs y <= x) by exact Hle.
  (* the exponents *)
  assert (Hba : b <= a).
  { assert (H : 2 ^ (52 + b) < 2 ^ (53 + a)).
    { rewrite !Z.pow_add_r by lia. lia. }
    apply Z.pow_lt_mono_r_iff in H; lia. }
  assert (Hab : 2 ^ a = 2 ^ (a - b) * 2 ^ b).
  { rewrite <- Z.pow_add_r by lia. f_equal. lia. }
  assert (Hpab : 0 < 2 ^ (a - b)) by (apply Z.pow_pos_nonneg; lia).
  destruct (Z.eq_dec (x + y) 0) as [Hs0|Hs0].
  { rewrite Hs0, rnd_0, Z.sub_0_r.
    split; [apply (rnd_fits x mx a); [reflexivity|lia|lia]|].
    rewrite Hs0. reflexivity. }
  assert (Hs : 0 < x + y) by lia.
  destruct (rnd_pos (x + y) Hs) as (q & Ht & Herr & Hnear).
  set (d := Zdigits2 (x + y)) in *. set (n := Z.max 0 (d - 53)) in *.
  set (t := rnd (x + y)) in *.
  assert (Hd : d <= 54 + a).
  { apply Zdigits2_le; [lia|lia|].
    replace (54 + a) with (1 + (53 + a)) by lia.
    rewrite (Z.pow_add_r 2 1 (53 + a)), (Z.pow_add_r 2 53 a) by lia.
    lia. }
  assert (Hn : 0 <= n <= a + 1) by (unfold n; lia).
  assert (Hpn : 0 < 2 ^ n) by (apply Z.pow_pos_nonneg; lia).
  assert (Hsup : x + y < 2 ^ (53 + n)).
  { destruct (Zdigits2_upper (x + y) ltac:(lia)) as [Hup|H0]; [|lia]. fold d in Hup.
    apply Z.lt_le_trans with (1 := Hup). apply Z.pow_le_mono_r; unfold n; lia. }
  destruct (Z_le_gt_dec n b) as [Hnb|Hnb].
  - (* the sum is a float *)
    assert (Hbn : 2 ^ b = 2 ^ (b - n) * 2 ^ n).
    { rewrite <- Z.pow_add_r by lia. f_equal. lia. }
    assert (Hexact : t = x + y).
    { unfold t.
      apply (rnd_fits (x + y) ((mx * 2 ^ (a - b) + my) * 2 ^ (b - n)) n); [| |lia].
      - unfold x, y. rewrite Hab, Hbn. ring.
      - rewrite (Z.pow_add_r 2 53 n) in Hsup by lia.
        assert (H : (mx * 2 ^ (a - b) + my) * 2 ^ (b - n) * 2 ^ n = x + y).
        { unfold x, y. rewrite Hab, Hbn. ring. }
        rewrite <- H in Hsup, Hs.
        apply (proj1 (Z.mul_pos_cancel_r _ _ Hpn)) in Hs.
        rewrite Z.abs_eq by lia.
        apply (Z.mul_lt_mono_pos_r (2 ^ n)); lia. }
    rewrite Hexact. split.
    + apply (rnd_fits _ (- my) b); [unfold y; ring|rewrite Z.abs_opp; lia|lia].
    + replace (x - (x + y) + y) with 0 by ring. reflexivity.
  - (* the sum is rounded at a coarser grid than [y] *)
    assert (Hnb' : 2 ^ n = 2 ^ (n - b) * 2 ^ b).
    { rewrite <- Z.pow_add_r by lia. f_equal. lia. }
    assert (Hpnb : 2 <= 2 ^ (n - b)).
    { change 2 with (2 ^ 1) at 1. apply Z.pow_le_mono_r; lia. }
    (* what is lost, in units of [2 ^ b] *)
    assert (Hdelta : x + y - t = (mx * 2 ^ (a - b) + my - q * 2 ^ (n - b)) * 2 ^ b).
    { rewrite Ht. unfold x, y. rewrite Hab, Hnb'. ring. }
    destruct (Z_le_gt_dec n a) as [Hna|Hna].
    + (* [x] is on the grid of the sum *)
      assert (Han : 2 ^ a = 2 ^ (a - n) * 2 ^ n).
      { rewrite <- Z.pow_add_r by lia. f_equal. lia. }
      pose proof (Hnear (mx * 2 ^ (a - n))) as Hnx.
      replace (mx * 2 ^ (a - n) * 2 ^ n) with x in Hnx by (unfold x; rewrite Han; ring).
      rewrite <- Ht in Hnx.
      replace (x - (x + y)) with (- y) in Hnx by ring. rewrite Z.abs_opp in Hnx.
      split.
      * apply (rnd_fits _ (mx * 2 ^ (a - n) - q) n); [| |lia].
        -- rewrite Ht. unfold x. rewrite Han. ring.
        -- apply (abs_mul_lt_cancel _ _ (2 ^ n) Hpn).
           replace ((mx * 2 ^ (a - n) - q) * 2 ^ n) with (x - t)
             by (rewrite Ht; unfold x; rewrite Han; ring).
           assert (H2 : Z.abs (x - t) <= 2 * Z.abs y) by lia.
           assert (H3 : 2 ^ 53 * (2 * 2 ^ b) <= 2 ^ 53 * 2 ^ n).
           { apply Z.mul_le_mono_nonneg_l; [lia|]. rewrite Hnb'.
             apply Z.mul_le_mono_nonneg_r; lia. }
           lia.
      * replace (x - t + y) with (x + y - t) by ring.
        apply (rnd_fits _ _ b Hdelta); [|lia].
        apply Z.le_lt_trans with (Z.abs my); [|lia].
        apply (abs_mul_le_cancel _ _ (2 ^ b) Hpb).
        rewrite <- Hdelta, <- Hyabs.
        replace (x + y - t) with (- (t - (x + y))) by ring. rewrite Z.abs_opp. exact Hnx.
    + (* the sum has one more bit than [x] *)
      assert (Hna' : n = a + 1) by lia.
      assert (Hd' : d = 54 + a) by (unfold n in Hna'; lia).
      assert (Hslow : 2 ^ (53 + a) <= x + y).
      { pose proof (Zdigits2_lower (x + y) Hs) as Hlow. fold d in Hlow.
        rewrite Hd' in Hlow. replace (54 + a - 1) with (53 + a) in Hlow by lia. exact Hlow. }
      rewrite (Z.pow_add_r 2 53 a) in Hslow by lia.
      assert (Hya : 2 ^ a <= y) by lia.
      assert (Hmypos : 0 < my).
      { apply (proj1 (Z.mul_pos_cancel_r my _ Hpb)). fold y. lia. }
      assert (Hyeq : Z.abs y = y) by (apply Z.abs_eq; lia).
      assert (Hn2 : 2 ^ n = 2 * 2 ^ a).
      { rewrite Hna', Z.pow_add_r, Z.pow_1_r by lia. ring. }
      assert (Herr' : Z.abs (t - (x + y)) <= 2 ^ a) by (rewrite Ht; lia).
      split.
      * assert (Hform : x - t = (mx - 2 * q) * 2 ^ a).
        { rewrite Ht, Hn2. unfold x. ring. }
        assert (Hrange : - 2 ^ 53 <= mx - 2 * q <= 0).
        { assert (H1 : - (2 ^ 53 * 2 ^ a) <= x - t <= 0) by lia.
          rewrite Hform in H1. split.
          - apply (Z.mul_le_mono_pos_r _ _ (2 ^ a) Hpa). lia.
          - apply (Z.mul_le_mono_pos_r _ _ (2 ^ a) Hpa). lia. }
        destruct (Z.eq_dec (mx - 2 * q) (- 2 ^ 53)) as [Heq|Hne].
        -- apply (rnd_fits _ (- 2 ^ 52) (a + 1)); [|reflexivity|lia].
           rewrite Hform, Heq, Z.pow_add_r, Z.pow_1_r by lia.
           change (2 ^ 53) with (2 ^ 52 * 2). ring.
        -- apply (rnd_fits _ _ a Hform); lia.
      * replace (x - t + y) with (x + y - t) by ring.
        apply (rnd_fits _ _ b Hdelta); [|lia].
        assert (Hk : Z.abs (mx * 2 ^ (a - b) + my - q * 2 ^ (n - b)) <= 2 ^ (a - b)).
        { apply (abs_mul_le_cancel _ _ (2 ^ b) Hpb).
          rewrite <- Hdelta, <- Hab.
          replace (x + y - t) with (- (t - (x + y))) by ring. rewrite Z.abs_opp.
          exact Herr'. }
        assert (Hab52 : 2 ^ (a - b) < 2 ^ 53).
        { apply Z.le_lt_trans with my; [|lia].
          apply (Z.mul_le_mono_pos_r _ _ (2 ^ b) Hpb). rewrite <- Hab. exact Hya. }
        lia.
Qed.

Lemma fast_two_sum (x y : Z) :
  normal x -> normal y -> Z.abs y <= Z.abs x ->
  rnd (x - rnd (x + y)) = x - rnd (x + y)
  /\ rnd (x - rnd (x + y) + y) = x - rnd (x + y) + y.
Proof.
  intros (mx & a & Ha & Hmx & ->) (my & b & Hb & Hmy & ->) Hle.
  assert (Hpa : 0 < 2 ^ a) by (apply Z.pow_pos_nonneg; lia).
  destruct (Z_lt_le_dec mx 0) as [Hneg|Hpos].
  - destruct (fast_two_sum_pos (- mx) a (- my) b Ha Hb) as [H1 H2];
      [lia|rewrite Z.abs_opp; lia| |].
    + rewrite !Z.mul_opp_l, Z.abs_opp.
      rewrite (Z.abs_neq (mx * 2 ^ a)) in Hle by (apply Z.mul_nonpos_nonneg; lia). lia.
    + cbv zeta in H1, H2.
      replace (- mx * 2 ^ a + - my * 2 ^ b) with (- (mx * 2 ^ a + my * 2 ^ b)) in H1, H2
        by ring.
      rewrite rnd_opp in H1, H2.
      replace (- mx * 2 ^ a - - rnd (mx * 2 ^ a + my * 2 ^ b))
        with (- (mx * 2 ^ a - rnd (mx * 2 ^ a + my * 2 ^ b))) in H1, H2 by ring.
      rewrite rnd_opp in H1.
      replace (- (mx * 2 ^ a - rnd (mx * 2 ^ a + my * 2 ^ b)) + - my * 2 ^ b)
        with (- (mx * 2 ^ a - rnd (mx * 2 ^ a + my * 2 ^ b) + my * 2 ^ b)) in H2 by ring.
      rewrite rnd_opp in H2. split; lia.
  - apply (fast_two_sum_pos mx a my b Ha Hb); [lia|exact Hmy|].
    rewrite (Z.abs_eq (mx * 2 ^ a)) in Hle by (apply Z.mul_nonneg_nonneg; lia).
    exact Hle.
Qed.

(** The rounded value is at most twice the value. *)
Lemma rnd_abs_le (s : Z) : Z.abs (rnd s) <= 2 * Z.abs s.
Proof.
  assert (Hpos : forall s, 0 < s -> Z.abs (rnd s) <= 2 * s).
  { clear s. intros s Hs. destruct (rnd_pos s Hs) as (q & Hq & Herr & _).
    set (n := Z.max 0 (Zdigits2 s - 53)) in *.
    assert (Hn : 2 ^ n <= s).
    { pose proof (Zdigits2_lower s Hs) as Hlow.
      assert (Hd : 1 <= Zdigits2 s) by (destruct s; simpl in *; lia).
      apply Z.le_trans with (2 := Hlow). apply Z.pow_le_mono_r; unfold n; lia. }
    rewrite Hq. lia. }
  destruct (Z.lt_trichotomy s 0) as [Hneg|[->|Hp]].
  - specialize (Hpos (- s) ltac:(lia)). rewrite rnd_opp, Z.abs_opp in Hpos. lia.
  - rewrite rnd_0. lia.
  - specialize (Hpos s Hp). lia.
Qed.

(** *** Floats of moderate size *)

Lemma moderate_scaled (s : bool) (m : positive) (e : Z) :
  moderate (S754_finite s m e) ->
  normal (scaled (S754_finite s m e))
  /\ 0 < Z.abs (scaled (S754_finite s m e)) < 2 ^ 2027
  /\ -1074 <= e.
Proof.
  cbn [moderate scaled]. intros [Hd He].
  pose proof (Zdigits2_lower (Zpos m) ltac:(lia)) as Hlow.
  destruct (Zdigits2_upper (Zpos m) ltac:(lia)) as [Hup|H0]; [|lia].
  rewrite Hd in Hlow, Hup. change (2 ^ (53 - 1)) with (2 ^ 52) in Hlow.
  assert (Hp : 0 < 2 ^ (e + 1074)) by (apply Z.pow_pos_nonneg; lia).
  assert (Habs : Z.abs (cond_Zopp s (Zpos m * 2 ^ (e + 1074))) = Zpos m * 2 ^ (e + 1074)).
  { destruct s; cbn [cond_Zopp]; [rewrite Z.abs_opp|]; apply Z.abs_eq; lia. }
  split; [|split; [|lia]].
  - exists (cond_Zopp s (Zpos m)), (e + 1074). split; [lia|]. split.
    + destruct s; cbn [cond_Zopp]; [rewrite Z.abs_opp|]; rewrite Z.abs_eq; lia.
    + destruct s; cbn [cond_Zopp]; ring.
  - rewrite Habs. split; [lia|].
    apply Z.lt_le_trans with (2 ^ 53 * 2 ^ (e + 1074)).
    + apply Z.mul_lt_mono_pos_r; lia.
    + rewrite <- Z.pow_add_r by lia. apply Z.pow_le_mono_r; lia.
Qed.

Lemma Zdigits2_abs_le (s k : Z) : 0 <= k -> Z.abs s < 2 ^ k -> Zdigits2 s <= k.
Proof.
  intros Hk H. replace (Zdigits2 s) with (Zdigits2 (Z.abs s)) by (destruct s; reflexivity).
  apply Zdigits2_le; lia.
Qed.

(** The comparison of the magnitudes of two normal floats. *)
Lemma ltb_abs_scaled (sx : bool) (mx : positive) (ex : Z) (sy : bool) (my : positive)
    (ey : Z) :
  moderate (S754_finite sx mx ex) -> moderate (S754_finite sy my ey) ->
  if ltb (abs (S754_finite sy my ey)) (abs (S754_finite sx mx ex))
  then Z.abs (scaled (S754_finite sy my ey)) <= Z.abs (scaled (S754_finite sx mx ex))
  else Z.abs (scaled (S754_finite sx mx ex)) <= Z.abs (scaled (S754_finite sy my ey)).
Proof.
  cbn [moderate]. intros [Hdx Hex] [Hdy Hey].
  assert (Hb : forall m, Zdigits2 (Zpos m) = 53 -> 2 ^ 52 <= Zpos m < 2 ^ 53).
  { intros m Hd. pose proof (Zdigits2_lower (Zpos m) ltac:(lia)) as Hlow.
    destruct (Zdigits2_upper (Zpos m) ltac:(lia)) as [Hup|H0]; [|lia].
    rewrite Hd in Hlow, Hup. change (2 ^ (53 - 1)) with (2 ^ 52) in Hlow. lia. }
  pose proof (Hb mx Hdx) as Hmx. pose proof (Hb my Hdy) as Hmy.
  assert (Habs : forall s m e, -900 <= e ->
            Z.abs (scaled (S754_finite s m e)) = Zpos m * 2 ^ (e + 1074)).
  { intros s m e He. cbn [scaled].
    assert (0 < 2 ^ (e + 1074)) by (apply Z.pow_pos_nonneg; lia).
    destruct s; cbn [cond_Zopp]; [rewrite Z.abs_opp|]; apply Z.abs_eq; lia. }
  rewrite !Habs by lia.
  assert (Hlt : forall m1 e1 m2 e2, -900 <= e1 -> e1 < e2 ->
            2 ^ 52 <= m1 < 2 ^ 53 -> 2 ^ 52 <= m2 < 2 ^ 53 ->
            m1 * 2 ^ (e1 + 1074) <= m2 * 2 ^ (e2 + 1074)).
  { intros m1 e1 m2 e2 He1 He12 Hm1 Hm2.
    assert (Hp1 : 0 < 2 ^ (e1 + 1074)) by (apply Z.pow_pos_nonneg; lia).
    assert (Hp2 : 2 * 2 ^ (e1 + 1074) <= 2 ^ (e2 + 1074)).
    { rewrite <- Z.pow_succ_r by lia. apply Z.pow_le_mono_r; lia. }
    apply Z.le_trans with (2 ^ 53 * 2 ^ (e1 + 1074)).
    - apply Z.mul_le_mono_nonneg_r; lia.
    - apply Z.le_trans with (2 ^ 52 * 2 ^ (e2 + 1074)).
      + change (2 ^ 53) with (2 ^ 52 * 2). rewrite <- Z.mul_assoc.
        apply Z.mul_le_mono_nonneg_l; lia.
      + apply Z.mul_le_mono_nonneg_r; lia. }
  unfold ltb, abs, SFabs, SFltb, SFcompare.
  destruct (Z.compare_spec ey ex) as [E|E|E].
  - subst ey.
    assert (Hp : 0 < 2 ^ (ex + 1074)) by (apply Z.pow_pos_nonneg; lia).
    change (Pos.compare_cont Eq my mx) with (Pos.compare my mx).
    destruct (Pos.compare_spec my mx) as [E|E|E].
    + subst my. lia.
    + apply Z.mul_le_mono_nonneg_r; lia.
    + apply Z.mul_le_mono_nonneg_r; lia.
  - apply Hlt; lia.
  - apply Hlt; lia.
Qed.

Lemma digits_in_range (s : Z) : Z.abs s < 8 * 2 ^ 2027 -> Zdigits2 s <= 2097.
Proof.
  intros H. apply Z.le_trans with 2030; [|lia].
  apply Zdigits2_abs_le; [lia|]. change (2 ^ 2030) with (8 * 2 ^ 2027). exact H.
Qed.

Lemma add_comm_finite (sx : bool) (mx : positive) (ex : Z) (sy : bool) (my : positive)
    (ey : Z) :
  -1074 <= ex -> -1074 <= ey ->
  add (S754_finite sx mx ex) (S754_finite sy my ey)
  = add (S754_finite sy my ey) (S754_finite sx mx ex).
Proof.
  intros Hex Hey. rewrite !add_scaled by lia. f_equal. apply Z.add_comm.
Qed.

Lemma sub_diag_finite (s : bool) (m : positive) (e : Z) :
  -1074 <= e -> sub (S754_finite s m e) (S754_finite s m e) = zero.
Proof. intros He. rewrite sub_scaled by lia. rewrite Z.sub_diag. reflexivity. Qed.

(** *** The compensated sum of two floats *)

(** One step of the summation: the compensation computed for the sum of
    two floats of moderate size, the first one the greater in magnitude, is
    the exact error of the sum, so that adding it to the sum changes
    nothing. *)
Lemma compensated_sum (sx : bool) (mx : positive) (ex : Z) (sy : bool) (my : positive)
    (ey : Z) :
  let x := S754_finite sx mx ex in
  let y := S754_finite sy my ey in
  moderate x -> moderate y -> Z.abs (scaled y) <= Z.abs (scaled x) ->
  let t := add x y in
  let err := add zero (add (sub x t) y) in
  is_finite err = true /\ add t err = t /\ is_nan t = false.
Proof.
  intros x y Hx Hy Hle t err. subst x y.
  destruct (moderate_scaled sx mx ex Hx) as (Hnx & Hbx & Hex).
  destruct (moderate_scaled sy my ey Hy) as (Hny & Hby & Hey).
  destruct (fast_two_sum _ _ Hnx Hny Hle) as [F1 F2].
  set (X := scaled (S754_finite sx mx ex)) in *.
  set (Y := scaled (S754_finite sy my ey)) in *.
  assert (Ht : t = binary_normalize prec emax (X + Y) (-1074) false).
  { unfold t. apply add_scaled; lia. }
  assert (Hnan : is_nan t = false) by (rewrite Ht; apply binary_normalize_not_nan).
  split; [|split; [|exact Hnan]]; unfold err; clear err.
  all: destruct (Z.eq_dec (X + Y) 0) as [Hs0|Hs0].
  all: try (rewrite Ht, Hs0; cbn [binary_normalize]; unfold sub at 1; cbn [SFsub];
            fold t; rewrite Ht, Hs0; reflexivity).
  all: pose proof (rnd_abs_le (X + Y)) as Hrnd.
  all: destruct (round_scaled_finite (X + Y) Hs0) as (mt & et & Et & Het & Hst);
    [apply digits_in_range; lia|].
  all: rewrite <- Ht in Et.
  all: set (T := rnd (X + Y)) in *.
  all: assert (Hsub : sub (S754_finite sx mx ex) t
                      = binary_normalize prec emax (X - T) (-1074) false)
         by (rewrite Et, <- Hst; apply sub_scaled; lia).
  all: rewrite Hsub.
  all: destruct (Z.eq_dec (X - T) 0) as [Hd0|Hd0].
  - rewrite Hd0. cbn [binary_normalize]. reflexivity.
  - destruct (round_scaled_finite (X - T) Hd0) as (ma & ea & Ea & Hea & Hsa);
      [apply digits_in_range; lia|].
    rewrite Ea. rewrite F1 in Hsa.
    rewrite add_scaled by lia. rewrite Hsa. fold Y.
    destruct (Z.eq_dec (X - T + Y) 0) as [He0|He0].
    + rewrite He0. reflexivity.
    + destruct (round_scaled_finite _ He0) as (me & ee & Ee & Hee & Hse);
        [apply digits_in_range; lia|].
      rewrite Ee. reflexivity.
  - rewrite Hd0. cbn [binary_normalize].
    unfold add at 3. cbn [SFadd zero]. unfold add at 2. cbn [SFadd zero].
    rewrite Et at 1. rewrite add_scaled by lia.
    rewrite Hst. fold Y. replace (T + Y) with (X + Y) by lia.
    symmetry. exact Ht.
  - destruct (round_scaled_finite (X - T) Hd0) as (ma & ea & Ea & Hea & Hsa);
      [apply digits_in_range; lia|].
    rewrite Ea. rewrite F1 in Hsa.
    rewrite add_scaled by lia. rewrite Hsa. fold Y.
    destruct (Z.eq_dec (X - T + Y) 0) as [He0|He0].
    + rewrite He0. cbn [binary_normalize]. unfold add at 2. cbn [SFadd zero].
      rewrite Et. reflexivity.
    + destruct (round_scaled_finite _ He0) as (me & ee & Ee & Hee & Hse);
        [apply digits_in_range; lia|].
      rewrite Ee. rewrite F2 in Hse.
      unfold add at 2. cbn [SFadd zero].
      rewrite Et at 1. rewrite add_scaled by lia. rewrite Hst, Hse.
      replace (T + (X - T + Y)) with (X + Y) by ring.
      symmetry. exact Ht.
Qed.

(** The first row of a column: the running sum is the row, the
    compensation is zero. *)
Lemma kahanBabuskaNeumaierStep_first (x : float) :
  moderate x ->
  kahanBabuskaNeumaierStep (mkSumCtx zero zero) x = mkSumCtx x zero.
Proof.
  destruct x as [[|]|?| |s m e]; cbn [moderate]; intros H; try easy.
  destruct H as [_ He].
  unfold kahanBabuskaNeumaierStep. cbn [rSum rErr].
  change (add zero (S754_finite s m e)) with (S754_finite s m e).
  change (ltb (abs (S754_finite s m e)) (abs zero)) with false. cbv iota.
  rewrite sub_diag_finite by lia. reflexivity.
Qed.

(** The second row: the compensated sum of two floats of moderate size is
    their float sum. *)
Lemma kahanBabuskaNeumaierStep_second (x y : float) :
  moderate x -> moderate y ->
  sumFinalize (kahanBabuskaNeumaierStep (mkSumCtx x zero) y) = add x y
  /\ is_nan (add x y) = false.
Proof.
  intros Hx Hy.
  destruct x as [[|]|?| |sx mx ex]; try easy;
    destruct y as [[|]|?| |sy my ey]; try easy.
  - destruct Hy as [_ Hey].
    unfold kahanBabuskaNeumaierStep. cbn [rSum rErr].
    change (add (S754_zero false) (S754_finite sy my ey)) with (S754_finite sy my ey).
    change (ltb (abs (S754_finite sy my ey)) (abs (S754_zero false))) with false.
    cbv iota. rewrite sub_diag_finite by lia. split; reflexivity.
  - destruct Hx as [_ Hex].
    unfold kahanBabuskaNeumaierStep. cbn [rSum rErr].
    change (add (S754_finite sx mx ex) (S754_zero false)) with (S754_finite sx mx ex).
    change (ltb (abs (S754_zero false)) (abs (S754_finite sx mx ex))) with true.
    cbv iota. rewrite sub_diag_finite by lia. split; reflexivity.
  - pose proof (ltb_abs_scaled sx mx ex sy my ey Hx Hy) as Hcmp.
    destruct (moderate_scaled sx mx ex Hx) as (_ & _ & Hex).
    destruct (moderate_scaled sy my ey Hy) as (_ & _ & Hey).
    unfold kahanBabuskaNeumaierStep. cbn [rSum rErr].
    destruct (ltb (abs (S754_finite sy my ey)) (abs (S754_finite sx mx ex))).
    + destruct (compensated_sum sx mx ex sy my ey Hx Hy Hcmp) as (Hfin & Hsum & Hnan).
      split; [|exact Hnan].
      unfold sumFinalize. cbn [rSum rErr].
      destruct (add zero (add (sub (S754_finite sx mx ex)
                                 (add (S754_finite sx mx ex) (S754_finite sy my ey)))
                            (S754_finite sy my ey))); try discriminate Hfin; exact Hsum.
    + destruct (compensated_sum sy my ey sx mx ex Hy Hx Hcmp) as (Hfin & Hsum & Hnan).
      rewrite (add_comm_finite sy my ey sx mx ex) in Hfin, Hsum, Hnan by lia.
      split; [|exact Hnan].
      unfold sumFinalize. cbn [rSum rErr].
      destruct (add zero (add (sub (S754_finite sy my ey)
                                 (add (S754_finite sx mx ex) (S754_finite sy my ey)))
                            (S754_finite sx mx ex))); try discriminate Hfin; exact Hsum.
Qed.

(** The [SUM] of a column of two floats of moderate size is their float
    sum. *)
Lemma func_sum_float_pair (x y : float) :
  moderate x -> moderate y -> func_sum_float [x; y] = Some (add x y).
Proof.
  intros Hx Hy. unfold func_sum_float. cbn [fold_left].
  rewrite (kahanBabuskaNeumaierStep_first x Hx).
  destruct (kahanBabuskaNeumaierStep_second x y Hx Hy) as [-> ->]. reflexivity.
Qed.


(** *** Normal results *)

(** Rounding a value of at least 53 bits above the subnormal range gives a
    mantissa of exactly 53 bits. *)
Lemma binary_round_aux_normalized (sx : bool) (mx ex : Z) (lx : location) :
  0 < mx -> 53 <= Zdigits2 mx -> -1021 <= Zdigits2 mx + ex ->
  normalized (binary_round_aux prec emax sx mx ex lx).
Proof.
  intros Hpos Hd Hmag. unfold binary_round_aux, shr_fexp.
  set (d := Zdigits2 mx) in *.
  pose proof (shr_m_spec (shr_record_of_loc mx lx) ex
                (fexp prec emax (d + ex) - ex)) as H1.
  rewrite shr_record_of_loc_m in H1. specialize (H1 ltac:(lia)).
  destruct (shr (shr_record_of_loc mx lx) ex (fexp prec emax (d + ex) - ex))
    as [mrs' e'].
  cbn [fst snd] in H1. destruct H1 as [Hm' He'].
  assert (Hk : Z.max 0 (fexp prec emax (d + ex) - ex) = d - 53)
    by (rewrite fexp_eq; lia).
  rewrite Hk in Hm', He'.
  assert (Hr1 : 2 ^ 52 <= shr_m mrs' < 2 ^ 53).
  { rewrite Hm'. pose proof (Zdigits2_lower mx Hpos) as Hlow.
    destruct (Zdigits2_upper mx ltac:(lia)) as [Hup|H0]; [|lia]. fold d in Hlow, Hup.
    assert (Hpk : 0 < 2 ^ (d - 53)) by (apply Z.pow_pos_nonneg; lia).
    split.
    - apply Z.div_le_lower_bound; [exact Hpk|]. rewrite <- Z.pow_add_r by lia.
      replace (d - 53 + 52) with (d - 1) by lia. exact Hlow.
    - apply Z.div_lt_upper_bound; [exact Hpk|]. rewrite <- Z.pow_add_r by lia.
      replace (d - 53 + 53) with d by lia. exact Hup. }
  pose proof (round_nearest_even_bounds (shr_m mrs') (loc_of_shr_record mrs')) as Hr.
  set (m2 := round_nearest_even (shr_m mrs') (loc_of_shr_record mrs')) in *.
  pose proof (shr_m_spec (shr_record_of_loc m2 loc_Exact) e'
                (fexp prec emax (Zdigits2 m2 + e') - e')) as H2.
  rewrite shr_record_of_loc_m in H2. specialize (H2 ltac:(lia)).
  destruct (shr (shr_record_of_loc m2 loc_Exact) e'
              (fexp prec emax (Zdigits2 m2 + e') - e')) as [mrs'' e''].
  cbn [fst snd] in H2. destruct H2 as [Hm'' He''].
  assert (Hfinal : Zdigits2 (shr_m mrs'') = 53).
  { rewrite Hm''. destruct (Z.eq_dec m2 (2 ^ 53)) as [E|E].
    - rewrite E. rewrite (Zdigits2_pow2 53) by lia.
      replace (Z.max 0 (fexp prec emax (53 + 1 + e') - e')) with 1
        by (rewrite fexp_eq; lia).
      reflexivity.
    - assert (Hd2 : Zdigits2 m2 = 53) by (apply Zdigits2_unique; lia).
      rewrite Hd2.
      replace (Z.max 0 (fexp prec emax (53 + e') - e')) with 0
        by (rewrite fexp_eq; lia).
      rewrite Z.pow_0_r, Z.div_1_r. exact Hd2. }
  destruct (shr_m mrs'') as [|p|p]; [exact I| |exact I].
  destruct (e'' <=? emax - prec); [exact Hfinal|exact I].
Qed.

Lemma binary_round_normalized (sx : bool) (p : positive) :
  normalized (binary_round prec emax sx p 0).
Proof.
  unfold binary_round.
  pose proof (shl_align_spec p 0 (fexp prec emax (Zpos (digits2_pos p) + 0))) as Hal.
  destruct (shl_align p 0 (fexp prec emax (Zpos (digits2_pos p) + 0))) as [mz ez].
  destruct Hal as (Hez & Hmz & Hdz).
  change (Zpos (digits2_pos p)) with (Zdigits2 (Zpos p)) in Hez.
  rewrite fexp_eq in Hez.
  assert (Hd : 0 < Zdigits2 (Zpos p)) by (simpl; lia).
  apply binary_round_aux_normalized; lia.
Qed.

(** A converted integer has a mantissa of 53 bits. *)
Lemma of_int_normalized (s : Z) (f : float) : of_int s = Ok f -> normalized f.
Proof.
  unfold of_int, round_int, binary_normalize. destruct s as [|p|p].
  - intros H. injection H as <-. exact I.
  - pose proof (binary_round_normalized false p) as Hn.
    destruct (binary_round prec emax false p 0); intros H; try discriminate H;
      injection H as <-; exact Hn.
  - pose proof (binary_round_normalized true p) as Hn.
    destruct (binary_round prec emax true p 0); intros H; try discriminate H;
      injection H as <-; exact Hn.
Qed.

Lemma mul_normalized (k b eb : Z) (x : float) (my : positive) (ey : Z) :
  in_range k b eb x -> normalized x -> Zdigits2 (Zpos my) = 53 ->
  -1021 <= k + ey + 52 ->
  normalized (mul x (S754_finite false my ey)).
Proof.
  destruct x as [s|s| |s m e]; cbn [in_range normalized]; try tauto;
    try (intros _ _ _ _; exact I).
  intros (Hm & He & Hle & Hmag) Hd Hdy Hk. unfold mul, SFmul.
    pose proof (Zdigits2_mul_lower m my) as Hmul.
    apply binary_round_aux_normalized; lia.
Qed.

Lemma div_normalized (k b eb : Z) (x : float) (my : positive) (ey : Z) :
  in_range k b eb x -> normalized x -> Zdigits2 (Zpos my) = 53 ->
  -1021 <= k - 53 - ey ->
  normalized (div x (S754_finite false my ey)).
Proof.
  destruct x as [s|s| |s m e]; cbn [in_range normalized]; try tauto;
    try (intros _ _ _ _; exact I).
  intros (Hm & He & Hle & Hmag) Hd Hdy Hk. unfold div, SFdiv.
    destruct (SFdiv_core_binary_spec m my e ey) as [l Hcore].
    rewrite Hcore. clear Hcore. rewrite Hd, Hdy.
    replace (Z.min (fexp prec emax (53 + e - (53 + ey))) (e - ey)) with (e - ey - 53)
      by (rewrite fexp_eq; lia).
    replace (e - ey - (e - ey - 53)) with 53 by lia.
    pose proof (Zdigits2_lower (Zpos m) ltac:(lia)) as Hlow. rewrite Hd in Hlow.
    destruct (Zdigits2_upper (Zpos my) ltac:(lia)) as [Hup|H0]; [|lia].
    rewrite Hdy in Hup. change (53 - 1) with 52 in Hlow.
    assert (Hq : 2 ^ 52 <= Zpos m * 2 ^ 53 / Zpos my).
    { apply Z.div_le_lower_bound; [lia|]. lia. }
    pose proof (Zdigits2_mono (2 ^ 52) (Zpos m * 2 ^ 53 / Zpos my) ltac:(lia) Hq) as Hdq.
    change (Zdigits2 (2 ^ 52)) with 53 in Hdq.
    apply binary_round_aux_normalized; lia.
Qed.

(** *** The range of a 64-bit step count *)

Lemma binary_round_int64 (sx : bool) (p : positive) :
  Zpos p <= 2 ^ 63 ->
  in_range 1 (2 ^ 52 + 1) 11 (binary_round prec emax sx p 0)
  \/ binary_round prec emax sx p 0 = S754_zero true.
Proof.
  intros Hp.
  pose proof (binary_round_in_range sx p 0 ltac:(simpl; lia)) as Hr.
  unfold binary_round in *.
  pose proof (shl_align_spec p 0 (fexp prec emax (Zpos (digits2_pos p) + 0))) as Hal.
  destruct (shl_align p 0 (fexp prec emax (Zpos (digits2_pos p) + 0))) as [mz ez].
  destruct Hal as (Hez & Hmz & Hdz).
  assert (Hlt : Zpos mz < (2 ^ 52 + 1) * 2 ^ (11 - ez)).
  { rewrite Hmz. replace (11 - ez) with (11 + (0 - ez)) by lia.
    rewrite Z.pow_add_r by lia. rewrite Z.mul_assoc.
    apply Z.mul_lt_mono_pos_r; [apply Z.pow_pos_nonneg; lia|]. lia. }
  pose proof (binary_round_aux_upper sx (Zpos mz) ez loc_Exact (2 ^ 52 + 1) 11
                ltac:(lia) ltac:(lia) ltac:(lia) ltac:(lia) Hlt) as Hup.
  destruct (binary_round_aux prec emax sx (Zpos mz) ez loc_Exact)
    as [s'|s'| |s' m' e']; try contradiction.
  left. destruct Hr as (_ & Hr). cbn [in_range] in *.
  destruct Hup as (_ & He' & Hle'). destruct Hr as (H1 & H2 & _ & H4).
  pose proof (Zdigits2_nonneg (Zpos p)).
  assert (0 < Zdigits2 (Zpos p)) by (simpl; lia).
  repeat split; lia.
Qed.

Lemma of_int_int64 (s : Z) (f : float) :
  Z.abs s <= 2 ^ 63 -> of_int s = Ok f -> in_range 1 (2 ^ 52 + 1) 11 f.
Proof.
  intros Hs. unfold of_int, round_int, binary_normalize. destruct s as [|p|p].
  - intros H. injection H as <-. reflexivity.
  - pose proof (binary_round_in_range false p 0 ltac:(simpl; lia)) as Hr.
    destruct (binary_round_int64 false p ltac:(lia)) as [Hi|Hi].
    + destruct (binary_round prec emax false p 0); intros H; try discriminate H;
        injection H as <-; exact Hi.
    + rewrite Hi in Hr. contradiction.
  - pose proof (binary_round_in_range true p 0 ltac:(simpl; lia)) as Hr.
    destruct (binary_round_int64 true p ltac:(lia)) as [Hi|Hi].
    + destruct (binary_round prec emax true p 0); intros H; try discriminate H;
        injection H as <-; exact Hi.
    + rewrite Hi in Hr. contradiction.
Qed.

Lemma in_range_moderate (k b eb : Z) (x : float) :
  in_range k b eb x -> normalized x -> -847 <= k -> eb <= 900 -> moderate x.
Proof.
  destruct x as [s|s| |s m e]; cbn [in_range normalized moderate]; try tauto.
  intros (Hm & He & Hle & Hmag) Hd Hk Heb. split; [exact Hd|lia].
Qed.

(** The distance and the calories of a 64-bit step count are of moderate
    size. *)
Lemma distance_calories_moderate (f : float) :
  in_range 1 (2 ^ 52 + 1) 11 f -> normalized f ->
  moderate (distance_km_of f) /\ moderate (calories_of f).
Proof.
  intros Hf Hn. unfold distance_km_of, calories_of.
  rewrite lit_1000_eq, lit_5_eq, lit_700_eq. unfold lit_0_762.
  assert (H1 : in_range 0 mantissa_0_762 11
                 (mul f (S754_finite false 6863485832112636 (-53)))).
  { apply (mul_in_range 1 (2 ^ 52 + 1) 11); [exact Hf|..]; closed_arith. }
  assert (N1 : normalized (mul f (S754_finite false 6863485832112636 (-53)))).
  { apply (mul_normalized 1 (2 ^ 52 + 1) 11); [exact Hf|exact Hn|reflexivity|lia]. }
  assert (H2 : in_range (-10) mantissa_0_762 2
                 (div (mul f (S754_finite false 6863485832112636 (-53)))
                      (S754_finite false 8796093022208000 (-43)))).
  { apply (div_in_range 0 mantissa_0_762 11); [exact H1|..]; closed_arith. }
  assert (N2 : normalized
                 (div (mul f (S754_finite false 6863485832112636 (-53)))
                      (S754_finite false 8796093022208000 (-43)))).
  { apply (div_normalized 0 mantissa_0_762 11); [exact H1|exact N1|reflexivity|lia]. }
  split; [apply (in_range_moderate _ _ _ _ H2 N2); lia|].
  assert (H3 : in_range (-13) mantissa_0_762 0
                 (div (div (mul f (S754_finite false 6863485832112636 (-53)))
                           (S754_finite false 8796093022208000 (-43)))
                      (S754_finite false 5629499534213120 (-50)))).
  { apply (div_in_range (-10) mantissa_0_762 2); [exact H2|..]; closed_arith. }
  assert (N3 : normalized
                 (div (div (mul f (S754_finite false 6863485832112636 (-53)))
                           (S754_finite false 8796093022208000 (-43)))
                      (S754_finite false 5629499534213120 (-50)))).
  { apply (div_normalized (-10) mantissa_0_762 2); [exact H2|exact N2|reflexivity|lia]. }
  apply (in_range_moderate (-4) mantissa_0_762 10); [| |lia|lia].
  - apply (mul_in_range (-13) mantissa_0_762 0); [exact H3|..]; closed_arith.
  - apply (mul_normalized (-13) mantissa_0_762 0); [exact H3|exact N3|reflexivity|lia].
Qed.

(** *** The greatest integers that convert *)

Lemma build_greatest (sx : bool) :
  build sx (2 ^ 53 - 1, 971) = S754_finite sx 9007199254740991 971.
Proof. reflexivity. Qed.

Lemma build_overflow (sx : bool) : build sx (2 ^ 52, 972) = S754_infinity sx.
Proof. reflexivity. Qed.

(** An integer between the greatest float and [2 ^ 1024] is rounded down
    to the greatest float below the midpoint [2 ^ 1024 - 2 ^ 970], and up,
    out of range, from there on. *)
Lemma round_at_top (p : Z) :
  2 ^ 1024 - 2 ^ 971 <= p < 2 ^ 1024 ->
  round_at p 0
  = if p <? 2 ^ 1024 - 2 ^ 970 then (2 ^ 53 - 1, 971) else (2 ^ 52, 972).
Proof.
  intros Hp. unfold round_at.
  assert (Hd : Zdigits2 p = 1024) by (apply Zdigits2_unique; lia).
  rewrite Hd. change (fexp prec emax (1024 + 0)) with 971.
  change (Z.min 0 971) with 0. cbv zeta.
  rewrite !Z.sub_0_r, Z.pow_0_r, Z.mul_1_r.
  assert (Hq : p / 2 ^ 971 = 2 ^ 53 - 1).
  { symmetry. apply Z.div_unique with (p - (2 ^ 53 - 1) * 2 ^ 971); lia. }
  assert (Hr : p mod 2 ^ 971 = p - (2 ^ 53 - 1) * 2 ^ 971).
  { symmetry. apply Z.mod_unique with (2 ^ 53 - 1); lia. }
  unfold rne. rewrite Hq, Hr.
  destruct (Z.ltb_spec p (2 ^ 1024 - 2 ^ 970)) as [Hlt|Hge].
  - replace (2 * (p - (2 ^ 53 - 1) * 2 ^ 971) ?= 2 ^ 971) with Lt
      by (symmetry; apply Z.compare_lt_iff; lia).
    reflexivity.
  - destruct (2 * (p - (2 ^ 53 - 1) * 2 ^ 971) ?= 2 ^ 971) eqn:Ec.
    + reflexivity.
    + apply (proj1 (Z.compare_lt_iff _ _)) in Ec. lia.
    + reflexivity.
Qed.

(** ** The conversion function *)

Lemma calculate_unfold (s : Z) :
  calculate_distance_and_calories s =
  match of_int s with
  | Ok f => Ok (distance_km_of f, calories_of f)
  | Raise e => Raise e
  end.
Proof.
  unfold calculate_distance_and_calories, bind.
  destruct (of_int s) as [f|e]; [|reflexivity].
  rewrite (truediv_nonzero _ _ lit_1000_nonzero).
  rewrite (truediv_nonzero _ _ lit_5_nonzero).
  reflexivity.
Qed.

(** The conversion function raises nothing but [OverflowError]. *)
Lemma calculate_raises (s : Z) (e : exn) :
  calculate_distance_and_calories s = Raise e -> e = OverflowError.
Proof.
  rewrite calculate_unfold. unfold of_int.
  destruct (round_int s); intros H; try discriminate H.
  injection H as <-. reflexivity.
Qed.

(** Both results are finite numbers, whatever the step count. *)
Lemma calculate_in_range (s : Z) (d c : float) :
  calculate_distance_and_calories s = Ok (d, c) ->
  in_range (-10) mantissa_0_762 962 d /\ in_range (-4) mantissa_0_762 970 c.
Proof.
  rewrite calculate_unfold. destruct (of_int s) as [f|e] eqn:Ef; [|discriminate].
  intros H. injection H as <- <-.
  apply distance_calories_in_range. apply (of_int_in_range s f Ef).
Qed.

Lemma calculate_relation (s : Z) (d c : float) :
  calculate_distance_and_calories s = Ok (d, c) ->
  c = mul (div d (lit 5)) (lit 700).
Proof.
  rewrite calculate_unfold. destruct (of_int s) as [f|e]; [|discriminate].
  intros H. injection H as <- <-. reflexivity.
Qed.

(** An integer of more than 1024 bits rounds to an infinity. *)
Lemma binary_round_overflow (sx : bool) (p : positive) :
  2 ^ 1024 <= Zpos p -> binary_round prec emax sx p 0 = S754_infinity sx.
Proof.
  intros Hp.
  assert (Hd : 1024 < Zdigits2 (Zpos p)).
  { destruct (Zdigits2_upper (Zpos p) ltac:(lia)) as [Hup|H0]; [|lia].
    assert (Hlt : 2 ^ 1024 < 2 ^ Zdigits2 (Zpos p)) by lia.
    apply Z.pow_lt_mono_r_iff in Hlt; [exact Hlt|lia|apply Zdigits2_nonneg]. }
  pose proof (binary_round_in_range sx p 0 ltac:(lia)) as Hr.
  destruct (binary_round prec emax sx p 0) as [s'|s'| |s' m' e'];
    try contradiction.
  - subst s'. reflexivity.
  - exfalso. destruct Hr as (_ & Hm & He & _ & Hmag). cbn [in_range] in *.
    pose proof (Zdigits2_bound (Zpos m') 1 53 ltac:(lia) ltac:(lia) ltac:(lia)) as Hb.
    rewrite Z.mul_1_l in Hb. specialize (Hb ltac:(lia)).
    assert (Hd' : Zdigits2 (Zpos m') <= 53).
    { destruct (Z_le_gt_dec (Zdigits2 (Zpos m')) 53) as [Hle|Hgt]; [exact Hle|].
      exfalso. pose proof (Zdigits2_lower (Zpos m') ltac:(lia)) as Hlow.
      assert (Hpow : 2 ^ 53 <= 2 ^ (Zdigits2 (Zpos m') - 1))
        by (apply Z.pow_le_mono_r; lia).
      lia. }
    lia.
Qed.

Lemma of_int_overflow (s : Z) :
  2 ^ 1024 <= Z.abs s -> of_int s = Raise OverflowError.
Proof.
  intros Hs. unfold of_int, round_int, binary_normalize.
  destruct s as [|p|p].
  - exfalso. assert (0 < 2 ^ 1024) by (apply Z.pow_pos_nonneg; lia).
    change (Z.abs 0) with 0 in Hs. lia.
  - rewrite (binary_round_overflow false p); [reflexivity|]. simpl in Hs. exact Hs.
  - rewrite (binary_round_overflow true p); [reflexivity|]. simpl in Hs. exact Hs.
Qed.

(** The conversion overflows exactly from [2 ^ 1024 - 2 ^ 970] on, the
    midpoint between the greatest float and [2 ^ 1024]. *)
Lemma of_int_overflow_iff (s : Z) :
  of_int s = Raise OverflowError <-> 2 ^ 1024 - 2 ^ 970 <= Z.abs s.
Proof.
  destruct (Z_lt_le_dec (Z.abs s) (2 ^ 1024 - 2 ^ 971)) as [Hlow|Hhigh].
  - split; [|lia]. intros H.
    destruct (of_int_succeeds s) as [f Hf]; [unfold max_mantissa; lia|].
    rewrite Hf in H. discriminate H.
  - destruct (Z_lt_le_dec (Z.abs s) (2 ^ 1024)) as [Hlt|Hge].
    + unfold of_int, round_int, binary_normalize. destruct s as [|p|p].
      * change (Z.abs 0) with 0 in Hhigh. lia.
      * change (Z.abs (Zpos p)) with (Zpos p) in *.
        rewrite binary_round_round_at, round_at_top by lia.
        destruct (Z.ltb_spec (Zpos p) (2 ^ 1024 - 2 ^ 970)) as [Hb|Hb].
        -- rewrite build_greatest. split; [discriminate|lia].
        -- rewrite build_overflow. split; [intros _; exact Hb|reflexivity].
      * change (Z.abs (Zneg p)) with (Zpos p) in *.
        rewrite binary_round_round_at, round_at_top by lia.
        destruct (Z.ltb_spec (Zpos p) (2 ^ 1024 - 2 ^ 970)) as [Hb|Hb].
        -- rewrite build_greatest. split; [discriminate|lia].
        -- rewrite build_overflow. split; [intros _; exact Hb|reflexivity].
    + split; [intros _; lia|]. intros _. apply of_int_overflow. exact Hge.
Qed.

(** C1, as the code has it: for every step count [s], in particular every
    [s >= 0], that converts to a float [f] without overflow, the function
    returns [distance_km = f * 0.762 / 1000] and
    [calories_burned = distance_km / 5.0 * 700], that is
    [f * 0.762 / 1000 / 5.0 * 700]; both results are [0.0] for [s = 0].  A
    step count converts when its absolute value is below
    [2 ^ 1024 - 2 ^ 970]; from there on the function raises
    [OverflowError], and it never raises anything else. *)
Theorem calculate_distance_and_calories_formula (s : Z) :
  (forall f, of_int s = Ok f ->
     calculate_distance_and_calories s
     = Ok (div (mul f lit_0_762) (lit 1000),
           mul (div (div (mul f lit_0_762) (lit 1000)) (lit 5)) (lit 700)))
  /\ (forall d c, calculate_distance_and_calories s = Ok (d, c) ->
        c = mul (div d (lit 5)) (lit 700))
  /\ (Z.abs s < 2 ^ 1024 - 2 ^ 970 ->
        exists f, of_int s = Ok f
                  /\ calculate_distance_and_calories s
                     = Ok (distance_km_of f, calories_of f))
  /\ (s = 0 -> calculate_distance_and_calories s = Ok (zero, zero))
  /\ (2 ^ 1024 - 2 ^ 970 <= Z.abs s ->
        calculate_distance_and_calories s = Raise OverflowError)
  /\ (forall e, calculate_distance_and_calories s = Raise e -> e = OverflowError).
Proof.
  split; [|split; [|split; [|split; [|split]]]].
  - intros f Hf. rewrite calculate_unfold, Hf. reflexivity.
  - intros d c. apply calculate_relation.
  - intros Hs. destruct (of_int s) as [f|e] eqn:Hf.
    + exists f. split; [reflexivity|]. rewrite calculate_unfold, Hf. reflexivity.
    + exfalso. assert (He : e = OverflowError).
      { unfold of_int in Hf. destruct (round_int s); try discriminate Hf.
        injection Hf as <-. reflexivity. }
      subst e. apply of_int_overflow_iff in Hf. lia.
  - intros ->. vm_compute. reflexivity.
  - intros Hs. rewrite calculate_unfold.
    rewrite (proj2 (of_int_overflow_iff s) Hs). reflexivity.
  - apply calculate_raises.
Qed.

Lemma calculate_distance_and_calories_formula_witness :
  calculate_distance_and_calories 10000
  = Ok (S754_finite false 8579357290140795 (-50),
        S754_finite false 4691836018045747 (-42))
  /\ calculate_distance_and_calories 0 = Ok (zero, zero)
  /\ (exists d c, calculate_distance_and_calories (2 ^ 1024 - 2 ^ 970 - 1) = Ok (d, c))
  /\ calculate_distance_and_calories (2 ^ 1024 - 2 ^ 970) = Raise OverflowError.
Proof.
  destruct (calculate_distance_and_calories_formula 10000) as (H & _).
  destruct (calculate_distance_and_calories_formula 0) as (_ & _ & _ & H0 & _).
  destruct (calculate_distance_and_calories_formula (2 ^ 1024 - 2 ^ 970 - 1))
    as (_ & _ & Hok & _).
  destruct (calculate_distance_and_calories_formula (2 ^ 1024 - 2 ^ 970))
    as (_ & _ & _ & _ & Hko & _).
  split; [|split; [|split]].
  - rewrite (H (lit 10000)); [vm_compute; reflexivity|vm_compute; reflexivity].
  - apply H0. reflexivity.
  - destruct Hok as (f & _ & Hf); [vm_compute; reflexivity|].
    exists (distance_km_of f), (calories_of f). exact Hf.
  - apply Hko. vm_compute. discriminate.
Defined.

(** C1 as stated fails on a step count too large for a float: Python raises
    [OverflowError] in [steps * step_length_m]. *)
Lemma calculate_distance_and_calories_overflow :
  0 <= 2 ^ 1024
  /\ calculate_distance_and_calories (2 ^ 1024) = Raise OverflowError
  /\ ~ (exists d c, calculate_distance_and_calories (2 ^ 1024) = Ok (d, c)).
Proof.
  split; [lia|]. split; [vm_compute; reflexivity|].
  intros (d & c & H). vm_compute in H. discriminate H.
Qed.

(** ** The store queries *)

Lemma moderate_number (x : float) : moderate x -> number x.
Proof.
  destruct x as [s|s| |s m e]; cbn [moderate number]; try tauto. lia.
Qed.

Lemma moderate_finite (x : float) : moderate x -> is_finite x = true.
Proof. destruct x as [s|s| |s m e]; cbn [moderate]; try tauto; reflexivity. Qed.

Lemma fresh_id_above (ids : list Z) (x : Z) : In x ids -> x < fresh_id ids.
Proof.
  unfold fresh_id. induction ids as [|y ids IH]; intros Hin; [contradiction|].
  cbn [fold_right]. destruct Hin as [->|Hin]; [lia|]. specialize (IH Hin). lia.
Qed.

Lemma fresh_id_not_in (ids : list Z) : ~ In (fresh_id ids) ids.
Proof. intros Hin. apply fresh_id_above in Hin. lia. Qed.

Lemma in_int64_iff (z : Z) : in_int64 z = true <-> - 2 ^ 63 <= z < 2 ^ 63.
Proof.
  unfold in_int64, int64_min, int64_max.
  rewrite andb_true_iff, !Z.leb_le. lia.
Qed.

(** Every 64-bit step count converts to a float. *)
Lemma in_int64_converts (s : Z) :
  in_int64 s = true -> exists d c, calculate_distance_and_calories s = Ok (d, c).
Proof.
  intros H. apply in_int64_iff in H.
  assert (Hb : 2 ^ 63 < max_mantissa * 2 ^ 971) by (vm_compute; reflexivity).
  destruct (of_int_succeeds s ltac:(lia)) as [f Hf].
  exists (distance_km_of f), (calories_of f). rewrite calculate_unfold, Hf. reflexivity.
Qed.

(** The distance and the calories of a 64-bit step count are of moderate
    size. *)
Lemma calculate_moderate (s : Z) (d c : float) :
  calculate_distance_and_calories s = Ok (d, c) -> in_int64 s = true ->
  moderate d /\ moderate c.
Proof.
  rewrite calculate_unfold. destruct (of_int s) as [f|e] eqn:Ef; [|discriminate].
  intros H Hs. injection H as <- <-. apply in_int64_iff in Hs.
  apply distance_calories_moderate.
  - apply (of_int_int64 s f); [lia|exact Ef].
  - apply (of_int_normalized s f Ef).
Qed.

Lemma bind_int_ok (z : Z) : in_int64 z = true -> bind_int z = Ok z.
Proof. intros H. unfold bind_int. rewrite H. reflexivity. Qed.

Lemma bind_int_raise (z : Z) : in_int64 z = false -> bind_int z = Raise OverflowError.
Proof. intros H. unfold bind_int. rewrite H. reflexivity. Qed.

Lemma bind_int_inv (z z' : Z) : bind_int z = Ok z' -> z' = z /\ in_int64 z = true.
Proof.
  unfold bind_int. destruct (in_int64 z); [|discriminate].
  intros H. injection H as <-. split; reflexivity.
Qed.

(** The sum of an integer column: when it is computed it is the sum of the
    values, and it fails with "integer overflow" only. *)
Lemma sum_int_from_ok (col : list Z) : forall (iSum total : Z),
  sum_int_from iSum col = Ok total -> total = fold_left Z.add col iSum.
Proof.
  induction col as [|x rest IH]; intros iSum total; cbn [sum_int_from fold_left].
  - intros H. injection H as <-. reflexivity.
  - destruct (in_int64 (iSum + x)); [apply IH|discriminate].
Qed.

Lemma sum_int_from_raise (col : list Z) : forall (iSum : Z) (e : exn),
  sum_int_from iSum col = Raise e -> e = OperationalError "integer overflow".
Proof.
  induction col as [|x rest IH]; intros iSum e; cbn [sum_int_from]; [discriminate|].
  destruct (in_int64 (iSum + x)); [apply IH|].
  intros H. injection H as <-. reflexivity.
Qed.

Lemma sum_int_from_app (col1 col2 : list Z) : forall iSum : Z,
  sum_int_from iSum (col1 ++ col2)
  = (total <- sum_int_from iSum col1 ;; sum_int_from total col2).
Proof.
  induction col1 as [|x rest IH]; intros iSum; cbn [app sum_int_from]; [reflexivity|].
  destruct (in_int64 (iSum + x)); [apply IH|reflexivity].
Qed.

Lemma func_sum_int_eq (col : list Z) :
  (value <- func_sum_int col ;; Ok (or_int value 0)) = sum_int_from 0 col.
Proof.
  destruct col as [|x rest]; [reflexivity|].
  cbn [func_sum_int]. destruct (sum_int_from 0 (x :: rest)) as [total|e]; cbn [bind];
    [|reflexivity].
  cbn [or_int]. destruct (Z.eqb_spec total 0) as [->|E]; reflexivity.
Qed.

Lemma find_step_none (step_id : Z) (rows : list StepRecord.t) :
  find_step step_id rows = None <-> ~ In step_id (map StepRecord.id rows).
Proof.
  unfold find_step. induction rows as [|r rows IH]; cbn [find map In].
  - tauto.
  - destruct (Z.eqb_spec (StepRecord.id r) step_id) as [E|E].
    + split; [discriminate|]. intros H. exfalso. apply H. left. exact E.
    + rewrite IH. tauto.
Qed.

(** The row found by key is the first one carrying it, and deleting by key
    removes that row and no other. *)
Lemma find_step_some (step_id : Z) (rows : list StepRecord.t) (r : StepRecord.t) :
  find_step step_id rows = Some r ->
  exists before after,
    rows = before ++ r :: after
    /\ StepRecord.id r = step_id
    /\ ~ In step_id (map StepRecord.id before)
    /\ delete_row step_id rows = before ++ after.
Proof.
  unfold find_step. induction rows as [|x rows IH]; cbn [find delete_row]; [discriminate|].
  destruct (Z.eqb_spec (StepRecord.id x) step_id) as [E|E].
  - intros H. injection H as <-. exists [], rows. cbn [app map In]. tauto.
  - intros H. destruct (IH H) as (before & after & -> & Hid & Hnot & Hdel).
    exists (x :: before), after. cbn [app map In]. rewrite Hdel.
    repeat split; try assumption; try reflexivity. tauto.
Qed.

Lemma delete_row_incl (step_id : Z) (rows : list StepRecord.t) (r : StepRecord.t) :
  In r (delete_row step_id rows) -> In r rows.
Proof.
  induction rows as [|x rows IH]; cbn [delete_row]; [tauto|].
  destruct (StepRecord.id x =? step_id); cbn [In]; tauto.
Qed.

Lemma delete_row_NoDup (step_id : Z) (rows : list StepRecord.t) :
  NoDup (map StepRecord.id rows) ->
  NoDup (map StepRecord.id (delete_row step_id rows))
  /\ ~ In step_id (map StepRecord.id (delete_row step_id rows)).
Proof.
  induction rows as [|x rows IH]; cbn [delete_row map]; intros Hnd.
  - split; [constructor|tauto].
  - inversion Hnd as [|? ? Hx Hrest]; subst.
    destruct (Z.eqb_spec (StepRecord.id x) step_id) as [E|E].
    + subst step_id. split; assumption.
    + destruct (IH Hrest) as [IH1 IH2]. cbn [map In]. split; [|tauto].
      constructor; [|exact IH1]. intros Hin. apply Hx.
      apply in_map_iff in Hin. destruct Hin as (y & Hy & Hin).
      apply in_map_iff. exists y. split; [exact Hy|].
      apply (delete_row_incl step_id). exact Hin.
Qed.

(** ** The handlers *)

Section HandlerProperties.

Variable defaults : WeightGoalDefaults.

(** *** [add_steps] *)

(** The goal table after a step record worth [calories_burned] is added. *)
Lemma add_steps_inv (step_data : StepRecordCreate) (now : datetime) (db db' : Store)
    (r : StepRecord.t) :
  add_steps defaults step_data now db = (db', Ok r) ->
  stored_as_computed r
  /\ (StepRecord.id r = fresh_id (map StepRecord.id (step_records db))
      /\ StepRecord.steps r = create_steps step_data
      /\ StepRecord.created_at r = now)
  /\ step_records db' = step_records db ++ [r]
  /\ weight_goals db' =
     match weight_goals db with
     | [] =>
         [WeightGoal.mk (fresh_id []) (default_target_weight_loss_kg defaults)
            (default_total_calories_needed defaults)
            (add (default_calories_burned_so_far defaults)
                 (StepRecord.calories_burned r)) now]
     | g :: others =>
         WeightGoal.set_calories_burned_so_far g
           (add (WeightGoal.calories_burned_so_far g) (StepRecord.calories_burned r))
         :: others
     end.
Proof.
  unfold add_steps, stored_as_computed.
  destruct (calculate_distance_and_calories (create_steps step_data))
    as [[d c]|e] eqn:Ecalc; [|discriminate].
  destruct (bind_int (create_steps step_data)) as [steps|e] eqn:Ebind; [|discriminate].
  destruct (bind_int_inv _ _ Ebind) as [-> _].
  intros H. injection H as <- <-.
  cbn [StepRecord.steps StepRecord.distance_km StepRecord.calories_burned
       step_records weight_goals].
  split; [exact Ecalc|]. split; [repeat split|]. split; [reflexivity|].
  destruct (weight_goals db); reflexivity.
Qed.

(** Only a step count of 64 bits is stored. *)
Lemma add_steps_int64 (step_data : StepRecordCreate) (now : datetime) (db db' : Store)
    (r : StepRecord.t) :
  add_steps defaults step_data now db = (db', Ok r) ->
  in_int64 (create_steps step_data) = true.
Proof.
  unfold add_steps.
  destruct (calculate_distance_and_calories (create_steps step_data))
    as [[d c]|e]; [|discriminate].
  destruct (bind_int (create_steps step_data)) as [steps|e] eqn:Ebind; [|discriminate].
  intros _. apply (bind_int_inv _ _ Ebind).
Qed.

Lemma add_steps_raise (step_data : StepRecordCreate) (now : datetime) (db db' : Store)
    (e : exn) :
  add_steps defaults step_data now db = (db', Raise e) ->
  db' = db /\ e = OverflowError /\ in_int64 (create_steps step_data) = false.
Proof.
  unfold add_steps.
  destruct (calculate_distance_and_calories (create_steps step_data))
    as [[d c]|e'] eqn:Ecalc.
  - unfold bind_int. destruct (in_int64 (create_steps step_data)); [discriminate|].
    intros H. injection H as <- <-. repeat split.
  - intros H. injection H as <- <-. split; [reflexivity|].
    split; [apply (calculate_raises _ _ Ecalc)|].
    destruct (in_int64 (create_steps step_data)) eqn:E; [|reflexivity].
    destruct (in_int64_converts _ E) as (d & c & Hdc). congruence.
Qed.

Lemma add_steps_succeeds (step_data : StepRecordCreate) (now : datetime) (db : Store) :
  in_int64 (create_steps step_data) = true ->
  exists db' r d c,
    add_steps defaults step_data now db = (db', Ok r)
    /\ calculate_distance_and_calories (create_steps step_data) = Ok (d, c)
    /\ StepRecord.distance_km r = d /\ StepRecord.calories_burned r = c.
Proof.
  intros Hs. destruct (in_int64_converts _ Hs) as (d & c & Hcalc).
  unfold add_steps. rewrite Hcalc, (bind_int_ok _ Hs).
  do 2 eexists. exists d, c. split; [reflexivity|]. repeat split. 
Qed.

(** *** [get_dashboard] *)

(** When the totals cannot be computed the dashboard fails and writes
    nothing. *)
Lemma get_dashboard_overflow (now : datetime) (db : Store) (e : exn) :
  sum_steps (step_records db) = Raise e ->
  get_dashboard defaults now db = (db, Raise e)
  /\ e = OperationalError "integer overflow".
Proof.
  intros E. unfold get_dashboard. rewrite E. split; [reflexivity|].
  unfold sum_steps in E. rewrite func_sum_int_eq in E.
  apply (sum_int_from_raise _ _ _ E).
Qed.

(** The store the dashboard commits: the step records are untouched, and
    the first goal row carries the fresh total. *)
Lemma get_dashboard_store (now : datetime) (db : Store) (ts : Z) :
  sum_steps (step_records db) = Ok ts ->
  exists g,
    first (weight_goals (fst (get_dashboard defaults now db))) = Some g
    /\ step_records (fst (get_dashboard defaults now db)) = step_records db
    /\ WeightGoal.calories_burned_so_far g = sum_calories_burned (step_records db)
    /\ WeightGoal.total_calories_needed g = goal_total_calories_needed defaults db
    /\ weight_goals (fst (get_dashboard defaults now db))
       = g :: tl (weight_goals db)
    /\ match weight_goals db with
       | [] => g = new_weight_goal defaults (sum_calories_burned (step_records db)) now []
       | g0 :: _ =>
           g = WeightGoal.set_calories_burned_so_far g0
                 (sum_calories_burned (step_records db))
       end.
Proof.
  intros E.
  unfold get_dashboard, refresh_weight_goal, goal_total_calories_needed. rewrite E.
  destruct (weight_goals db) as [|g0 others]; cbn;
    eexists; repeat split; reflexivity.
Qed.

(** What the dashboard answers, in terms of the goal row it committed. *)
Lemma get_dashboard_result (now : datetime) (db : Store) (ts : Z) :
  sum_steps (step_records db) = Ok ts ->
  exists g,
    first (weight_goals (fst (get_dashboard defaults now db))) = Some g
    /\ snd (get_dashboard defaults now db) =
       (ratio <- truediv (WeightGoal.calories_burned_so_far g)
                         (WeightGoal.total_calories_needed g) ;;
        Ok (mkDashboardResponse ts
              (sum_distance_km (step_records db))
              (sum_calories_burned (step_records db))
              (mkWeightGoalResponse (WeightGoal.id g)
                 (WeightGoal.target_weight_loss_kg g)
                 (WeightGoal.total_calories_needed g)
                 (WeightGoal.calories_burned_so_far g)
                 (min (mul ratio (lit 100)) (lit 100))
                 (max (sub (WeightGoal.total_calories_needed g)
                           (WeightGoal.calories_burned_so_far g)) (lit 0))
                 (WeightGoal.created_at g))
              (limit 5 (order_by_created_at_desc (step_records db))))).
Proof.
  intros E. unfold get_dashboard, refresh_weight_goal. rewrite E.
  destruct (weight_goals db) as [|g0 others]; cbn; eexists; split; reflexivity.
Qed.

(** A dashboard that answers has computed its totals. *)
Lemma get_dashboard_ok (now : datetime) (db db' : Store) (resp : DashboardResponse) :
  get_dashboard defaults now db = (db', Ok resp) ->
  exists ts, sum_steps (step_records db) = Ok ts.
Proof.
  intros E. destruct (sum_steps (step_records db)) as [ts|e] eqn:Esum.
  - exists ts. reflexivity.
  - destruct (get_dashboard_overflow now db e Esum) as [E' _]. congruence.
Qed.

(** Once the totals are computed, the dashboard answers exactly when the
    target it divides by is not a zero. *)
Lemma get_dashboard_completes (now : datetime) (db : Store) (ts : Z) :
  sum_steps (step_records db) = Ok ts ->
  (eqb (goal_total_calories_needed defaults db) zero = false ->
   exists resp, snd (get_dashboard defaults now db) = Ok resp)
  /\ (eqb (goal_total_calories_needed defaults db) zero = true ->
      snd (get_dashboard defaults now db) = Raise ZeroDivisionError).
Proof.
  intros E.
  destruct (get_dashboard_result now db ts E) as (g & Hg & ->).
  destruct (get_dashboard_store now db ts E) as (g' & Hg' & _ & _ & Htcn & _).
  rewrite Hg in Hg'. injection Hg' as <-. rewrite Htcn. split; intros Hz.
  - rewrite (truediv_nonzero _ _ Hz). cbn [bind]. eexists. reflexivity.
  - rewrite (truediv_zero _ _ Hz). reflexivity.
Qed.

(** The answer of a dashboard that completes. *)
Lemma get_dashboard_response (now : datetime) (db db' : Store) (resp : DashboardResponse) :
  get_dashboard defaults now db = (db', Ok resp) ->
  exists g,
    first (weight_goals db') = Some g
    /\ eqb (WeightGoal.total_calories_needed g) zero = false
    /\ WeightGoal.calories_burned_so_far g = sum_calories_burned (step_records db)
    /\ WeightGoal.total_calories_needed g = goal_total_calories_needed defaults db
    /\ sum_steps (step_records db) = Ok (total_steps resp)
    /\ total_distance_km resp = sum_distance_km (step_records db)
    /\ total_calories_burned resp = sum_calories_burned (step_records db)
    /\ recent_records resp = limit 5 (order_by_created_at_desc (step_records db))
    /\ weight_goal resp
       = mkWeightGoalResponse (WeightGoal.id g)
           (WeightGoal.target_weight_loss_kg g)
           (WeightGoal.total_calories_needed g)
           (WeightGoal.calories_burned_so_far g)
           (min (mul (div (WeightGoal.calories_burned_so_far g)
                          (WeightGoal.total_calories_needed g)) (lit 100)) (lit 100))
           (max (sub (WeightGoal.total_calories_needed g)
                     (WeightGoal.calories_burned_so_far g)) (lit 0))
           (WeightGoal.created_at g).
Proof.
  intros E. destruct (get_dashboard_ok now db db' resp E) as [ts Ets].
  destruct (get_dashboard_result now db ts Ets) as (g & Hg & Hres).
  destruct (get_dashboard_store now db ts Ets) as (g' & Hg' & _ & Hsum & Htcn & _).
  rewrite Hg in Hg'. injection Hg' as <-.
  rewrite E in Hg, Hres. cbn [fst snd] in Hg, Hres.
  unfold truediv in Hres.
  destruct (eqb (WeightGoal.total_calories_needed g) zero) eqn:Hz; [discriminate Hres|].
  cbn [bind] in Hres. injection Hres as ->.
  exists g. cbn [total_steps total_distance_km total_calories_burned recent_records
                 weight_goal].
  repeat split; try assumption; reflexivity.
Qed.

(** *** [delete_step_record] *)

Lemma delete_step_record_overflow (step_id : Z) (db : Store) :
  in_int64 step_id = false ->
  delete_step_record step_id db = (db, Raise OverflowError).
Proof.
  intros H. unfold delete_step_record. rewrite (bind_int_raise _ H). reflexivity.
Qed.

Lemma delete_step_record_inv (step_id : Z) (db : Store) :
  in_int64 step_id = true ->
  match find_step step_id (step_records db) with
  | None =>
      delete_step_record step_id db
      = (db, Raise (HTTPException 404 "Step record not found"))
  | Some r =>
      delete_step_record step_id db
      = (mkStore (delete_row step_id (step_records db)) (weight_goals db),
         Ok "Step record deleted successfully"%string)
  end.
Proof.
  intros H. unfold delete_step_record. rewrite (bind_int_ok _ H).
  destruct (find_step step_id (step_records db)) as [r|] eqn:E; [|reflexivity].
  destruct (find_step_some _ _ _ E) as (_ & _ & _ & -> & _). reflexivity.
Qed.

(** A delete leaves the goal rows alone and takes away at most one step
    record. *)
Lemma delete_step_record_store (step_id : Z) (db : Store) :
  weight_goals (fst (delete_step_record step_id db)) = weight_goals db
  /\ (step_records (fst (delete_step_record step_id db)) = step_records db
      \/ step_records (fst (delete_step_record step_id db))
         = delete_row step_id (step_records db)).
Proof.
  destruct (in_int64 step_id) eqn:H.
  - pose proof (delete_step_record_inv step_id db H) as Hdel.
    destruct (find_step step_id (step_records db)); rewrite Hdel; cbn [fst];
      split; auto.
  - rewrite (delete_step_record_overflow step_id db H). cbn [fst]. split; auto.
Qed.

(** *** The reachable stores *)

Lemma serve_consistent (req : request) (now : datetime) (db : Store) :
  consistent defaults db -> consistent defaults (serve defaults req now db).
Proof.
  intros (Hrows & Hgoals & Hnd & Hlen). unfold consistent.
  destruct req as [step_data|n| |step_id]; cbn [serve].
  - destruct (add_steps defaults step_data now db) as [db' [r|e]] eqn:E; cbn [fst].
    + destruct (add_steps_inv _ _ _ _ _ E) as (Hr & Hid & -> & ->).
      split; [|split; [|split]].
      * apply Forall_app. split; [exact Hrows|]. constructor; [exact Hr|constructor].
      * destruct (weight_goals db) as [|g others].
        -- constructor; [|constructor]. split; reflexivity.
        -- inversion Hgoals as [|? ? Hg Hothers]; subst.
           constructor; [exact Hg|exact Hothers].
      * rewrite map_app. apply NoDup_app; [exact Hnd| |].
        -- cbn [map]. constructor; [intros []|constructor].
        -- intros a Ha [Hb|[]]. subst a. destruct Hid as (Hid & _). rewrite Hid in Ha.
           apply (fresh_id_not_in _ Ha).
      * destruct (weight_goals db); cbn [List.length] in *; lia.
    + destruct (add_steps_raise _ _ _ _ _ E) as [-> _].
      repeat split; assumption.
  - repeat split; assumption.
  - destruct (sum_steps (step_records db)) as [ts|e] eqn:Esum.
    + destruct (get_dashboard_store now db ts Esum) as (g & _ & -> & _ & _ & -> & Hg).
      split; [exact Hrows|]. split; [|split; [exact Hnd|]].
      * destruct (weight_goals db) as [|g0 others]; subst g.
        -- constructor; [|constructor]. split; reflexivity.
        -- inversion Hgoals as [|? ? Hg0 Hothers]; subst.
           constructor; [exact Hg0|exact Hothers].
      * destruct (weight_goals db) as [|g0 others]; cbn [List.length tl] in *; lia.
    + destruct (get_dashboard_overflow now db e Esum) as [-> _].
      repeat split; assumption.
  - destruct (delete_step_record_store step_id db) as [Hg Hr]. rewrite Hg.
    split; [|split; [exact Hgoals|split; [|exact Hlen]]].
    + destruct Hr as [-> | ->]; [exact Hrows|].
      apply Forall_forall. intros x Hx. apply delete_row_incl in Hx.
      apply (proj1 (Forall_forall _ _) Hrows x Hx).
    + destruct Hr as [-> | ->]; [exact Hnd|].
      apply (delete_row_NoDup step_id _ Hnd).
Qed.

Lemma reachable_consistent (db : Store) :
  reachable defaults db -> consistent defaults db.
Proof.
  induction 1 as [|req now db Hreach IH].
  - unfold consistent, empty_store. cbn [step_records weight_goals map List.length].
    split; [constructor|]. split; [constructor|]. split; [constructor|lia].
  - apply serve_consistent. exact IH.
Qed.


(** The target of a reachable store is the declared default. *)
Lemma consistent_target (db : Store) :
  consistent defaults db ->
  goal_total_calories_needed defaults db = default_total_calories_needed defaults.
Proof.
  intros (_ & Hgoals & _). unfold goal_total_calories_needed.
  destruct (weight_goals db) as [|g0 others]; [reflexivity|].
  inversion Hgoals as [|? ? [_ Hg0] _]; subst. exact Hg0.
Qed.

(** The calorie total of the dashboard is never a NaN. *)
Lemma sum_calories_burned_not_nan (rows : list StepRecord.t) :
  is_nan (sum_calories_burned rows) = false.
Proof. apply or_float_sum_not_nan. Qed.


(** The totals over two records. *)
Lemma sum_two_records (r1 r2 : StepRecord.t) :
  stored_as_computed r1 -> stored_as_computed r2 ->
  in_int64 (StepRecord.steps r1) = true -> in_int64 (StepRecord.steps r2) = true ->
  sum_steps [r1; r2]
  = (if in_int64 (StepRecord.steps r1 + StepRecord.steps r2)
     then Ok (StepRecord.steps r1 + StepRecord.steps r2)
     else Raise (OperationalError "integer overflow"))
  /\ sum_distance_km [r1; r2]
     = add (StepRecord.distance_km r1) (StepRecord.distance_km r2)
  /\ sum_calories_burned [r1; r2]
     = add (StepRecord.calories_burned r1) (StepRecord.calories_burned r2).
Proof.
  intros H1 H2 Hs1 Hs2.
  destruct (calculate_moderate _ _ _ H1 Hs1) as [Hd1 Hc1].
  destruct (calculate_moderate _ _ _ H2 Hs2) as [Hd2 Hc2].
  split; [|split].
  - unfold sum_steps. rewrite func_sum_int_eq. cbn [map sum_int_from].
    rewrite Z.add_0_l, Hs1. reflexivity.
  - unfold sum_distance_km. cbn [map].
    rewrite (func_sum_float_pair _ _ Hd1 Hd2). apply or_float_number.
    apply add_number; [apply moderate_number; exact Hd1|apply moderate_number; exact Hd2
                      |apply moderate_finite; exact Hd2].
  - unfold sum_calories_burned. cbn [map].
    rewrite (func_sum_float_pair _ _ Hc1 Hc2). apply or_float_number.
    apply add_number; [apply moderate_number; exact Hc1|apply moderate_number; exact Hc2
                      |apply moderate_finite; exact Hc2].
Qed.

(** *** Division by a zero target *)

(** C6, as the code has it: when the goal row the dashboard reads has a
    zero [total_calories_needed], the dashboard returns no response.
    Nothing guards the division of the progress computation, which raises
    [ZeroDivisionError] whenever the totals query has succeeded; when the
    totals query fails, the dashboard fails with its error and the division
    is not reached. *)
Theorem get_dashboard_zero_target (now : datetime) (db : Store) (g : WeightGoal.t) :
  first (weight_goals db) = Some g ->
  eqb (WeightGoal.total_calories_needed g) zero = true ->
  (forall resp, snd (get_dashboard defaults now db) <> Ok resp)
  /\ (forall total_steps,
        sum_steps (step_records db) = Ok total_steps ->
        snd (get_dashboard defaults now db) = Raise ZeroDivisionError)
  /\ (forall e,
        sum_steps (step_records db) = Raise e ->
        snd (get_dashboard defaults now db)
        = Raise (OperationalError "integer overflow")).
Proof.
  intros Hg Hz.
  assert (Htcn : eqb (goal_total_calories_needed defaults db) zero = true).
  { unfold goal_total_calories_needed.
    destruct (weight_goals db) as [|g0 others]; [discriminate Hg|].
    injection Hg as ->. exact Hz. }
  assert (Hdiv : forall ts, sum_steps (step_records db) = Ok ts ->
            snd (get_dashboard defaults now db) = Raise ZeroDivisionError).
  { intros ts Ets. apply (get_dashboard_completes now db ts Ets). exact Htcn. }
  assert (Hsum : forall e, sum_steps (step_records db) = Raise e ->
            snd (get_dashboard defaults now db)
            = Raise (OperationalError "integer overflow")).
  { intros e Ee. destruct (get_dashboard_overflow now db e Ee) as [-> ->]. reflexivity. }
  split; [|split; [exact Hdiv|exact Hsum]].
  intros resp. destruct (sum_steps (step_records db)) as [ts|e].
  - rewrite (Hdiv ts eq_refl). discriminate.
  - rewrite (Hsum e eq_refl). discriminate.
Qed.

(** *** Deletion *)

(** C5, as the code has it: a key that is no 64-bit integer cannot be
    looked up, the handler raises [OverflowError] and the store stays as it
    was.  Deleting a 64-bit key that is not in the table answers with the
    not-found error and leaves the whole store as it was; deleting a key
    that is in the table removes the row carrying it, and that row only,
    leaves the goals as they were, and answers with the success message. *)
Theorem delete_step_record_spec (step_id : Z) (db : Store) :
  (in_int64 step_id = false ->
   delete_step_record step_id db = (db, Raise OverflowError))
  /\ (in_int64 step_id = true ->
      ~ In step_id (map StepRecord.id (step_records db)) ->
      delete_step_record step_id db
      = (db, Raise (HTTPException 404 "Step record not found")))
  /\ (in_int64 step_id = true ->
      In step_id (map StepRecord.id (step_records db)) ->
      exists before r after,
        step_records db = before ++ r :: after
        /\ StepRecord.id r = step_id
        /\ ~ In step_id (map StepRecord.id before)
        /\ delete_step_record step_id db
           = (mkStore (before ++ after) (weight_goals db),
              Ok "Step record deleted successfully"%string)
        /\ (NoDup (map StepRecord.id (step_records db)) ->
            ~ In step_id (map StepRecord.id (before ++ after)))).
Proof.
  split; [apply delete_step_record_overflow|].
  split; intros Hid Hin; pose proof (delete_step_record_inv step_id db Hid) as Hdel.
  - apply find_step_none in Hin. rewrite Hin in Hdel. exact Hdel.
  - destruct (find_step step_id (step_records db)) as [r|] eqn:E.
    + destruct (find_step_some _ _ _ E) as (before & after & Hrows & Hr & Hnot & Hrow).
      exists before, r, after. rewrite Hdel, Hrow.
      repeat split; try assumption.
      intros Hnd. rewrite <- Hrow. apply (delete_row_NoDup step_id _ Hnd).
    + apply find_step_none in E. contradiction.
Qed.

(** *** What adding steps leaves alone *)

(** C10: when a goal row exists, adding steps changes nothing in it but
    [calories_burned_so_far], which grows by the calories of the new record;
    the other goal rows and the step records already stored stay as they
    were, the new record coming last.  When the handler raises, the store is
    unchanged. *)
Theorem add_steps_frame (step_data : StepRecordCreate) (now : datetime) (db : Store)
    (g : WeightGoal.t) (others : list WeightGoal.t) :
  weight_goals db = g :: others ->
  match add_steps defaults step_data now db with
  | (db', Ok r) =>
      exists g',
        weight_goals db' = g' :: others
        /\ WeightGoal.calories_burned_so_far g'
           = add (WeightGoal.calories_burned_so_far g) (StepRecord.calories_burned r)
        /\ WeightGoal.id g' = WeightGoal.id g
        /\ WeightGoal.target_weight_loss_kg g' = WeightGoal.target_weight_loss_kg g
        /\ WeightGoal.total_calories_needed g' = WeightGoal.total_calories_needed g
        /\ WeightGoal.created_at g' = WeightGoal.created_at g
        /\ step_records db' = step_records db ++ [r]
  | (db', Raise _) => db' = db
  end.
Proof.
  intros Hgoals.
  destruct (add_steps defaults step_data now db) as [db' [r|e]] eqn:E.
  - destruct (add_steps_inv _ _ _ _ _ E) as (_ & _ & Hrows & Hg).
    rewrite Hgoals in Hg. eexists. split; [exact Hg|].
    repeat split; try reflexivity. exact Hrows.
  - apply (add_steps_raise _ _ _ _ _ E).
Qed.

(** *** The cached total *)


(** *** The stored relation between distance and calories *)

(** C9, as the code has it: every record created by [add_steps] satisfies
    [calories_burned = distance_km / 5.0 * 700], computed in this order, and
    so does every record of every reachable store. *)
Theorem stored_calories_relation :
  (forall step_data now db db' r,
     add_steps defaults step_data now db = (db', Ok r) ->
     StepRecord.calories_burned r
     = mul (div (StepRecord.distance_km r) (lit 5)) (lit 700))
  /\ (forall db,
        reachable defaults db ->
        Forall (fun r => StepRecord.calories_burned r
                         = mul (div (StepRecord.distance_km r) (lit 5)) (lit 700))
               (step_records db)).
Proof.
  assert (Hrel : forall r, stored_as_computed r ->
            StepRecord.calories_burned r
            = mul (div (StepRecord.distance_km r) (lit 5)) (lit 700)).
  { intros r Hr. apply (calculate_relation (StepRecord.steps r)). exact Hr. }
  split.
  - intros step_data now db db' r E.
    apply Hrel. apply (add_steps_inv _ _ _ _ _ E).
  - intros db Hreach.
    destruct (reachable_consistent db Hreach) as (Hrows & _).
    apply Forall_forall. intros r Hr. apply Hrel.
    apply (proj1 (Forall_forall _ _) Hrows r Hr).
Qed.

(** *** The clamps of the dashboard *)






Lemma min_clamps (x y : float) : ltb y x = true -> min x y = y.
Proof. intros H. unfold min. rewrite H. reflexivity. Qed.

Lemma min_keeps (x y : float) : ltb y x = false -> min x y = x.
Proof. intros H. unfold min. rewrite H. reflexivity. Qed.

Lemma min_not_above (x y : float) : ltb y y = false -> ltb y (min x y) = false.
Proof.
  intros Hy. unfold min. destruct (ltb y x) eqn:E; [exact Hy|exact E].
Qed.

Lemma min_le (x y : float) :
  is_nan x = false -> is_nan y = false -> leb (min x y) y = true.
Proof.
  intros Hx Hy. unfold min. destruct (ltb y x) eqn:E.
  - apply not_ltb_leb; try exact Hy.
    unfold ltb, SFltb. pose proof (SFcompare_antisym y y) as Ha.
    destruct (SFcompare y y) as [[]|]; try reflexivity; discriminate Ha.
  - apply not_ltb_leb; assumption.
Qed.

(** A negative value is below 100, so [min] lets it through. *)
Lemma negative_below_100 (x : float) : ltb x zero = true -> ltb (lit 100) x = false.
Proof.
  destruct x as [s|s| |s m e]; try discriminate; destruct s; try discriminate;
    intros _; reflexivity.
Qed.

Lemma min_nonneg (x y : float) :
  leb zero y = true -> leb zero x = true -> leb zero (min x y) = true.
Proof. intros Hy Hx. unfold min. destruct (ltb y x); assumption. Qed.

Lemma min_100_negative (x : float) :
  ltb x zero = true -> ltb (min x (lit 100)) zero = true.
Proof. intros Hx. rewrite (min_keeps _ _ (negative_below_100 x Hx)). exact Hx. Qed.


(** C2, as the code has it: when the dashboard completes,
    [progress_percentage] is
    [min(calories_burned_so_far / total_calories_needed * 100, 100)]: it is
    never above 100, and it is 100 when the unclamped value exceeds 100;
    there is no clamp at zero, so it is at least zero when the unclamped
    value is, and negative when the unclamped value is. *)
Theorem progress_percentage_clamped (now : datetime) (db db' : Store)
    (resp : DashboardResponse) :
  get_dashboard defaults now db = (db', Ok resp) ->
  let unclamped :=
    mul (div (wg_calories_burned_so_far (weight_goal resp))
             (wg_total_calories_needed (weight_goal resp))) (lit 100) in
  progress_percentage (weight_goal resp) = min unclamped (lit 100)
  /\ ltb (lit 100) (progress_percentage (weight_goal resp)) = false
  /\ (is_nan unclamped = false ->
      leb (progress_percentage (weight_goal resp)) (lit 100) = true)
  /\ (ltb (lit 100) unclamped = true ->
      progress_percentage (weight_goal resp) = lit 100)
  /\ (leb zero unclamped = true ->
      leb zero (progress_percentage (weight_goal resp)) = true)
  /\ (ltb unclamped zero = true ->
      ltb (progress_percentage (weight_goal resp)) zero = true).
Proof.
  intros E.
  destruct (get_dashboard_response now db db' resp E)
    as (g & _ & _ & _ & _ & _ & _ & _ & _ & Hwg).
  rewrite Hwg.
  cbn [wg_total_calories_needed wg_calories_burned_so_far progress_percentage].
  set (x := mul (div (WeightGoal.calories_burned_so_far g)
                     (WeightGoal.total_calories_needed g)) (lit 100)).
  split; [reflexivity|]. split; [apply min_not_above; reflexivity|].
  split; [intros Hx; apply min_le; [exact Hx|reflexivity]|].
  split; [intros Hx; apply min_clamps; exact Hx|].
  split; [intros Hx; apply min_nonneg; [reflexivity|exact Hx]|].
  apply min_100_negative.
Qed.

(** *** The totals of the dashboard *)

Lemma add_steps_keeps_target (step_data : StepRecordCreate) (now : datetime)
    (db db' : Store) (r : StepRecord.t) :
  add_steps defaults step_data now db = (db', Ok r) ->
  goal_total_calories_needed defaults db' = goal_total_calories_needed defaults db.
Proof.
  intros E. destruct (add_steps_inv _ _ _ _ _ E) as (_ & _ & _ & Hgoals).
  unfold goal_total_calories_needed. rewrite Hgoals.
  destruct (weight_goals db); reflexivity.
Qed.

(** C4, as the code has it: from a store without step records, adding
    [s1] steps and then [s2] steps succeeds when the two counts are 64-bit
    integers, and the dashboard, which answers when [s1 + s2] is one as well
    and the target is not zero, then reports [total_steps = s1 + s2],
    [total_calories_burned = calories(s1) + calories(s2)] and the like for
    the distance; when [s1 + s2] is no 64-bit integer the dashboard fails.
    Without step records the three totals are [0], [0.0] and [0.0]. *)
Theorem dashboard_totals_after_two_adds :
  (forall (s1 s2 : Z) (t1 t2 t3 : datetime) (db0 : Store),
     step_records db0 = [] ->
     in_int64 s1 = true -> in_int64 s2 = true ->
     exists d1 c1 d2 c2 db1 r1 db2 r2,
       calculate_distance_and_calories s1 = Ok (d1, c1)
       /\ calculate_distance_and_calories s2 = Ok (d2, c2)
       /\ add_steps defaults (mkStepRecordCreate s1) t1 db0 = (db1, Ok r1)
       /\ add_steps defaults (mkStepRecordCreate s2) t2 db1 = (db2, Ok r2)
       /\ (in_int64 (s1 + s2) = true ->
           eqb (goal_total_calories_needed defaults db0) zero = false ->
           exists db3 resp,
             get_dashboard defaults t3 db2 = (db3, Ok resp)
             /\ total_steps resp = s1 + s2
             /\ total_distance_km resp = add d1 d2
             /\ total_calories_burned resp = add c1 c2)
       /\ (in_int64 (s1 + s2) = false ->
           get_dashboard defaults t3 db2
           = (db2, Raise (OperationalError "integer overflow"))))
  /\ (forall (now : datetime) (db db' : Store) (resp : DashboardResponse),
        step_records db = [] ->
        get_dashboard defaults now db = (db', Ok resp) ->
        total_steps resp = 0
        /\ total_distance_km resp = zero
        /\ total_calories_burned resp = zero).
Proof.
  split.
  - intros s1 s2 t1 t2 t3 db0 Hempty Hs1 Hs2.
    destruct (add_steps_succeeds (mkStepRecordCreate s1) t1 db0 Hs1)
      as (db1 & r1 & d1 & c1 & E1 & Hc1 & Hd1 & Hcal1).
    destruct (add_steps_succeeds (mkStepRecordCreate s2) t2 db1 Hs2)
      as (db2 & r2 & d2 & c2 & E2 & Hc2 & Hd2 & Hcal2).
    cbn [create_steps] in Hc1, Hc2.
    exists d1, c1, d2, c2, db1, r1, db2, r2.
    split; [exact Hc1|]. split; [exact Hc2|]. split; [exact E1|]. split; [exact E2|].
    destruct (add_steps_inv _ _ _ _ _ E1) as (Hr1 & (_ & Hst1 & _) & Hrows1 & _).
    destruct (add_steps_inv _ _ _ _ _ E2) as (Hr2 & (_ & Hst2 & _) & Hrows2 & _).
    rewrite Hempty in Hrows1. rewrite Hrows1 in Hrows2.
    cbn [app create_steps] in Hrows2, Hst1, Hst2.
    destruct (sum_two_records r1 r2 Hr1 Hr2) as (Hsum & Hdist & Hcal);
      [rewrite Hst1; exact Hs1|rewrite Hst2; exact Hs2|].
    rewrite Hst1, Hst2 in Hsum. rewrite Hd1, Hd2 in Hdist. rewrite Hcal1, Hcal2 in Hcal.
    rewrite <- Hrows2 in Hsum, Hdist, Hcal.
    split.
    + intros Hs12 Htcn. rewrite Hs12 in Hsum.
      assert (Htcn2 : eqb (goal_total_calories_needed defaults db2) zero = false).
      { rewrite (add_steps_keeps_target _ _ _ _ _ E2).
        rewrite (add_steps_keeps_target _ _ _ _ _ E1). exact Htcn. }
      destruct (proj1 (get_dashboard_completes t3 db2 _ Hsum) Htcn2) as [resp Hresp].
      exists (fst (get_dashboard defaults t3 db2)), resp.
      assert (E3 : get_dashboard defaults t3 db2
                   = (fst (get_dashboard defaults t3 db2), Ok resp)).
      { rewrite <- Hresp. apply surjective_pairing. }
      split; [exact E3|].
      destruct (get_dashboard_response _ _ _ _ E3)
        as (_ & _ & _ & _ & _ & Hts & -> & -> & _).
      rewrite Hsum in Hts. injection Hts as <-.
      split; [reflexivity|]. split; assumption.
    + intros Hs12. rewrite Hs12 in Hsum.
      apply (get_dashboard_overflow t3 db2 _ Hsum).
  - intros now db db' resp Hempty E.
    destruct (get_dashboard_response _ _ _ _ E)
      as (_ & _ & _ & _ & _ & Hts & -> & -> & _).
    rewrite Hempty in Hts |- *. cbn in Hts. injection Hts as <-. repeat split.
Qed.

(** *** Listing the step records *)

Lemma insert_desc_Permutation (r : StepRecord.t) (rows : list StepRecord.t) :
  Permutation (insert_desc r rows) (r :: rows).
Proof.
  induction rows as [|x rows IH]; cbn [insert_desc]; [reflexivity|].
  destruct (StepRecord.created_at x <=? StepRecord.created_at r); [reflexivity|].
  rewrite IH. apply perm_swap.
Qed.

Lemma order_by_created_at_desc_Permutation (rows : list StepRecord.t) :
  Permutation (order_by_created_at_desc rows) rows.
Proof.
  unfold order_by_created_at_desc.
  induction rows as [|r rows IH]; cbn [fold_right]; [reflexivity|].
  rewrite insert_desc_Permutation. constructor. exact IH.
Qed.

Lemma insert_desc_newest_first (r : StepRecord.t) (rows : list StepRecord.t) :
  newest_first rows -> newest_first (insert_desc r rows).
Proof.
  unfold newest_first.
  induction rows as [|x rows IH]; cbn [insert_desc]; intros Hs.
  - constructor; constructor.
  - inversion Hs as [|? ? Hrest Hx]; subst.
    destruct (Z.leb_spec (StepRecord.created_at x) (StepRecord.created_at r)) as [Hle|Hgt].
    + constructor; [exact Hs|]. constructor; [cbn beta; lia|].
      apply Forall_forall. intros y Hy.
      pose proof (proj1 (Forall_forall _ _) Hx y Hy) as Hxy. cbn beta in Hxy |- *. lia.
    + constructor; [apply IH; exact Hrest|].
      apply Forall_forall. intros y Hy.
      apply (Permutation_in _ (insert_desc_Permutation r rows)) in Hy.
      destruct Hy as [<-|Hy]; [cbn beta; lia|].
      apply (proj1 (Forall_forall _ _) Hx y Hy).
Qed.

Lemma order_by_created_at_desc_newest_first (rows : list StepRecord.t) :
  newest_first (order_by_created_at_desc rows).
Proof.
  unfold order_by_created_at_desc.
  induction rows as [|r rows IH]; cbn [fold_right]; [constructor|].
  apply insert_desc_newest_first. exact IH.
Qed.


End HandlerProperties.

(** ** Examples *)

Lemma example_store_reachable : reachable example_defaults example_store.
Proof.
  exact (reachable_serve example_defaults (AddSteps (mkStepRecordCreate 10000)) 1
           empty_store (reachable_empty example_defaults)).
Qed.

Lemma negative_store_reachable : reachable example_defaults negative_store.
Proof.
  exact (reachable_serve example_defaults (AddSteps (mkStepRecordCreate (-10000))) 1
           empty_store (reachable_empty example_defaults)).
Qed.



(** C2 as stated fails: after a request for -10000 steps the dashboard
    reports a progress of about -2.77, below zero. *)
Lemma progress_percentage_negative :
  exists db' resp,
    get_dashboard example_defaults 2 negative_store = (db', Ok resp)
    /\ progress_percentage (weight_goal resp)
       = S754_finite true 6239532574647851 (-51)
    /\ ltb (progress_percentage (weight_goal resp)) zero = true
    /\ leb zero (progress_percentage (weight_goal resp)) = false.
Proof.
  eexists. eexists. split; [vm_compute; reflexivity|].
  split; [reflexivity|]. split; reflexivity.
Qed.

Lemma progress_percentage_clamped_witness :
  exists db' resp,
    get_dashboard example_defaults 2 example_store = (db', Ok resp)
    /\ ltb (lit 100) (progress_percentage (weight_goal resp)) = false
    /\ leb zero (progress_percentage (weight_goal resp)) = true.
Proof.
  destruct (get_dashboard example_defaults 2 example_store) as [db' [resp|e]] eqn:E.
  - exists db', resp. split; [reflexivity|].
    destruct (progress_percentage_clamped example_defaults 2 example_store db' resp E)
      as (Hmin & Hle & _ & _ & Hpos & _).
    split; [exact Hle|]. apply Hpos.
    vm_compute in E. injection E as _ <-. vm_compute. reflexivity.
  - vm_compute in E. discriminate E.
Defined.




(** C4 as stated fails: after two requests for [2 ^ 62] steps the dashboard
    reports no total at all, the sum of the step counts is no 64-bit
    integer. *)
Lemma dashboard_totals_overflow :
  exists db1 r1 db2 r2,
    add_steps example_defaults (mkStepRecordCreate (2 ^ 62)) 1 empty_store = (db1, Ok r1)
    /\ add_steps example_defaults (mkStepRecordCreate (2 ^ 62)) 2 db1 = (db2, Ok r2)
    /\ get_dashboard example_defaults 3 db2
       = (db2, Raise (OperationalError "integer overflow"))
    /\ forall db3 resp, get_dashboard example_defaults 3 db2 <> (db3, Ok resp).
Proof.
  do 4 eexists. split; [vm_compute; reflexivity|]. split; [vm_compute; reflexivity|].
  split; [vm_compute; reflexivity|]. intros db3 resp H. vm_compute in H. discriminate H.
Qed.

Lemma dashboard_totals_after_two_adds_witness :
  exists db1 r1 db2 r2 db3 resp,
    add_steps example_defaults (mkStepRecordCreate 10000) 1 empty_store = (db1, Ok r1)
    /\ add_steps example_defaults (mkStepRecordCreate 5000) 2 db1 = (db2, Ok r2)
    /\ get_dashboard example_defaults 3 db2 = (db3, Ok resp)
    /\ total_steps resp = 15000
    /\ total_calories_burned resp
       = add (StepRecord.calories_burned r1) (StepRecord.calories_burned r2).
Proof.
  destruct (proj1 (dashboard_totals_after_two_adds example_defaults)
              10000 5000 1 2 3 empty_store eq_refl eq_refl eq_refl)
    as (d1 & c1 & d2 & c2 & db1 & r1 & db2 & r2 & E1 & E2 & A1 & A2 & Hdash & _).
  destruct (Hdash eq_refl ltac:(vm_compute; reflexivity))
    as (db3 & resp & A3 & Hsteps & _ & Hcal).
  exists db1, r1, db2, r2, db3, resp.
  split; [exact A1|]. split; [exact A2|]. split; [exact A3|]. split; [exact Hsteps|].
  rewrite Hcal.
  destruct (add_steps_inv _ _ _ _ _ _ A1) as (H1 & (_ & Hs1 & _) & _).
  destruct (add_steps_inv _ _ _ _ _ _ A2) as (H2 & (_ & Hs2 & _) & _).
  unfold stored_as_computed in H1, H2. rewrite Hs1 in H1. rewrite Hs2 in H2.
  cbn [create_steps] in H1, H2. rewrite E1 in H1. rewrite E2 in H2.
  injection H1 as _ <-. injection H2 as _ <-. reflexivity.
Defined.

(** C5 as stated fails: [2 ^ 63] is the key of no record, and deleting it
    does not answer with the not-found error: the lookup raises
    [OverflowError]. *)
Lemma delete_step_record_out_of_range :
  ~ In (2 ^ 63) (map StepRecord.id (step_records example_store))
  /\ delete_step_record (2 ^ 63) example_store = (example_store, Raise OverflowError)
  /\ delete_step_record (2 ^ 63) example_store
     <> (example_store, Raise (HTTPException 404 "Step record not found")).
Proof.
  split; [vm_compute; intros [H|[]]; discriminate H|].
  split; [vm_compute; reflexivity|]. vm_compute. discriminate.
Qed.

Lemma delete_step_record_spec_witness :
  delete_step_record 7 example_store
  = (example_store, Raise (HTTPException 404 "Step record not found"))
  /\ delete_step_record (- 2 ^ 63 - 1) example_store = (example_store, Raise OverflowError)
  /\ exists r,
       step_records example_store = [r]
       /\ delete_step_record 1 example_store
          = (mkStore [] (weight_goals example_store),
             Ok "Step record deleted successfully"%string).
Proof.
  destruct (delete_step_record_spec 7 example_store) as (_ & Habsent & _).
  destruct (delete_step_record_spec (- 2 ^ 63 - 1) example_store) as (Hout & _).
  destruct (delete_step_record_spec 1 example_store) as (_ & _ & Hpresent).
  split; [|split].
  - apply Habsent; [reflexivity|]. vm_compute. intros [H|[]]. discriminate H.
  - apply Hout. reflexivity.
  - destruct Hpresent as (before & r & after & Hrows & _ & _ & Hdel & _).
    + reflexivity.
    + vm_compute. left. reflexivity.
    + destruct before as [|x before].
      * exists r. cbn [app] in Hrows, Hdel.
        assert (Hafter : after = []).
        { apply (f_equal (@List.length _)) in Hrows. vm_compute in Hrows.
          destruct after; [reflexivity|discriminate Hrows]. }
        subst after. split; [exact Hrows|exact Hdel].
      * exfalso. apply (f_equal (@List.length _)) in Hrows.
        rewrite length_app in Hrows. vm_compute in Hrows.
        destruct before; discriminate Hrows.
Defined.

(** C6 as stated fails on a store with a zero target whose step counts sum
    to more than 64 bits: the totals query fails and the division by zero is
    never performed. *)
Lemma get_dashboard_zero_target_no_division :
  reachable zero_target_defaults zero_target_full_store
  /\ (exists g,
        first (weight_goals zero_target_full_store) = Some g
        /\ eqb (WeightGoal.total_calories_needed g) zero = true)
  /\ get_dashboard zero_target_defaults 3 zero_target_full_store
     = (zero_target_full_store, Raise (OperationalError "integer overflow"))
  /\ snd (get_dashboard zero_target_defaults 3 zero_target_full_store)
     <> Raise ZeroDivisionError.
Proof.
  split; [unfold zero_target_full_store; repeat apply reachable_serve;
          apply reachable_empty|].
  split; [eexists; split; vm_compute; reflexivity|].
  split; [vm_compute; reflexivity|]. vm_compute. discriminate.
Qed.

Lemma get_dashboard_zero_target_witness :
  first (weight_goals zero_target_store) = Some (WeightGoal.mk 1 (lit 5) zero zero 0)
  /\ snd (get_dashboard example_defaults 2 zero_target_store) = Raise ZeroDivisionError
  /\ forall resp, snd (get_dashboard example_defaults 2 zero_target_store) <> Ok resp.
Proof.
  split; [reflexivity|].
  destruct (get_dashboard_zero_target example_defaults 2 zero_target_store
              (WeightGoal.mk 1 (lit 5) zero zero 0) eq_refl eq_refl)
    as (Hnone & Hdiv & _).
  split; [apply (Hdiv 0); reflexivity|exact Hnone].
Defined.



(** C9 as stated fails on its second form: for 3 steps the stored
    [calories_burned], [0.762 * 3 / 1000 / 5.0 * 700], is not the float
    [distance_km * 140]. *)
Lemma stored_calories_not_distance_times_140 :
  exists db' r,
    add_steps example_defaults (mkStepRecordCreate 3) 1 empty_store = (db', Ok r)
    /\ StepRecord.calories_burned r = S754_finite false 5765328098974613 (-54)
    /\ mul (StepRecord.distance_km r) (lit 140) = S754_finite false 5765328098974614 (-54)
    /\ eqb (StepRecord.calories_burned r) (mul (StepRecord.distance_km r) (lit 140)) = false
    /\ StepRecord.calories_burned r <> mul (StepRecord.distance_km r) (lit 140).
Proof.
  eexists. eexists. split; [vm_compute; reflexivity|].
  split; [reflexivity|]. split; [vm_compute; reflexivity|].
  split; [vm_compute; reflexivity|]. vm_compute. discriminate.
Qed.

Lemma stored_calories_relation_witness :
  exists db' r,
    add_steps example_defaults (mkStepRecordCreate 3) 1 empty_store = (db', Ok r)
    /\ StepRecord.calories_burned r
       = mul (div (StepRecord.distance_km r) (lit 5)) (lit 700)
    /\ Forall (fun r => StepRecord.calories_burned r
                        = mul (div (StepRecord.distance_km r) (lit 5)) (lit 700))
              (step_records example_store).
Proof.
  destruct (stored_calories_relation example_defaults) as [Hnew Hall].
  destruct (add_steps example_defaults (mkStepRecordCreate 3) 1 empty_store)
    as [db' [r|e]] eqn:E; [|vm_compute in E; discriminate E].
  exists db', r. split; [reflexivity|]. split.
  - apply (Hnew _ _ _ _ _ E).
  - apply Hall. exact example_store_reachable.
Defined.

Lemma add_steps_frame_witness :
  exists g db' r g',
    weight_goals example_store = [g]
    /\ add_steps example_defaults (mkStepRecordCreate 5000) 2 example_store = (db', Ok r)
    /\ weight_goals db' = [g']
    /\ WeightGoal.calories_burned_so_far g'
       = add (WeightGoal.calories_burned_so_far g) (StepRecord.calories_burned r)
    /\ WeightGoal.total_calories_needed g' = WeightGoal.total_calories_needed g
    /\ step_records db' = step_records example_store ++ [r].
Proof.
  destruct (weight_goals example_store) as [|g [|g2 others]] eqn:Eg;
    [vm_compute in Eg; discriminate Eg| |vm_compute in Eg; discriminate Eg].
  pose proof (add_steps_frame example_defaults (mkStepRecordCreate 5000) 2
                example_store g [] Eg) as Hframe.
  destruct (add_steps example_defaults (mkStepRecordCreate 5000) 2 example_store)
    as [db' [r|e]] eqn:E.
  - destruct Hframe as (g' & Hg' & Hsum & _ & _ & Htcn & _ & Hrows).
    exists g, db', r, g'. repeat split; assumption.
  - exfalso. apply add_steps_raise in E. destruct E as (_ & _ & E).
    vm_compute in E. discriminate E.
Defined.

(** ** Further properties of the conversion function *)

(** *** Which step counts convert *)

(** X1: the conversion function raises nothing but [OverflowError], and it
    raises exactly when the step count does not convert to a float: never
    below the greatest finite float in absolute value, always from
    [2 ^ 1024] on.  Its two divisions never raise. *)
Theorem calculate_distance_and_calories_errors (s : Z) :
  (forall e, calculate_distance_and_calories s = Raise e -> e = OverflowError)
  /\ (calculate_distance_and_calories s = Raise OverflowError
      <-> of_int s = Raise OverflowError)
  /\ (Z.abs s < max_mantissa * 2 ^ 971 ->
      calculate_distance_and_calories s <> Raise OverflowError)
  /\ (2 ^ 1024 <= Z.abs s ->
      calculate_distance_and_calories s = Raise OverflowError).
Proof.
  split; [apply calculate_raises|]. split; [|split].
  - rewrite calculate_unfold. destruct (of_int s) as [f|e].
    + split; discriminate.
    + split; intros H; injection H as ->; reflexivity.
  - intros Hs. rewrite calculate_unfold.
    destruct (of_int_succeeds s Hs) as [f ->]. discriminate.
  - intros Hs. rewrite calculate_unfold, (of_int_overflow s Hs). reflexivity.
Qed.

Lemma calculate_distance_and_calories_errors_witness :
  calculate_distance_and_calories (10 ^ 308) <> Raise OverflowError
  /\ calculate_distance_and_calories (- 10 ^ 309) = Raise OverflowError.
Proof.
  destruct (calculate_distance_and_calories_errors (10 ^ 308)) as (_ & _ & Hok & _).
  destruct (calculate_distance_and_calories_errors (- 10 ^ 309)) as (_ & _ & _ & Hko).
  split; [apply Hok|apply Hko]; vm_compute; first [reflexivity|discriminate].
Defined.

(** *** Sign and finiteness of the results *)

(** A nonzero integer converts to a finite nonzero float of its sign. *)
Lemma of_int_finite (s : Z) (f : float) :
  of_int s = Ok f -> s <> 0 -> exists m e, f = S754_finite (s <? 0) m e.
Proof.
  unfold of_int, round_int, binary_normalize. intros Hf Hs.
  assert (Hd : forall p, -1074 < Zdigits2 (Zpos p) + 0) by (intros p; simpl; lia).
  destruct s as [|p|p]; [contradiction| |].
  - pose proof (binary_round_in_range false p 0 (Hd p)) as Hr.
    destruct (binary_round prec emax false p 0) as [s'|s'| |s' m' e'];
      try contradiction; try discriminate.
    injection Hf as <-. destruct Hr as [-> _]. exists m', e'. reflexivity.
  - pose proof (binary_round_in_range true p 0 (Hd p)) as Hr.
    destruct (binary_round prec emax true p 0) as [s'|s'| |s' m' e'];
      try contradiction; try discriminate.
    injection Hf as <-. destruct Hr as [-> _]. exists m', e'. reflexivity.
Qed.

(** The product of a finite nonzero float in range by a positive constant is
    finite, nonzero and of the same sign. *)
Lemma mul_finite (k b eb : Z) (s : bool) (m : positive) (e : Z)
    (my : positive) (ey k' b' eb' : Z) :
  in_range k b eb (S754_finite s m e) ->
  k' <= k + Zdigits2 (Zpos my) + ey - 1 -> -1074 < k' ->
  0 < b' < 2 ^ 53 -> -1074 <= eb' <= 971 -> eb + ey <= eb' -> 0 < b ->
  b * Zpos my < b' * 2 ^ (eb' - ey - eb) ->
  exists m' e', mul (S754_finite s m e) (S754_finite false my ey) = S754_finite s m' e'.
Proof.
  intros Hx Hk Hk' Hb' Heb' Hey Hb Hlt.
  pose proof (mul_in_range k b eb _ my ey k' b' eb' Hx Hk Hk' Hb' Heb' Hey Hb Hlt) as Hr.
  cbn [in_range] in Hx. destruct Hx as (_ & _ & _ & Hmag).
  unfold mul, SFmul in *.
  pose proof (binary_round_aux_canonical (xorb s false) (Zpos (m * my)) (e + ey)
                loc_Exact ltac:(lia)) as Hcan.
  pose proof (Zdigits2_mul_lower m my) as Hd.
  destruct (binary_round_aux prec emax (xorb s false) (Zpos (m * my)) (e + ey) loc_Exact)
    as [s'|s'| |s' m' e']; try contradiction.
  - destruct Hcan as [_ Hcan]. specialize (Hcan ltac:(lia)). lia.
  - destruct Hcan as (-> & _). rewrite xorb_false_r. exists m', e'. reflexivity.
Qed.

(** The quotient computed before rounding is positive and keeps the
    magnitude of the exact quotient. *)
Lemma div_core_positive (m my : positive) (e ey : Z) :
  -1074 < Zdigits2 (Zpos m) + e - (Zdigits2 (Zpos my) + ey) ->
  let e' := Z.min (fexp prec emax (Zdigits2 (Zpos m) + e - (Zdigits2 (Zpos my) + ey)))
                  (e - ey) in
  let q := Zpos m * 2 ^ (e - ey - e') / Zpos my in
  0 < q /\ Zdigits2 (Zpos m) + e - (Zdigits2 (Zpos my) + ey) <= Zdigits2 q + e'.
Proof.
  intros Hmag e' q.
  set (dx := Zdigits2 (Zpos m)) in *. set (dy := Zdigits2 (Zpos my)) in *.
  assert (Hdxpos : 0 < dx) by (unfold dx; simpl; lia).
  assert (Hdypos : 0 < dy) by (unfold dy; simpl; lia).
  assert (He' : 0 <= e - ey - e' /\ 0 <= dx - 1 + (e - ey - e') - dy).
  { unfold e'. rewrite fexp_eq. lia. }
  destruct He' as (Hs & Hexp).
  assert (Hps : 0 < 2 ^ (e - ey - e')) by (apply Z.pow_pos_nonneg; lia).
  assert (Hq0 : 0 <= q) by (unfold q; apply Z.div_pos; lia).
  assert (Hqlow : 2 ^ (dx - 1 + (e - ey - e') - dy) <= q).
  { unfold q. apply Z.div_le_lower_bound; [lia|].
    pose proof (Zdigits2_lower (Zpos m) ltac:(lia)) as Hlow. fold dx in Hlow.
    destruct (Zdigits2_upper (Zpos my) ltac:(lia)) as [Hup|H0]; [|lia]. fold dy in Hup.
    apply Z.le_trans with (2 ^ (dx - 1) * 2 ^ (e - ey - e')).
    - replace (2 ^ (dx - 1) * 2 ^ (e - ey - e'))
        with (2 ^ dy * 2 ^ (dx - 1 + (e - ey - e') - dy)).
      + apply Z.mul_le_mono_nonneg_r; [apply Z.pow_nonneg; lia|lia].
      + rewrite <- !Z.pow_add_r by lia. f_equal. lia.
    - apply Z.mul_le_mono_nonneg_r; [lia|exact Hlow]. }
  assert (Hpow : 0 < 2 ^ (dx - 1 + (e - ey - e') - dy)) by (apply Z.pow_pos_nonneg; lia).
  split; [lia|].
  destruct (Zdigits2_upper q Hq0) as [Hup|H0]; [|lia].
  assert (Hlt' : 2 ^ (dx - 1 + (e - ey - e') - dy) < 2 ^ Zdigits2 q) by lia.
  apply Z.pow_lt_mono_r_iff in Hlt'; [lia|lia|apply Zdigits2_nonneg].
Qed.

(** The quotient of a finite nonzero float in range by a positive constant
    is finite, nonzero and of the same sign. *)
Lemma div_finite (k b eb : Z) (s : bool) (m : positive) (e : Z)
    (my : positive) (ey k' b' eb' : Z) :
  in_range k b eb (S754_finite s m e) ->
  k' <= k - (Zdigits2 (Zpos my) + ey) -> -1074 < k' ->
  0 < b' < 2 ^ 53 -> -1074 <= eb' <= 971 -> 0 < b < 2 ^ 53 ->
  eb - (Zdigits2 (Zpos my) + ey) <= eb' -> eb' <= eb - ey ->
  b * 2 ^ (eb - ey - eb') < Zpos my * b' ->
  exists m' e', div (S754_finite s m e) (S754_finite false my ey) = S754_finite s m' e'.
Proof.
  intros Hx Hk Hk' Hb' Heb' Hb Hey Hey' Hlt.
  pose proof (div_in_range k b eb _ my ey k' b' eb' Hx Hk Hk' Hb' Heb' Hb Hey Hey' Hlt)
    as Hr.
  cbn [in_range] in Hx. destruct Hx as (_ & _ & _ & Hmag).
  unfold div, SFdiv in *.
  destruct (SFdiv_core_binary_spec m my e ey) as [l Hcore].
  rewrite Hcore in *. clear Hcore.
  destruct (div_core_positive m my e ey ltac:(lia)) as [Hqpos Hdq].
  pose proof (binary_round_aux_canonical (xorb s false)
                (Zpos m * 2 ^ (e - ey - Z.min (fexp prec emax
                   (Zdigits2 (Zpos m) + e - (Zdigits2 (Zpos my) + ey))) (e - ey))
                 / Zpos my)
                (Z.min (fexp prec emax
                   (Zdigits2 (Zpos m) + e - (Zdigits2 (Zpos my) + ey))) (e - ey))
                l ltac:(lia)) as Hcan.
  destruct (binary_round_aux prec emax (xorb s false) _ _ l)
    as [s'|s'| |s' m' e'']; try contradiction.
  - destruct Hcan as [_ Hcan]. specialize (Hcan Hqpos). lia.
  - destruct Hcan as (-> & _). rewrite xorb_false_r. exists m', e''. reflexivity.
Qed.

Lemma calculate_zero : calculate_distance_and_calories 0 = Ok (zero, zero).
Proof. vm_compute. reflexivity. Qed.

Lemma calculate_sign (s : Z) (d c : float) :
  calculate_distance_and_calories s = Ok (d, c) -> s <> 0 ->
  exists md ed mc ec,
    d = S754_finite (s <? 0) md ed /\ c = S754_finite (s <? 0) mc ec.
Proof.
  rewrite calculate_unfold. destruct (of_int s) as [f|e] eqn:Ef; [|discriminate].
  intros H Hs. injection H as <- <-.
  destruct (of_int_finite s f Ef Hs) as (m0 & e0 & ->).
  destruct (of_int_in_range s _ Ef) as (Hf & _).
  unfold distance_km_of, calories_of.
  rewrite lit_1000_eq, lit_5_eq, lit_700_eq. unfold lit_0_762.
  set (sg := s <? 0) in *.
  assert (F1 : exists m' e',
             mul (S754_finite sg m0 e0) (S754_finite false 6863485832112636 (-53))
             = S754_finite sg m' e').
  { apply (mul_finite 1 max_mantissa 971 sg m0 e0 6863485832112636 (-53)
             0 mantissa_0_762 971); [exact Hf|..]; closed_arith. }
  assert (R1 : in_range 0 mantissa_0_762 971
                 (mul (S754_finite sg m0 e0) (S754_finite false 6863485832112636 (-53)))).
  { apply (mul_in_range 1 max_mantissa 971); [exact Hf|..]; closed_arith. }
  destruct F1 as (m1 & e1 & E1). rewrite E1 in R1 |- *.
  assert (F2 : exists m' e',
             div (S754_finite sg m1 e1) (S754_finite false 8796093022208000 (-43))
             = S754_finite sg m' e').
  { apply (div_finite 0 mantissa_0_762 971 sg m1 e1 8796093022208000 (-43)
             (-10) mantissa_0_762 962); [exact R1|..]; closed_arith. }
  assert (R2 : in_range (-10) mantissa_0_762 962
                 (div (S754_finite sg m1 e1) (S754_finite false 8796093022208000 (-43)))).
  { apply (div_in_range 0 mantissa_0_762 971); [exact R1|..]; closed_arith. }
  destruct F2 as (m2 & e2 & E2). rewrite E2 in R2 |- *.
  assert (F3 : exists m' e',
             div (S754_finite sg m2 e2) (S754_finite false 5629499534213120 (-50))
             = S754_finite sg m' e').
  { apply (div_finite (-10) mantissa_0_762 962 sg m2 e2 5629499534213120 (-50)
             (-13) mantissa_0_762 960); [exact R2|..]; closed_arith. }
  assert (R3 : in_range (-13) mantissa_0_762 960
                 (div (S754_finite sg m2 e2) (S754_finite false 5629499534213120 (-50)))).
  { apply (div_in_range (-10) mantissa_0_762 962); [exact R2|..]; closed_arith. }
  destruct F3 as (m3 & e3 & E3). rewrite E3 in R3 |- *.
  assert (F4 : exists m' e',
             mul (S754_finite sg m3 e3) (S754_finite false 6157265115545600 (-43))
             = S754_finite sg m' e').
  { apply (mul_finite (-13) mantissa_0_762 960 sg m3 e3 6157265115545600 (-43)
             (-4) mantissa_0_762 970); [exact R3|..]; closed_arith. }
  destruct F4 as (m4 & e4 & E4). rewrite E4.
  exists m2, e2, m4, e4. split; reflexivity.
Qed.

(** X2: both results of the conversion function are finite floats; they
    are strictly positive for a positive step count, strictly negative for
    a negative one (no rounding takes them to zero), and [0.0] for zero. *)
Theorem calculate_distance_and_calories_sign (s : Z) (d c : float) :
  calculate_distance_and_calories s = Ok (d, c) ->
  is_finite d = true /\ is_finite c = true
  /\ (0 < s -> ltb zero d = true /\ ltb zero c = true)
  /\ (s < 0 -> ltb d zero = true /\ ltb c zero = true)
  /\ (s = 0 -> d = zero /\ c = zero).
Proof.
  intros H. destruct (calculate_in_range s d c H) as [Hd Hc].
  split; [apply (in_range_finite _ _ _ _ Hd)|].
  split; [apply (in_range_finite _ _ _ _ Hc)|].
  split; [|split].
  - intros Hs. destruct (calculate_sign s d c H ltac:(lia)) as (md & ed & mc & ec & -> & ->).
    replace (s <? 0) with false by (symmetry; apply Z.ltb_ge; lia).
    split; reflexivity.
  - intros Hs. destruct (calculate_sign s d c H ltac:(lia)) as (md & ed & mc & ec & -> & ->).
    replace (s <? 0) with true by (symmetry; apply Z.ltb_lt; lia).
    split; reflexivity.
  - intros ->. vm_compute in H. injection H as <- <-. split; reflexivity.
Qed.

Lemma calculate_distance_and_calories_sign_witness :
  exists d c,
    calculate_distance_and_calories (-1) = Ok (d, c)
    /\ ltb d zero = true /\ ltb c zero = true /\ is_finite c = true.
Proof.
  destruct (calculate_distance_and_calories (-1)) as [[d c]|e] eqn:E;
    [|vm_compute in E; discriminate E].
  exists d, c. split; [reflexivity|].
  destruct (calculate_distance_and_calories_sign (-1) d c E) as (_ & Hfin & _ & Hneg & _).
  destruct (Hneg ltac:(lia)) as [Hd Hc]. repeat split; assumption.
Defined.

(** ** Further properties of the store queries *)

Lemma add_zero_l (c : float) : c <> neg_zero -> add zero c = c.
Proof.
  intros Hc. destruct c as [s|s| |s m e]; try reflexivity.
  destruct s; [exfalso; apply Hc; reflexivity|reflexivity].
Qed.

(** Appending a value to a column adds it to the total. *)
Lemma total_of_snoc (col : list float) (c : float) :
  c <> neg_zero -> total_of (col ++ [c]) = add (total_of col) c.
Proof.
  intros Hc. destruct col as [|x rest].
  - cbn [app total_of fold_left]. symmetry. apply add_zero_l. exact Hc.
  - cbn [app total_of]. rewrite fold_left_app. reflexivity.
Qed.

(** The step total over a table with one more row. *)
Lemma sum_steps_snoc (rows : list StepRecord.t) (r : StepRecord.t) :
  sum_steps (rows ++ [r])
  = (total <- sum_steps rows ;;
     if in_int64 (total + StepRecord.steps r)
     then Ok (total + StepRecord.steps r)
     else Raise (OperationalError "integer overflow")).
Proof.
  unfold sum_steps. rewrite !func_sum_int_eq, map_app, sum_int_from_app.
  destruct (sum_int_from 0 (map StepRecord.steps rows)) as [total|e]; reflexivity.
Qed.

Lemma sum_steps_ok (rows : list StepRecord.t) (total : Z) :
  sum_steps rows = Ok total ->
  total = fold_left Z.add (map StepRecord.steps rows) 0.
Proof.
  unfold sum_steps. rewrite func_sum_int_eq. apply sum_int_from_ok.
Qed.

Lemma StronglySorted_app_l {A : Type} (R : A -> A -> Prop) (l1 l2 : list A) :
  StronglySorted R (l1 ++ l2) -> StronglySorted R l1.
Proof.
  induction l1 as [|x l1 IH]; cbn [app]; intros Hs; [constructor|].
  inversion Hs as [|? ? Hrest Hx]; subst. constructor; [apply IH; exact Hrest|].
  apply Forall_app in Hx. apply Hx.
Qed.

Lemma limit_prefix {A : Type} (n : Z) (rows : list A) :
  exists rest, rows = limit n rows ++ rest.
Proof.
  unfold limit. destruct (n <? 0).
  - exists []. rewrite app_nil_r. reflexivity.
  - exists (skipn (Z.to_nat n) rows). symmetry. apply firstn_skipn.
Qed.

Lemma get_steps_inv (n : Z) (db : Store) (rows : list StepRecord.t) :
  get_steps n db = Ok rows ->
  in_int64 n = true /\ rows = limit n (order_by_created_at_desc (step_records db)).
Proof.
  unfold get_steps, bind_int. destruct (in_int64 n); [|discriminate].
  cbn [bind]. intros H. injection H as <-. split; reflexivity.
Qed.

Lemma get_steps_ok (n : Z) (db : Store) :
  in_int64 n = true ->
  get_steps n db = Ok (limit n (order_by_created_at_desc (step_records db))).
Proof. intros H. unfold get_steps. rewrite (bind_int_ok _ H). reflexivity. Qed.

Lemma get_steps_newest_first (n : Z) (db : Store) (rows : list StepRecord.t) :
  get_steps n db = Ok rows -> newest_first rows.
Proof.
  intros H. destruct (get_steps_inv _ _ _ H) as [_ ->]. unfold newest_first.
  destruct (limit_prefix n (order_by_created_at_desc (step_records db))) as [rest Hrest].
  apply (StronglySorted_app_l _ _ rest). rewrite <- Hrest.
  apply order_by_created_at_desc_newest_first.
Qed.

Lemma get_steps_incl (n : Z) (db : Store) (rows : list StepRecord.t) (r : StepRecord.t) :
  get_steps n db = Ok rows -> In r rows -> In r (step_records db).
Proof.
  intros H Hin. destruct (get_steps_inv _ _ _ H) as [_ ->].
  destruct (limit_prefix n (order_by_created_at_desc (step_records db))) as [rest Hrest].
  apply (Permutation_in _ (order_by_created_at_desc_Permutation (step_records db))).
  rewrite Hrest. apply in_or_app. left. exact Hin.
Qed.

Lemma find_step_last (rows : list StepRecord.t) (r : StepRecord.t) :
  ~ In (StepRecord.id r) (map StepRecord.id rows) ->
  find_step (StepRecord.id r) (rows ++ [r]) = Some r
  /\ delete_row (StepRecord.id r) (rows ++ [r]) = rows.
Proof.
  unfold find_step.
  induction rows as [|x rows IH]; cbn [app find delete_row map In]; intros Hnot.
  - rewrite Z.eqb_refl. split; reflexivity.
  - destruct (Z.eqb_spec (StepRecord.id x) (StepRecord.id r)) as [E|E].
    + exfalso. apply Hnot. left. exact E.
    + destruct (IH ltac:(tauto)) as [IH1 IH2]. rewrite IH1, IH2. split; reflexivity.
Qed.

(** *** Signs of quotients and products *)

Lemma div_sign (x : float) (sy : bool) (my : positive) (ey : Z) :
  is_nan x = false ->
  is_nan (div x (S754_finite sy my ey)) = false
  /\ signbit (div x (S754_finite sy my ey)) = xorb (signbit x) sy.
Proof.
  intros Hx. unfold div.
  destruct x as [sx|sx| |sx mx ex]; try discriminate; cbn [SFdiv signbit];
    try (split; reflexivity).
  destruct (SFdiv_core_binary_spec mx my ex ey) as [l Hcore]. rewrite Hcore. clear Hcore.
  match goal with
  | |- context [binary_round_aux prec emax ?s ?q ?e ?l] =>
      assert (Hq : 0 <= q) by (apply Z.div_pos; [|lia];
        apply Z.mul_nonneg_nonneg; [lia|apply Z.pow_nonneg; lia]);
      pose proof (binary_round_aux_canonical s q e l Hq) as Hcan;
      destruct (binary_round_aux prec emax s q e l) as [s'|s'| |s' m' e'']
  end; try contradiction; cbn [is_nan signbit].
  - destruct Hcan as [-> _]. split; reflexivity.
  - subst s'. split; reflexivity.
  - destruct Hcan as (-> & _). split; reflexivity.
Qed.

Lemma mul_sign (x : float) (sy : bool) (my : positive) (ey : Z) :
  is_nan x = false ->
  is_nan (mul x (S754_finite sy my ey)) = false
  /\ signbit (mul x (S754_finite sy my ey)) = xorb (signbit x) sy.
Proof.
  intros Hx. unfold mul.
  destruct x as [sx|sx| |sx mx ex]; try discriminate; cbn [SFmul signbit];
    try (split; reflexivity).
  pose proof (binary_round_aux_canonical (xorb sx sy) (Zpos (mx * my)) (ex + ey)
                loc_Exact ltac:(lia)) as Hcan.
  destruct (binary_round_aux prec emax (xorb sx sy) (Zpos (mx * my)) (ex + ey) loc_Exact)
    as [s'|s'| |s' m' e'']; try contradiction; cbn [is_nan signbit].
  - destruct Hcan as [-> _]. split; reflexivity.
  - subst s'. split; reflexivity.
  - destruct Hcan as (-> & _). split; reflexivity.
Qed.

Lemma min_not_nan (x y : float) :
  is_nan x = false -> is_nan y = false -> is_nan (min x y) = false.
Proof. intros Hx Hy. unfold min. destruct (ltb y x); assumption. Qed.

Lemma lit_100_eq : lit 100 = S754_finite false 7036874417766400 (-46).
Proof. vm_compute. reflexivity. Qed.

(** A finite float that is not a zero, in constructor form. *)
Lemma finite_nonzero (y : float) :
  is_finite y = true -> eqb y zero = false ->
  exists m e, y = S754_finite (signbit y) m e.
Proof.
  destruct y as [s|s| |s m e]; cbn [is_finite]; intros Hf Hz; try discriminate.
  exists m, e. reflexivity.
Qed.

(** ** Further properties of the handlers *)

Section FurtherHandlerProperties.

Variable defaults : WeightGoalDefaults.

(** X3: adding steps fails only with [OverflowError], exactly when the
    step count is no 64-bit integer, and then leaves the store as it was;
    otherwise it appends one record carrying the step count and the time of
    the request, and the goal table has one row if it was empty and as many
    rows as before otherwise. *)
Theorem add_steps_outcome (step_data : StepRecordCreate) (now : datetime) (db : Store) :
  (forall db' e,
     add_steps defaults step_data now db = (db', Raise e) ->
     e = OverflowError /\ db' = db /\ in_int64 (create_steps step_data) = false)
  /\ (forall db' r,
        add_steps defaults step_data now db = (db', Ok r) ->
        in_int64 (create_steps step_data) = true
        /\ step_records db' = step_records db ++ [r]
        /\ StepRecord.steps r = create_steps step_data
        /\ StepRecord.created_at r = now
        /\ List.length (weight_goals db')
           = Nat.max 1 (List.length (weight_goals db)))
  /\ (in_int64 (create_steps step_data) = true ->
      exists db' r, add_steps defaults step_data now db = (db', Ok r))
  /\ (in_int64 (create_steps step_data) = false ->
      add_steps defaults step_data now db = (db, Raise OverflowError)).
Proof.
  assert (Hraise : forall db' e,
            add_steps defaults step_data now db = (db', Raise e) ->
            e = OverflowError /\ db' = db /\ in_int64 (create_steps step_data) = false).
  { intros db' e E. destruct (add_steps_raise defaults _ _ _ _ _ E) as (-> & -> & H).
    repeat split. exact H. }
  assert (Hok : in_int64 (create_steps step_data) = true ->
            exists db' r, add_steps defaults step_data now db = (db', Ok r)).
  { intros Hs. destruct (add_steps_succeeds defaults step_data now db Hs)
      as (db' & r & _ & _ & E & _). exists db', r. exact E. }
  split; [exact Hraise|]. split; [|split; [exact Hok|]].
  - intros db' r E.
    destruct (add_steps_inv defaults _ _ _ _ _ E) as (_ & (_ & Hs & Ht) & Hrows & Hgoals).
    split; [apply (add_steps_int64 defaults _ _ _ _ _ E)|].
    split; [exact Hrows|]. split; [exact Hs|]. split; [exact Ht|].
    rewrite Hgoals. destruct (weight_goals db) as [|g others]; cbn [List.length]; lia.
  - intros Hs.
    destruct (add_steps defaults step_data now db) as [db' [r|e]] eqn:E.
    + pose proof (add_steps_int64 defaults _ _ _ _ _ E). congruence.
    + destruct (Hraise db' e eq_refl) as (-> & -> & _). reflexivity.
Qed.

(** X4: no request adds a goal row to a table that has one, and a request
    that finds the table empty leaves at most the one row it creates, which
    carries the declared defaults and the time of the request. *)
Theorem goal_row_created_once (req : request) (now : datetime) (db : Store) :
  (weight_goals db <> [] ->
   List.length (weight_goals (serve defaults req now db))
   = List.length (weight_goals db))
  /\ (weight_goals db = [] ->
      (List.length (weight_goals (serve defaults req now db)) <= 1)%nat
      /\ forall g, In g (weight_goals (serve defaults req now db)) ->
           goal_as_declared defaults g /\ WeightGoal.created_at g = now).
Proof.
  assert (Hsame : forall db', weight_goals db' = weight_goals db ->
            (weight_goals db <> [] ->
             List.length (weight_goals db') = List.length (weight_goals db))
            /\ (weight_goals db = [] ->
                (List.length (weight_goals db') <= 1)%nat
                /\ forall g, In g (weight_goals db') ->
                     goal_as_declared defaults g /\ WeightGoal.created_at g = now)).
  { intros db' ->. split; [reflexivity|].
    intros ->. split; [cbn [List.length]; lia|intros g []]. }
  destruct req as [step_data|n| |step_id]; cbn [serve].
  - destruct (add_steps defaults step_data now db) as [db' [r|e]] eqn:E; cbn [fst].
    + destruct (add_steps_inv defaults _ _ _ _ _ E) as (_ & _ & _ & ->).
      split.
      * destruct (weight_goals db); [intros H; contradiction|reflexivity].
      * intros ->. split; [cbn [List.length]; lia|].
        intros g [<-|[]]. split; [split|]; reflexivity.
    + destruct (add_steps_raise defaults _ _ _ _ _ E) as [-> _].
      apply Hsame. reflexivity.
  - apply Hsame. reflexivity.
  - destruct (sum_steps (step_records db)) as [ts|e] eqn:Esum.
    + destruct (get_dashboard_store defaults now db ts Esum)
        as (g & _ & _ & _ & _ & -> & Hg).
      split.
      * destruct (weight_goals db); [intros H; contradiction|reflexivity].
      * intros E. rewrite E in Hg |- *. subst g. split; [cbn [List.length tl]; lia|].
        intros g [<-|[]]. split; [split|]; reflexivity.
    + destruct (get_dashboard_overflow defaults now db e Esum) as [-> _].
      apply Hsame. reflexivity.
  - apply Hsame. apply delete_step_record_store.
Qed.

(** X5: in every store the service can reach, each step record holds the
    distance and the calories the conversion function returns for its step
    count, both finite; there is at most one goal row, and its target
    columns hold the declared defaults. *)
Theorem reachable_store_invariants (db : Store) :
  reachable defaults db ->
  Forall (fun r =>
            calculate_distance_and_calories (StepRecord.steps r)
            = Ok (StepRecord.distance_km r, StepRecord.calories_burned r)
            /\ is_finite (StepRecord.distance_km r) = true
            /\ is_finite (StepRecord.calories_burned r) = true)
         (step_records db)
  /\ (List.length (weight_goals db) <= 1)%nat
  /\ Forall (fun g =>
               WeightGoal.target_weight_loss_kg g
               = default_target_weight_loss_kg defaults
               /\ WeightGoal.total_calories_needed g
                  = default_total_calories_needed defaults)
            (weight_goals db).
Proof.
  intros Hreach.
  destruct (reachable_consistent defaults db Hreach) as (Hrows & Hgoals & _ & Hlen).
  split; [|split; [exact Hlen|exact Hgoals]].
  apply Forall_forall. intros r Hr.
  pose proof (proj1 (Forall_forall _ _) Hrows r Hr) as Hcalc.
  destruct (calculate_in_range _ _ _ Hcalc) as [Hd Hc].
  split; [exact Hcalc|].
  split; [apply (in_range_finite _ _ _ _ Hd)|apply (in_range_finite _ _ _ _ Hc)].
Qed.

(** X6: adding steps keeps an exact cached total exact: when the first
    goal row holds the sum of the stored calories, it holds the sum of the
    stored calories after the add as well, without any recomputation. *)
Theorem add_steps_keeps_total_exact (step_data : StepRecordCreate) (now : datetime)
    (db db' : Store) (r : StepRecord.t) (g : WeightGoal.t) (others : list WeightGoal.t) :
  weight_goals db = g :: others ->
  WeightGoal.calories_burned_so_far g
  = total_of (map StepRecord.calories_burned (step_records db)) ->
  add_steps defaults step_data now db = (db', Ok r) ->
  exists g',
    weight_goals db' = g' :: others
    /\ WeightGoal.calories_burned_so_far g'
       = total_of (map StepRecord.calories_burned (step_records db')).
Proof.
  intros Hgoals Hsync E.
  destruct (add_steps_inv defaults _ _ _ _ _ E) as (Hcalc & _ & Hrows & Hg).
  rewrite Hgoals in Hg. eexists. split; [exact Hg|].
  cbn [WeightGoal.set_calories_burned_so_far WeightGoal.calories_burned_so_far].
  rewrite Hrows, map_app. cbn [map]. rewrite total_of_snoc, Hsync; [reflexivity|].
  destruct (calculate_in_range _ _ _ Hcalc) as [_ Hc].
  apply (in_range_not_neg_zero _ _ _ _ Hc).
Qed.

(** X7: the step total of the dashboard is additive.  When an add
    succeeds and the dashboard read after it completes, a dashboard read
    before the add completes as well, and the step total reported after the
    add is the one reported before it plus the new step count. *)
Theorem dashboard_totals_additive (step_data : StepRecordCreate) (t1 t2 t3 : datetime)
    (db db2 db3 : Store) (resp3 : DashboardResponse) (r : StepRecord.t) :
  add_steps defaults step_data t2 db = (db2, Ok r) ->
  get_dashboard defaults t3 db2 = (db3, Ok resp3) ->
  exists db1 resp1,
    get_dashboard defaults t1 db = (db1, Ok resp1)
    /\ total_steps resp3 = total_steps resp1 + create_steps step_data
    /\ total_steps resp1 = fold_left Z.add (map StepRecord.steps (step_records db)) 0
    /\ in_int64 (total_steps resp3) = true.
Proof.
  intros E2 E3.
  destruct (add_steps_inv defaults _ _ _ _ _ E2) as (_ & (_ & Hs & _) & Hrows2 & _).
  destruct (get_dashboard_response defaults _ _ _ _ E3)
    as (g3 & Hg3 & Hz3 & _ & Htcn3 & Hts3 & _).
  rewrite Hrows2, sum_steps_snoc in Hts3.
  destruct (sum_steps (step_records db)) as [ts|e] eqn:Ets; [|discriminate Hts3].
  cbn [bind] in Hts3. rewrite Hs in Hts3.
  destruct (in_int64 (ts + create_steps step_data)) eqn:Hfit; [|discriminate Hts3].
  injection Hts3 as Hts3.
  assert (Htcn : eqb (goal_total_calories_needed defaults db) zero = false).
  { rewrite <- (add_steps_keeps_target defaults _ _ _ _ _ E2), <- Htcn3. exact Hz3. }
  destruct (proj1 (get_dashboard_completes defaults t1 db ts Ets) Htcn) as [resp1 Hresp1].
  assert (E1 : get_dashboard defaults t1 db
               = (fst (get_dashboard defaults t1 db), Ok resp1)).
  { rewrite <- Hresp1. apply surjective_pairing. }
  exists (fst (get_dashboard defaults t1 db)), resp1. split; [exact E1|].
  destruct (get_dashboard_response defaults _ _ _ _ E1) as (_ & _ & _ & _ & _ & Hts1 & _).
  rewrite Ets in Hts1. injection Hts1 as Hts1.
  split; [lia|]. split; [rewrite <- Hts1; apply sum_steps_ok; exact Ets|].
  rewrite <- Hts3. exact Hfit.
Qed.

(** X8: deleting the record an add has just created, its key not having
    been in use, restores the step records as they were before the add; the
    goal rows stay as the add left them, so the cached total still counts
    the deleted record.  This is so for every key of 64 bits, as the keys
    of the store are; a key beyond them could not be looked up. *)
Theorem add_then_delete (step_data : StepRecordCreate) (now : datetime)
    (db db1 : Store) (r : StepRecord.t) :
  add_steps defaults step_data now db = (db1, Ok r) ->
  ~ In (StepRecord.id r) (map StepRecord.id (step_records db)) ->
  (in_int64 (StepRecord.id r) = true ->
   delete_step_record (StepRecord.id r) db1
   = (mkStore (step_records db) (weight_goals db1),
      Ok "Step record deleted successfully"%string))
  /\ (in_int64 (StepRecord.id r) = false ->
      delete_step_record (StepRecord.id r) db1 = (db1, Raise OverflowError)).
Proof.
  intros E Hfresh. split; [|apply delete_step_record_overflow].
  intros Hid.
  destruct (add_steps_inv defaults _ _ _ _ _ E) as (_ & _ & Hrows & _).
  destruct (find_step_last (step_records db) r Hfresh) as [Hfind Hdel].
  pose proof (delete_step_record_inv (StepRecord.id r) db1 Hid) as Hinv.
  rewrite Hrows, Hfind in Hinv. rewrite Hinv, Hdel. reflexivity.
Qed.

(** The key the store assigns is not in use. *)
Lemma add_steps_fresh_key (step_data : StepRecordCreate) (now : datetime)
    (db db1 : Store) (r : StepRecord.t) :
  add_steps defaults step_data now db = (db1, Ok r) ->
  ~ In (StepRecord.id r) (map StepRecord.id (step_records db)).
Proof.
  intros E. destruct (add_steps_inv defaults _ _ _ _ _ E) as (_ & (-> & _) & _).
  apply fresh_id_not_in.
Qed.

(** X9: reading the dashboard twice is the same as reading it once: the
    second read leaves the store the first one committed and gives the same
    answer, whatever the times of the two requests. *)
Theorem get_dashboard_idempotent (t1 t2 : datetime) (db : Store) :
  get_dashboard defaults t2 (fst (get_dashboard defaults t1 db))
  = get_dashboard defaults t1 db.
Proof.
  destruct db as [rows goals]. unfold get_dashboard, refresh_weight_goal.
  cbn [step_records weight_goals].
  destruct (sum_steps rows) as [ts|e] eqn:Esum.
  - destruct goals as [|g others]; cbn [weight_goals step_records fst];
      rewrite Esum; reflexivity.
  - cbn [fst step_records]. rewrite Esum. reflexivity.
Qed.

(** X10: the recent records of the dashboard are what listing with a limit
    of 5 returns: at most five stored records, newest first; and the goal
    part of the answer carries the calorie total of the same answer. *)
Theorem get_dashboard_recent_records (now : datetime) (db db' : Store)
    (resp : DashboardResponse) :
  get_dashboard defaults now db = (db', Ok resp) ->
  get_steps 5 db = Ok (recent_records resp)
  /\ (List.length (recent_records resp) <= 5)%nat
  /\ newest_first (recent_records resp)
  /\ (forall r, In r (recent_records resp) -> In r (step_records db))
  /\ wg_calories_burned_so_far (weight_goal resp) = total_calories_burned resp.
Proof.
  intros E.
  destruct (get_dashboard_response defaults _ _ _ _ E)
    as (g & _ & _ & Hsum & _ & _ & _ & Htotal & Hrecent & Hwg).
  assert (Hget : get_steps 5 db = Ok (recent_records resp)).
  { rewrite (get_steps_ok 5 db eq_refl), Hrecent. reflexivity. }
  split; [exact Hget|]. split; [|split; [|split]].
  - rewrite Hrecent. unfold limit. cbn [Z.ltb Z.compare]. rewrite length_firstn.
    change (Z.to_nat 5) with 5%nat. lia.
  - apply (get_steps_newest_first 5 db _ Hget).
  - intros r. apply (get_steps_incl 5 db _ r Hget).
  - rewrite Htotal, Hwg. cbn [wg_calories_burned_so_far]. exact Hsum.
Qed.

(** X11: listing never invents a record and pages consistently.  With
    64-bit limits [0 <= n <= m], both listings succeed and the answer for
    [n] is the first [n] rows of the answer for [m], also when creation
    times tie; it has at most [n] rows, none for a limit of zero, and every
    stored record once the limit reaches the size of the table. *)
Theorem get_steps_paging (n m : Z) (db : Store) :
  0 <= n <= m -> in_int64 m = true ->
  exists rows_n rows_m,
    get_steps n db = Ok rows_n
    /\ get_steps m db = Ok rows_m
    /\ rows_n = firstn (Z.to_nat n) rows_m
    /\ (List.length rows_n <= Z.to_nat n)%nat
    /\ (n = 0 -> rows_n = [])
    /\ (forall r, In r rows_n -> In r (step_records db))
    /\ (Z.of_nat (List.length (step_records db)) <= n ->
        Permutation rows_n (step_records db)).
Proof.
  intros Hnm Hm.
  assert (Hn : in_int64 n = true).
  { apply in_int64_iff. apply in_int64_iff in Hm. lia. }
  assert (Hlim : forall k, 0 <= k ->
            limit k (order_by_created_at_desc (step_records db))
            = firstn (Z.to_nat k) (order_by_created_at_desc (step_records db))).
  { intros k Hk. unfold limit.
    replace (k <? 0) with false by (symmetry; apply Z.ltb_ge; lia). reflexivity. }
  do 2 eexists. split; [apply (get_steps_ok n db Hn)|].
  split; [apply (get_steps_ok m db Hm)|].
  rewrite (Hlim n), (Hlim m) by lia.
  split; [|split; [|split; [|split]]].
  - rewrite firstn_firstn. f_equal. lia.
  - rewrite length_firstn. lia.
  - intros ->. reflexivity.
  - intros r Hr. apply (get_steps_incl n db _ r (get_steps_ok n db Hn)).
    rewrite (Hlim n) by lia. exact Hr.
  - intros Hlen. rewrite firstn_all2.
    + apply order_by_created_at_desc_Permutation.
    + rewrite (Permutation_length (order_by_created_at_desc_Permutation (step_records db))).
      lia.
Qed.

(** X12: a dashboard read that fails on a zero target has already
    committed its update.  When the totals are computed and the target is a
    zero, the read raises [ZeroDivisionError], the first goal row holds the
    fresh calorie total, and when there was no goal row the failed request
    has created one; and the read raises [ZeroDivisionError] in no other
    case. *)
Theorem get_dashboard_commits_before_failing (now : datetime) (db : Store) :
  (forall total_steps,
     sum_steps (step_records db) = Ok total_steps ->
     eqb (goal_total_calories_needed defaults db) zero = true ->
     snd (get_dashboard defaults now db) = Raise ZeroDivisionError
     /\ step_records (fst (get_dashboard defaults now db)) = step_records db
     /\ (exists g,
           weight_goals (fst (get_dashboard defaults now db)) = g :: tl (weight_goals db)
           /\ WeightGoal.calories_burned_so_far g = sum_calories_burned (step_records db))
     /\ (weight_goals db = [] ->
         List.length (weight_goals (fst (get_dashboard defaults now db))) = 1%nat))
  /\ (snd (get_dashboard defaults now db) = Raise ZeroDivisionError ->
      eqb (goal_total_calories_needed defaults db) zero = true
      /\ exists total_steps, sum_steps (step_records db) = Ok total_steps).
Proof.
  split.
  - intros ts Ets Hz. split; [apply (get_dashboard_completes defaults now db ts Ets); exact Hz|].
    destruct (get_dashboard_store defaults now db ts Ets)
      as (g & _ & Hrows & Hsum & _ & Hgoals & _).
    split; [exact Hrows|]. split.
    + exists g. split; assumption.
    + intros E. rewrite Hgoals, E. reflexivity.
  - intros Hraise. destruct (sum_steps (step_records db)) as [ts|e] eqn:Ets.
    + split; [|exists ts; reflexivity].
      destruct (eqb (goal_total_calories_needed defaults db) zero) eqn:Hz; [reflexivity|].
      destruct (proj1 (get_dashboard_completes defaults now db ts Ets) Hz) as [resp Hresp].
      rewrite Hresp in Hraise. discriminate Hraise.
    + destruct (get_dashboard_overflow defaults now db e Ets) as [E ->].
      rewrite E in Hraise. discriminate Hraise.
Qed.

(** X13: with unique keys, a record can be deleted once: after a
    successful delete, deleting the same key again answers with the
    not-found error and changes nothing. *)
Theorem delete_step_record_twice (step_id : Z) (db db1 : Store) (msg : string) :
  NoDup (map StepRecord.id (step_records db)) ->
  delete_step_record step_id db = (db1, Ok msg) ->
  delete_step_record step_id db1
  = (db1, Raise (HTTPException 404 "Step record not found")).
Proof.
  intros Hnd E.
  assert (Hid : in_int64 step_id = true).
  { destruct (in_int64 step_id) eqn:H; [reflexivity|].
    rewrite (delete_step_record_overflow step_id db H) in E. discriminate E. }
  pose proof (delete_step_record_inv step_id db Hid) as Hinv.
  destruct (find_step step_id (step_records db)) as [r|]; rewrite E in Hinv;
    [|discriminate Hinv].
  injection Hinv as -> _.
  pose proof (delete_step_record_inv step_id
                (mkStore (delete_row step_id (step_records db)) (weight_goals db)) Hid)
    as Hinv2.
  cbn [step_records] in Hinv2.
  destruct (delete_row_NoDup step_id _ Hnd) as [_ Hgone].
  apply find_step_none in Hgone. rewrite Hgone in Hinv2. exact Hinv2.
Qed.

(** The unclamped progress is a number when the calorie total is one and
    the target is finite and not a zero. *)
Lemma progress_not_nan (total target : float) :
  is_nan total = false -> is_finite target = true -> eqb target zero = false ->
  is_nan (mul (div total target) (lit 100)) = false
  /\ signbit (mul (div total target) (lit 100)) = xorb (signbit total) (signbit target).
Proof.
  intros Ht Hfin Hz. destruct (finite_nonzero target Hfin Hz) as (m & e & Etarget).
  rewrite Etarget at 1 2. rewrite lit_100_eq.
  destruct (div_sign total (signbit target) m e Ht) as [Hn Hs].
  destruct (mul_sign _ false 7036874417766400 (-46) Hn) as [Hn' Hs'].
  split; [exact Hn'|]. rewrite Hs', Hs, xorb_false_r. reflexivity.
Qed.

(** In a reachable store with a finite default target, the unclamped
    progress of a completed dashboard read is a number. *)
Lemma unclamped_progress_number (now : datetime) (db db' : Store)
    (resp : DashboardResponse) :
  reachable defaults db ->
  is_finite (default_total_calories_needed defaults) = true ->
  get_dashboard defaults now db = (db', Ok resp) ->
  exists unclamped,
    progress_percentage (weight_goal resp) = min unclamped (lit 100)
    /\ is_nan unclamped = false.
Proof.
  intros Hreach Hfin E.
  pose proof (reachable_consistent defaults db Hreach) as Hcons.
  destruct (get_dashboard_response defaults _ _ _ _ E)
    as (g & _ & Hz & Hsum & Htcn & _ & _ & _ & _ & Hwg).
  rewrite Hwg. cbn [progress_percentage].
  assert (Htarget : is_finite (WeightGoal.total_calories_needed g) = true).
  { rewrite Htcn, (consistent_target defaults db Hcons). exact Hfin. }
  assert (Htotal : is_nan (WeightGoal.calories_burned_so_far g) = false).
  { rewrite Hsum. apply sum_calories_burned_not_nan. }
  destruct (progress_not_nan _ _ Htotal Htarget Hz) as [Hn _].
  eexists. split; [reflexivity|exact Hn].
Qed.

(** X14: in every reachable store with a finite default target, a
    dashboard read that completes reports a [progress_percentage] that is a
    number and at most 100. *)
Theorem progress_percentage_at_most_100 (now : datetime) (db db' : Store)
    (resp : DashboardResponse) :
  reachable defaults db ->
  is_finite (default_total_calories_needed defaults) = true ->
  get_dashboard defaults now db = (db', Ok resp) ->
  is_nan (progress_percentage (weight_goal resp)) = false
  /\ leb (progress_percentage (weight_goal resp)) (lit 100) = true.
Proof.
  intros Hreach Hfin E.
  destruct (unclamped_progress_number now db db' resp Hreach Hfin E) as (x & -> & Hx).
  split; [apply min_not_nan|apply min_le]; try exact Hx; reflexivity.
Qed.

Lemma order_by_created_at_desc_newest (rows : list StepRecord.t) (r : StepRecord.t) :
  Forall (fun x => StepRecord.created_at x < StepRecord.created_at r) rows ->
  order_by_created_at_desc (rows ++ [r]) = r :: order_by_created_at_desc rows.
Proof.
  unfold order_by_created_at_desc.
  induction rows as [|x rows IH]; intros Hrows; [reflexivity|].
  inversion Hrows as [|? ? Hx Hrest]; subst.
  cbn [app fold_right]. rewrite (IH Hrest). cbn [insert_desc].
  replace (StepRecord.created_at r <=? StepRecord.created_at x) with false
    by (symmetry; apply Z.leb_gt; lia).
  reflexivity.
Qed.

(** X16: a record added at a time later than every stored record is listed
    first: with a 64-bit limit of at least 1, the listing after the add is
    the new record followed by the listing before the add with the limit
    less one. *)
Theorem get_steps_after_add (step_data : StepRecordCreate) (now : datetime)
    (db db' : Store) (r : StepRecord.t) (n : Z) :
  add_steps defaults step_data now db = (db', Ok r) ->
  Forall (fun x => StepRecord.created_at x < now) (step_records db) ->
  1 <= n -> in_int64 n = true ->
  exists rows,
    get_steps (n - 1) db = Ok rows
    /\ get_steps n db' = Ok (r :: rows).
Proof.
  intros E Holder Hn Hfit.
  destruct (add_steps_inv defaults _ _ _ _ _ E) as (_ & (_ & _ & Ht) & Hrows & _).
  assert (Hfit' : in_int64 (n - 1) = true).
  { apply in_int64_iff. apply in_int64_iff in Hfit. lia. }
  eexists. split; [apply (get_steps_ok (n - 1) db Hfit')|].
  rewrite (get_steps_ok n db' Hfit). f_equal.
  unfold limit. rewrite Hrows.
  rewrite order_by_created_at_desc_newest by (rewrite Ht; exact Holder).
  replace (n <? 0) with false by (symmetry; apply Z.ltb_ge; lia).
  replace (n - 1 <? 0) with false by (symmetry; apply Z.ltb_ge; lia).
  replace (Z.to_nat n) with (S (Z.to_nat (n - 1))) by lia.
  reflexivity.
Qed.

(** X17: once a goal row exists no request changes its identity: after
    any request the first goal row has the same key, targets and creation
    time, and the goal rows after it are the same. *)
Theorem goal_row_identity (req : request) (now : datetime) (db : Store)
    (g : WeightGoal.t) (others : list WeightGoal.t) :
  weight_goals db = g :: others ->
  exists g',
    weight_goals (serve defaults req now db) = g' :: others
    /\ WeightGoal.id g' = WeightGoal.id g
    /\ WeightGoal.target_weight_loss_kg g' = WeightGoal.target_weight_loss_kg g
    /\ WeightGoal.total_calories_needed g' = WeightGoal.total_calories_needed g
    /\ WeightGoal.created_at g' = WeightGoal.created_at g.
Proof.
  intros Hgoals. destruct req as [step_data|n| |step_id]; cbn [serve].
  - destruct (add_steps defaults step_data now db) as [db' [r|e]] eqn:E; cbn [fst].
    + destruct (add_steps_inv defaults _ _ _ _ _ E) as (_ & _ & _ & Hg).
      rewrite Hgoals in Hg. eexists. split; [exact Hg|]. repeat split.
    + destruct (add_steps_raise defaults _ _ _ _ _ E) as [-> _].
      exists g. repeat split. exact Hgoals.
  - exists g. repeat split. exact Hgoals.
  - destruct (sum_steps (step_records db)) as [ts|e] eqn:Esum.
    + destruct (get_dashboard_store defaults now db ts Esum)
        as (g' & _ & _ & _ & _ & Hg' & Hshape).
      rewrite Hgoals in Hg', Hshape. cbn [tl] in Hg'. subst g'.
      eexists. split; [exact Hg'|]. repeat split.
    + destruct (get_dashboard_overflow defaults now db e Esum) as [-> _].
      exists g. repeat split. exact Hgoals.
  - destruct (delete_step_record_store step_id db) as [Hg _]. rewrite Hg.
    exists g. repeat split. exact Hgoals.
Qed.

End FurtherHandlerProperties.

(** ** Further examples *)

Lemma add_steps_outcome_witness :
  (exists db' r,
     add_steps example_defaults (mkStepRecordCreate 5000) 2 example_store = (db', Ok r)
     /\ step_records db' = step_records example_store ++ [r]
     /\ StepRecord.steps r = 5000)
  /\ add_steps example_defaults (mkStepRecordCreate (2 ^ 63)) 2 example_store
     = (example_store, Raise OverflowError).
Proof.
  destruct (add_steps_outcome example_defaults (mkStepRecordCreate 5000) 2 example_store)
    as (_ & Hok & Hex & _).
  destruct (add_steps_outcome example_defaults (mkStepRecordCreate (2 ^ 63)) 2
              example_store) as (_ & _ & _ & Hko).
  split.
  - destruct Hex as (db' & r & E); [reflexivity|].
    exists db', r. destruct (Hok db' r E) as (_ & Hrows & Hs & _).
    split; [exact E|]. split; [exact Hrows|exact Hs].
  - apply Hko. reflexivity.
Defined.

Lemma goal_row_created_once_witness :
  List.length (weight_goals
                 (serve example_defaults (AddSteps (mkStepRecordCreate 5000)) 2
                    example_store)) = 1%nat
  /\ Nat.le (List.length (weight_goals (serve example_defaults GetDashboard 2 empty_store)))
            1.
Proof.
  destruct (goal_row_created_once example_defaults (AddSteps (mkStepRecordCreate 5000)) 2
              example_store) as [Hkeep _].
  destruct (goal_row_created_once example_defaults GetDashboard 2 empty_store)
    as [_ Hnew].
  split.
  - rewrite Hkeep; [reflexivity|]. vm_compute. discriminate.
  - apply Hnew. reflexivity.
Defined.

Lemma reachable_store_invariants_witness :
  Forall (fun r => is_finite (StepRecord.calories_burned r) = true)
         (step_records example_store)
  /\ (List.length (weight_goals example_store) <= 1)%nat.
Proof.
  destruct (reachable_store_invariants example_defaults example_store
              example_store_reachable) as (Hrows & Hlen & _).
  split; [|exact Hlen].
  apply Forall_forall. intros r Hr.
  apply (proj1 (Forall_forall _ _) Hrows r Hr).
Defined.

Lemma add_steps_keeps_total_exact_witness :
  exists g db' r g',
    weight_goals example_store = [g]
    /\ WeightGoal.calories_burned_so_far g
       = total_of (map StepRecord.calories_burned (step_records example_store))
    /\ add_steps example_defaults (mkStepRecordCreate 5000) 2 example_store = (db', Ok r)
    /\ weight_goals db' = [g']
    /\ WeightGoal.calories_burned_so_far g'
       = total_of (map StepRecord.calories_burned (step_records db')).
Proof.
  destruct (weight_goals example_store) as [|g [|g2 others]] eqn:Eg;
    [vm_compute in Eg; discriminate Eg| |vm_compute in Eg; discriminate Eg].
  assert (Hsync : WeightGoal.calories_burned_so_far g
                  = total_of (map StepRecord.calories_burned (step_records example_store))).
  { vm_compute in Eg. injection Eg as <-. vm_compute. reflexivity. }
  destruct (add_steps example_defaults (mkStepRecordCreate 5000) 2 example_store)
    as [db' [r|e]] eqn:E.
  - destruct (add_steps_keeps_total_exact example_defaults _ _ _ _ _ g [] Eg Hsync E)
      as (g' & Hg' & Hsync').
    exists g, db', r, g'. repeat split; assumption.
  - exfalso. apply add_steps_raise in E. destruct E as (_ & _ & E).
    vm_compute in E. discriminate E.
Defined.

Lemma dashboard_totals_additive_witness :
  exists db2 r db3 resp3 db1 resp1,
    add_steps example_defaults (mkStepRecordCreate 5000) 3 example_store = (db2, Ok r)
    /\ get_dashboard example_defaults 4 db2 = (db3, Ok resp3)
    /\ get_dashboard example_defaults 2 example_store = (db1, Ok resp1)
    /\ total_steps resp3 = total_steps resp1 + 5000.
Proof.
  destruct (add_steps example_defaults (mkStepRecordCreate 5000) 3 example_store)
    as [db2 [r|e2]] eqn:E2;
    [|apply add_steps_raise in E2; destruct E2 as (_ & _ & E2);
      vm_compute in E2; discriminate E2].
  destruct (get_dashboard example_defaults 4 db2) as [db3 [resp3|e3]] eqn:E3.
  - destruct (dashboard_totals_additive example_defaults _ 2 3 4 example_store
                db2 db3 resp3 r E2 E3) as (db1 & resp1 & E1 & Hs & _).
    exists db2, r, db3, resp3, db1, resp1. repeat split; assumption.
  - exfalso. vm_compute in E2. injection E2 as <- _. vm_compute in E3. discriminate E3.
Defined.

Lemma add_then_delete_witness :
  exists db1 r,
    add_steps example_defaults (mkStepRecordCreate 5000) 2 example_store = (db1, Ok r)
    /\ delete_step_record (StepRecord.id r) db1
       = (mkStore (step_records example_store) (weight_goals db1),
          Ok "Step record deleted successfully"%string).
Proof.
  destruct (add_steps example_defaults (mkStepRecordCreate 5000) 2 example_store)
    as [db1 [r|e]] eqn:E.
  - exists db1, r. split; [reflexivity|].
    apply (add_then_delete example_defaults _ _ _ _ _ E).
    + apply (add_steps_fresh_key example_defaults _ _ _ _ _ E).
    + destruct (add_steps_inv _ _ _ _ _ _ E) as (_ & (-> & _) & _). reflexivity.
  - exfalso. apply add_steps_raise in E. destruct E as (_ & _ & E).
    vm_compute in E. discriminate E.
Defined.

Lemma get_dashboard_recent_records_witness :
  exists db' resp,
    get_dashboard example_defaults 2 example_store = (db', Ok resp)
    /\ get_steps 5 example_store = Ok (recent_records resp)
    /\ (List.length (recent_records resp) <= 5)%nat.
Proof.
  destruct (get_dashboard example_defaults 2 example_store) as [db' [resp|e]] eqn:E.
  - exists db', resp. split; [reflexivity|].
    destruct (get_dashboard_recent_records example_defaults 2 example_store db' resp E)
      as (Hget & Hlen & _).
    split; assumption.
  - vm_compute in E. discriminate E.
Defined.

Lemma get_steps_paging_witness :
  exists rows_1 rows_10,
    get_steps 1 example_store = Ok rows_1
    /\ get_steps 10 example_store = Ok rows_10
    /\ rows_1 = firstn 1 rows_10.
Proof.
  destruct (get_steps_paging 1 10 example_store ltac:(lia) eq_refl)
    as (rows_1 & rows_10 & H1 & H10 & Hprefix & _).
  exists rows_1, rows_10. repeat split; assumption.
Defined.

Lemma get_dashboard_commits_before_failing_witness :
  snd (get_dashboard example_defaults 2 zero_target_store) = Raise ZeroDivisionError
  /\ exists g,
       weight_goals (fst (get_dashboard example_defaults 2 zero_target_store)) = [g]
       /\ WeightGoal.calories_burned_so_far g
          = sum_calories_burned (step_records zero_target_store).
Proof.
  destruct (get_dashboard_commits_before_failing example_defaults 2 zero_target_store)
    as [Hcommit _].
  destruct (Hcommit 0 eq_refl eq_refl) as (Hraise & _ & (g & Hg & Hsum) & _).
  split; [exact Hraise|]. exists g. split; [exact Hg|exact Hsum].
Defined.

Lemma delete_step_record_twice_witness :
  exists db1 msg,
    delete_step_record 1 example_store = (db1, Ok msg)
    /\ delete_step_record 1 db1
       = (db1, Raise (HTTPException 404 "Step record not found")).
Proof.
  destruct (delete_step_record 1 example_store) as [db1 [msg|e]] eqn:E.
  - exists db1, msg. split; [reflexivity|].
    apply (delete_step_record_twice 1 example_store db1 msg); [|exact E].
    vm_compute. constructor; [intros []|constructor].
  - vm_compute in E. discriminate E.
Defined.

Lemma progress_percentage_at_most_100_witness :
  exists db' resp,
    get_dashboard example_defaults 2 example_store = (db', Ok resp)
    /\ leb (progress_percentage (weight_goal resp)) (lit 100) = true.
Proof.
  destruct (get_dashboard example_defaults 2 example_store) as [db' [resp|e]] eqn:E.
  - exists db', resp. split; [reflexivity|].
    apply (progress_percentage_at_most_100 example_defaults 2 example_store db' resp
             example_store_reachable eq_refl E).
  - vm_compute in E. discriminate E.
Defined.

Lemma get_steps_after_add_witness :
  exists db' r rows,
    add_steps example_defaults (mkStepRecordCreate 5000) 2 example_store = (db', Ok r)
    /\ get_steps 1 example_store = Ok rows
    /\ get_steps 2 db' = Ok (r :: rows).
Proof.
  destruct (add_steps example_defaults (mkStepRecordCreate 5000) 2 example_store)
    as [db' [r|e]] eqn:E.
  - destruct (get_steps_after_add example_defaults _ 2 example_store db' r 2 E)
      as (rows & Hrows & Hafter).
    + vm_compute. constructor; [reflexivity|constructor].
    + lia.
    + reflexivity.
    + exists db', r, rows. repeat split; assumption.
  - exfalso. apply add_steps_raise in E. destruct E as (_ & _ & E).
    vm_compute in E. discriminate E.
Defined.

Lemma goal_row_identity_witness :
  exists g g',
    weight_goals example_store = [g]
    /\ weight_goals (serve example_defaults GetDashboard 9 example_store) = [g']
    /\ WeightGoal.id g' = WeightGoal.id g
    /\ WeightGoal.created_at g' = WeightGoal.created_at g.
Proof.
  destruct (weight_goals example_store) as [|g [|g2 others]] eqn:Eg;
    [vm_compute in Eg; discriminate Eg| |vm_compute in Eg; discriminate Eg].
  destruct (goal_row_identity example_defaults GetDashboard 9 example_store g [] Eg)
    as (g' & Hg' & Hid & _ & _ & Hat).
  exists g, g'. repeat split; assumption.
Defined.
